(** * download_video.py: a shallow embedding and its verified properties

    The script locates a video referenced by a web page and retrieves it
    through a chain of fall-backs.  This development embeds
    [is_direct_video_url], [fetch_page], [extract_video_urls],
    [download_with_yt_dlp], [download_direct], [download_video] and the
    [__main__] block, and proves the properties of the specification.

    Modelling conventions.
    - A Python [str] is a [string]; the model covers ASCII text, so
      [str.lower] maps [A-Z] to [a-z] and leaves every other character alone.
    - [needle in hay] on strings is [contains needle hay].
    - The set [seen] of the deduplication is a [gset string].  The order in
      which a [for] loop walks [set(l)] is not fixed by the language (it
      follows the string hashes of the interpreter process), so it is a field
      of the run-time environment, as are the HTML parser and [urljoin].
    - The outside world (the yt-dlp subprocess, the HTTP server, the file
      system) is explicit state: every external call is recorded in a trace
      and its outcome is read from an oracle that sees the trace so far. *)

From stdpp Require Import base option list sorting strings gmap sets.
From Stdlib Require Import Ascii String.

#[local] Open Scope string_scope.

(** ** Strings as the script uses them *)

Module Str.

Definition is_upper (c : ascii) : bool :=
  (65 <=? nat_of_ascii c)%nat && (nat_of_ascii c <=? 90)%nat.

Definition lower_char (c : ascii) : ascii :=
  if is_upper c then ascii_of_nat (nat_of_ascii c + 32) else c.

(** [s.lower()] *)
Fixpoint lower (s : string) : string :=
  match s with
  | EmptyString => EmptyString
  | String c r => String (lower_char c) (lower r)
  end.

(** [s.startswith(p)] *)
Fixpoint starts_with (p s : string) : bool :=
  match p, s with
  | EmptyString, _ => true
  | String _ _, EmptyString => false
  | String a p', String b s' => Ascii.eqb a b && starts_with p' s'
  end.

(** [needle in hay] *)
Fixpoint contains (needle hay : string) : bool :=
  starts_with needle hay ||
  match hay with
  | EmptyString => false
  | String _ r => contains needle r
  end.

(** [any(x in hay for x in needles)] *)
Definition any_in (needles : list string) (hay : string) : bool :=
  existsb (fun x => contains x hay) needles.

(** [s[:n]] *)
Fixpoint take (n : nat) (s : string) : string :=
  match n, s with
  | S n', String c r => String c (take n' r)
  | _, _ => EmptyString
  end.

(** [s.replace(old, new)] for a non-empty [old]: leftmost, non-overlapping. *)
Fixpoint drop (n : nat) (s : string) : string :=
  match n, s with
  | S n', String _ r => drop n' r
  | _, _ => s
  end.

Fixpoint replace_fuel (fuel : nat) (old new s : string) : string :=
  match fuel with
  | O => s
  | S fuel' =>
      match s with
      | EmptyString => EmptyString
      | String c r =>
          if starts_with old s
          then new ++ replace_fuel fuel' old new (drop (String.length old) s)
          else String c (replace_fuel fuel' old new r)
      end
  end.

Definition replace (old new s : string) : string :=
  replace_fuel (String.length s) old new s.

Definition newline : ascii := ascii_of_nat 10.

(** [s.split(sep)] for a one-character separator, written with an
    accumulator for the current field. *)
Fixpoint split_on (sep : ascii) (cur s : string) : list string :=
  match s with
  | EmptyString => [cur]
  | String c r =>
      if Ascii.eqb c sep then cur :: split_on sep EmptyString r
      else split_on sep (cur ++ String c EmptyString) r
  end.

Definition is_space (c : ascii) : bool :=
  let n := nat_of_ascii c in
  ((9 <=? n) && (n <=? 13) || (28 <=? n) && (n <=? 32))%nat.

Fixpoint lstrip (s : string) : string :=
  match s with
  | String c r => if is_space c then lstrip r else s
  | EmptyString => EmptyString
  end.

Fixpoint rev_onto (s acc : string) : string :=
  match s with
  | EmptyString => acc
  | String c r => rev_onto r (String c acc)
  end.
Definition rev (s : string) : string := rev_onto s EmptyString.

(** [s.strip()] *)
Definition strip (s : string) : string := rev (lstrip (rev (lstrip s))).

(** [os.path.basename(p)] on POSIX: what follows the last slash. *)
Fixpoint basename_acc (cur s : string) : string :=
  match s with
  | EmptyString => cur
  | String c r =>
      if Ascii.eqb c "/" then basename_acc EmptyString r
      else basename_acc (cur ++ String c EmptyString) r
  end.
Definition basename (p : string) : string := basename_acc EmptyString p.

Definition ends_with_slash (s : string) : bool :=
  match rev s with
  | String c _ => Ascii.eqb c "/"
  | EmptyString => false
  end.

(** [os.path.join(a, b)] on POSIX. *)
Definition path_join (a b : string) : string :=
  if starts_with "/" b then b
  else if String.eqb a "" || ends_with_slash a then a ++ b
  else a ++ "/" ++ b.

(** [int(s)] on text: optional surrounding white space, an optional sign,
    then decimal digits, where single underscores may separate digits;
    [None] stands for [ValueError].  (The interpreter's limit on the number
    of digits is left out.) *)
Fixpoint digits_value (acc : Z) (after_digit : bool) (s : string)
  : option Z :=
  match s with
  | EmptyString => if after_digit then Some acc else None
  | String c r =>
      let n := nat_of_ascii c in
      if ((48 <=? n) && (n <=? 57))%nat
      then digits_value (10 * acc + Z.of_nat (n - 48))%Z true r
      else if Ascii.eqb c "_" && after_digit
           then digits_value acc false r
           else None
  end.
Definition py_int (s : string) : option Z :=
  match strip s with
  | EmptyString => None
  | String c r =>
      if Ascii.eqb c "-" then Z.opp <$> digits_value 0 false r
      else if Ascii.eqb c "+" then digits_value 0 false r
      else digits_value 0 false (String c r)
  end.

End Str.

(** ** URL classifier *)

Definition video_extensions : list string :=
  [".mp4"; ".webm"; ".m3u8"; ".mov"; ".avi"; ".mkv"; ".flv"].

Definition video_services : list string :=
  ["wistia.com"; "wistia.net"; "vimeo.com"; "youtube.com"; "youtu.be";
   "vidyard.com"; "brightcove"; "jwplatform"; "loom.com"; "sproutvideo"].

Definition is_direct_video_url (url : string) : bool :=
  let url_lower := Str.lower url in
  if Str.any_in video_extensions url_lower then true
  else if Str.any_in video_services url_lower then true
  else false.

(** ** The regular expressions of the extractor

    The fragment of Python's [re] the script uses: literals, character
    classes, sequence, alternation, greedy [*], [+] and [?], and one capture
    group.  Matching is by backtracking with the priorities of [re]
    (left alternative first, longest repetition first). *)

Module Re.

Inductive re : Type :=
| Eps
| Lit (c : ascii)
| Class (p : ascii → bool)
| Seq (a b : re)
| Alt (a b : re)
| Star (a : re)
| Group (a : re).

Definition Plus (a : re) : re := Seq a (Star a).
Definition Opt (a : re) : re := Alt a Eps.

Fixpoint lit (s : string) : re :=
  match s with
  | EmptyString => Eps
  | String c EmptyString => Lit c
  | String c r => Seq (Lit c) (lit r)
  end.

Definition between (lo hi : nat) (c : ascii) : bool :=
  (lo <=? nat_of_ascii c)%nat && (nat_of_ascii c <=? hi)%nat.

(** [[a-zA-Z0-9]] *)
Definition alnum (c : ascii) : bool :=
  between 97 122 c || between 65 90 c || between 48 57 c.
(** [[a-zA-Z0-9_-]] *)
Definition alnum_us_dash (c : ascii) : bool :=
  alnum c || Ascii.eqb c "_" || Ascii.eqb c "-".
(** [\d] *)
Definition digit (c : ascii) : bool := between 48 57 c.
(** [\s] on ASCII text: tab to carriage return, the four separators
    [\x1c]-[\x1f], and the space. *)
Definition space (c : ascii) : bool :=
  between 9 13 c || between 28 31 c || Ascii.eqb c " ".
(** The negated class of the file-URL pattern: anything but white space,
    the double quote (code 34), the single quote (code 39), and the two
    angle brackets. *)
Definition url_char (c : ascii) : bool :=
  negb (space c || (nat_of_ascii c =? 34)%nat || (nat_of_ascii c =? 39)%nat
        || Ascii.eqb c "<" || Ascii.eqb c ">").

Section Match.
Context {A : Type}.
(** [ic] is the [re.IGNORECASE] flag. *)
Variable ic : bool.

Definition lit_eq (c d : ascii) : bool :=
  if ic then Ascii.eqb (Str.lower_char c) (Str.lower_char d)
  else Ascii.eqb c d.

(** [run r s cap k]: match [r] at the head of [s]; on success hand the
    rest of the text and the capture to [k]; when [k] refuses, try the
    next way of matching [r]. *)
Fixpoint run (r : re) (s : string) (cap : option string)
         (k : string → option string → option A) : option A :=
  match r with
  | Eps => k s cap
  | Lit c =>
      match s with
      | String d s' => if lit_eq c d then k s' cap else None
      | EmptyString => None
      end
  | Class p =>
      match s with
      | String d s' => if p d then k s' cap else None
      | EmptyString => None
      end
  | Seq a b => run a s cap (fun s' cap' => run b s' cap' k)
  | Alt a b =>
      match run a s cap k with
      | Some x => Some x
      | None => run b s cap k
      end
  | Star a =>
      (fix loop (n : nat) (s : string) (cap : option string) : option A :=
         match n with
         | O => k s cap
         | S n' =>
             match run a s cap (fun s' cap' =>
                     if (String.length s' <? String.length s)%nat
                     then loop n' s' cap' else None) with
             | Some x => Some x
             | None => k s cap
             end
         end) (String.length s) s cap
  | Group a =>
      run a s cap (fun s' _ =>
        k s' (Some (Str.take (String.length s - String.length s') s)))
  end.
End Match.

(** One attempt at the head of [s]: the capture and the text after the
    match. *)
Definition match_here (ic : bool) (r : re) (s : string)
  : option (string * string) :=
  run ic r s None (fun s' cap => Some (default "" cap, s')).

(** [re.findall(r, s)] for a pattern with one group: the group of every
    match, scanning left to right without overlap. *)
Fixpoint findall_fuel (fuel : nat) (ic : bool) (r : re) (s : string)
  : list string :=
  match fuel with
  | O => []
  | S fuel' =>
      match match_here ic r s with
      | Some (g, s') =>
          g :: (if (String.length s' <? String.length s)%nat
                then findall_fuel fuel' ic r s'
                else match s with
                     | EmptyString => []
                     | String _ t => findall_fuel fuel' ic r t
                     end)
      | None =>
          match s with
          | EmptyString => []
          | String _ t => findall_fuel fuel' ic r t
          end
      end
  end.

Definition findall (ic : bool) (r : re) (s : string) : list string :=
  findall_fuel (S (String.length s)) ic r s.

End Re.
Import Re.

(** ** The document tree

    [BeautifulSoup(html, 'html.parser')] yields a forest of tags; text
    nodes play no part in the extractor and are left out.  The attributes
    of a tag are a dictionary. *)

Inductive node : Type :=
| Tag (name : string) (attrs : gmap string string) (children : list node).

Definition tag_name (n : node) : string := match n with Tag nm _ _ => nm end.
Definition tag_attrs (n : node) : gmap string string :=
  match n with Tag _ a _ => a end.
Definition tag_children (n : node) : list node :=
  match n with Tag _ _ c => c end.

(** [tag.get(key)]: [None] when the attribute is absent. *)
Definition get (n : node) (key : string) : option string := tag_attrs n !! key.

(** All tags below [n], in document order. *)
Fixpoint descendants (n : node) : list node :=
  match n with
  | Tag _ _ cs =>
      (fix walk (l : list node) : list node :=
         match l with
         | [] => []
         | c :: l' => (c :: descendants c ++ walk l')%list
         end) cs
  end.

Definition forest_descendants (soup : list node) : list node :=
  flat_map (fun c => c :: descendants c) soup.

(** [soup.find_all(name)] and [tag.find_all(name)] *)
Definition soup_find_all (soup : list node) (name : string) : list node :=
  filter (fun n => tag_name n = name) (forest_descendants soup).
Definition find_all (n : node) (name : string) : list node :=
  filter (fun n => tag_name n = name) (descendants n).

(** Truthiness of an attribute value: [None] and the empty string are
    false. *)
Definition truthy (v : option string) : bool :=
  match v with
  | Some s => negb (String.eqb s "")
  | None => false
  end.

(** [a or b] on attribute values. *)
Definition py_or (a b : option string) : option string :=
  if truthy a then a else b.

(** ** The run-time environment of the extractor *)

Class Runtime : Type := {
  (** [BeautifulSoup(html, 'html.parser')] *)
  html_parser : string → list node;
  (** [urllib.parse.urljoin(base, url)] *)
  urljoin : string → string → string;
  (** [urllib.parse.urlparse(url).path] *)
  url_path : string → string;
  (** the order in which [for x in set(l)] visits the members of
      [set(l)] *)
  set_iter : list string → list string
}.

(** What Python guarantees of a walk over [set(l)]: every member once. *)
Definition set_iter_ok (RT : Runtime) : Prop :=
  ∀ l, NoDup (set_iter l) ∧ ∀ x, x ∈ set_iter l ↔ x ∈ l.

(** ** Candidate references *)

Inductive source_kind : Type :=
| video_element | video_source | iframe_embed
| wistia | vimeo | youtube | direct_file.

#[global] Instance source_kind_eq_dec : EqDecision source_kind.
Proof. solve_decision. Defined.

Definition candidate : Type := source_kind * string.

(** ** The patterns, as written in the source *)

Definition wistia_patterns : list re :=
  [ Seq (lit "wistia_async_") (Group (Plus (Class alnum)));
    Seq (lit "//fast.wistia.")
      (Seq (Alt (lit "com") (lit "net"))
         (Seq (lit "/embed/")
            (Seq (Alt (lit "iframe") (lit "medias"))
               (Seq (Lit "/") (Group (Plus (Class alnum)))))));
    Seq (Lit (ascii_of_nat 34))
      (Seq (lit "hashedId")
         (Seq (Lit (ascii_of_nat 34))
            (Seq (Star (Class space))
               (Seq (Lit ":")
                  (Seq (Star (Class space))
                     (Seq (Lit (ascii_of_nat 34))
                        (Seq (Group (Plus (Class alnum)))
                           (Lit (ascii_of_nat 34))))))))) ].

Definition vimeo_patterns : list re :=
  [ Seq (lit "player.vimeo.com/video/") (Group (Plus (Class digit)));
    Seq (lit "vimeo.com/") (Group (Plus (Class digit))) ].

Definition youtube_patterns : list re :=
  [ Seq (lit "youtube.com/embed/") (Group (Plus (Class alnum_us_dash)));
    Seq (lit "youtube.com/watch?v=") (Group (Plus (Class alnum_us_dash)));
    Seq (lit "youtu.be/") (Group (Plus (Class alnum_us_dash))) ].

Definition video_file_pattern : re :=
  Group (Seq (lit "http")
    (Seq (Opt (Lit "s"))
      (Seq (lit "://")
        (Seq (Plus (Class url_char))
          (Seq (Lit ".")
            (Seq (Alt (lit "mp4") (Alt (lit "m3u8") (lit "webm")))
              (Opt (Seq (Lit "?") (Star (Class url_char)))))))))).

Definition video_hosts : list string :=
  ["vimeo"; "youtube"; "wistia"; "vidyard"; "brightcove"; "loom"].

Definition wistia_url (vid_id : string) : string :=
  "https://fast.wistia.net/embed/iframe/" ++ vid_id.
Definition vimeo_url (vid_id : string) : string :=
  "https://player.vimeo.com/video/" ++ vid_id.
Definition youtube_url (vid_id : string) : string :=
  "https://www.youtube.com/watch?v=" ++ vid_id.

(** The two [replace] calls of method 6: the six characters
    backslash-u-0-0-2-F, then backslash-slash, both become a slash. *)
Definition backslash : string := String (ascii_of_nat 92) EmptyString.
Definition unescape_slashes (url : string) : string :=
  Str.replace (backslash ++ "/") "/"
    (Str.replace (backslash ++ "u002F") "/" url).

(** ** extract_video_urls *)

Section Extractor.
Context {RT : Runtime}.

(** Method 1, the body of the loop over one [<video>] tag. *)
Definition video_candidates (base_url : string) (video : node)
  : list candidate :=
  let src := get video "src" in
  ((if truthy src
    then [(video_element, urljoin base_url (default "" src))] else [])
   ++ flat_map (fun source =>
        let src := get source "src" in
        if truthy src
        then [(video_source, urljoin base_url (default "" src))] else [])
      (find_all video "source"))%list.

Definition method1 (soup : list node) (base_url : string)
  : list candidate :=
  flat_map (video_candidates base_url) (soup_find_all soup "video").

(** Method 2, the body of the loop over one [<iframe>] tag. *)
Definition iframe_candidates (iframe : node) : list candidate :=
  let src := py_or (get iframe "src") (get iframe "data-src") in
  if truthy src then
    if Str.any_in video_hosts (Str.lower (default "" src))
    then [(iframe_embed, default "" src)] else []
  else [].

Definition method2 (soup : list node) : list candidate :=
  flat_map iframe_candidates (soup_find_all soup "iframe").

(** Methods 3 to 5: for each pattern, walk the set of its matches. *)
Definition pattern_candidates (kind : source_kind)
           (mk_url : string → string) (patterns : list re) (html : string)
  : list candidate :=
  flat_map (fun pattern =>
              map (fun vid_id => (kind, mk_url vid_id))
                  (set_iter (findall false pattern html)))
           patterns.

Definition method3 (html : string) : list candidate :=
  pattern_candidates wistia wistia_url wistia_patterns html.
Definition method4 (html : string) : list candidate :=
  pattern_candidates vimeo vimeo_url vimeo_patterns html.
Definition method5 (html : string) : list candidate :=
  pattern_candidates youtube youtube_url youtube_patterns html.

(** Method 6 *)
Definition method6 (html : string) : list candidate :=
  map (fun url => (direct_file, unescape_slashes url))
      (set_iter (findall true video_file_pattern html)).

(** The list [video_urls] as it stands when the deduplication starts. *)
Definition collect (html base_url : string) : list candidate :=
  let soup := html_parser html in
  (method1 soup base_url ++ method2 soup ++ method3 html
   ++ method4 html ++ method5 html ++ method6 html)%list.

(** One turn of the deduplication loop on the state [(seen, unique_urls)]. *)
Definition dedup_step (st : gset string * list candidate) (c : candidate)
  : gset string * list candidate :=
  let '(seen, unique_urls) := st in
  let '(source_type, url) := c in
  if decide (url ∈ seen) then (seen, unique_urls)
  else ({[url]} ∪ seen, (unique_urls ++ [(source_type, url)])%list).

Definition dedup (video_urls : list candidate) : list candidate :=
  snd (foldl dedup_step (∅, []) video_urls).

Definition extract_video_urls (html base_url : string) : list candidate :=
  dedup (collect html base_url).

End Extractor.

(** ** The outside world

    Console output is kept as one constructor per [print] statement of the
    source, carrying the data the statement formats. *)

Inductive output : Type :=
| OutBanner (url70 output_dir : string)
| OutDirectDetected
| OutAttempting (url70 : string)
| OutYtSuccess
| OutYtLine (line : string)
| OutDirectTo (output_path : string)
| OutProgress (downloaded : nat) (total : Z)
| OutDirectSuccess (output_path : string)
| OutDirectFailed (e : string)
| OutFailedToDownload
| OutStep1
| OutYtCouldNot
| OutStep2
| OutFetched (n : nat)
| OutFetchError (e : string)
| OutSpa
| OutStep3
| OutFound (n : nat)
| OutTrying (source_type : source_kind) (url60 : string)
| OutDownloaded
| OutManual (url80 : string).

(** A response of [requests.get]: [chunks] is what [iter_content] yields
    and [stream_error] the exception that ends the stream early, if any. *)
Record response : Type := {
  status_code : nat;
  content_length : option string;
  text : string;
  chunks : list string;
  stream_error : option string
}.

Inductive http_reply : Type :=
| ConnError (e : string)
| Reply (r : response).

(** What the script does to the outside world, in order.  A call of a
    collaborator is recorded together with what it answered. *)
Inductive event : Type :=
| EvEnsureDependencies
| EvPrint (o : output)
| EvMakedirs (dir : string)
| EvRun (cmd : list string) (res : Z * string)
| EvGet (url : string) (headers : list (string * string))
        (stream : bool) (timeout : nat) (reply : http_reply)
| EvOpen (path : string)
| EvWrite (path chunk : string)
| EvExit (code : Z).

(** The collaborators of the script.  Each oracle sees the trace of what
    happened before the call, so that the same request may be answered
    differently at different times. *)
Class World : Type := {
  (** [subprocess.run(cmd, capture_output=True, text=True)]: the return
      code and the captured standard output *)
  subprocess_result : list event → list string → Z * string;
  (** [requests.get] *)
  http_result : list event → string → http_reply
}.

Record state : Type := {
  trace : list event;
  fs : gmap string string
}.

Inductive result (A : Type) : Type :=
| Ok (a : A)
| Raise (e : string).
Arguments Ok {A} a.
Arguments Raise {A} e.

(** Computations that read and extend the state and may raise. *)
Definition M (A : Type) : Type := state → result A * state.

Definition ret {A} (a : A) : M A := fun st => (Ok a, st).
Definition raise {A} (e : string) : M A := fun st => (Raise e, st).
Definition bind {A B} (m : M A) (f : A → M B) : M B :=
  fun st =>
    match m st with
    | (Ok a, st') => f a st'
    | (Raise e, st') => (Raise e, st')
    end.
(** [try: m  except Exception as e: h e] *)
Definition try_except {A} (m : M A) (h : string → M A) : M A :=
  fun st =>
    match m st with
    | (Ok a, st') => (Ok a, st')
    | (Raise e, st') => h e st'
    end.

Declare Scope m_scope.
Delimit Scope m_scope with M.
Notation "'let*' x ':=' m 'in' k" := (bind m (fun x => k))
  (at level 10, x name, m at level 100, k at level 200) : m_scope.
Notation "m ;; k" := (bind m (fun _ => k))
  (at level 100, k at level 200, right associativity) : m_scope.
#[local] Open Scope m_scope.

Definition emit (e : event) : M unit :=
  fun st => (Ok tt, {| trace := (trace st ++ [e])%list; fs := fs st |}).
Definition print (o : output) : M unit := emit (EvPrint o).
Definition get_trace : M (list event) := fun st => (Ok (trace st), st).

(** [open(path, 'wb')]: the file exists and is empty from here on. *)
Definition file_open (path : string) : M unit :=
  fun st => (Ok tt, {| trace := (trace st ++ [EvOpen path])%list;
                       fs := <[path := ""]> (fs st) |}).
(** [f.write(chunk)] *)
Definition file_write (path chunk : string) : M unit :=
  fun st => (Ok tt, {| trace := (trace st ++ [EvWrite path chunk])%list;
                       fs := <[path := default "" (fs st !! path) ++ chunk]>
                               (fs st) |}).

(** ** The program *)

Section Program.
Context {RT : Runtime} {W : World}.

Definition ensure_dependencies : M unit := emit EvEnsureDependencies.

(** [requests.get(url, headers=..., stream=..., timeout=...)] *)
Definition requests_get (url : string) (headers : list (string * string))
           (stream : bool) (timeout : nat) : M response :=
  let* tr := get_trace in
  let reply := http_result tr url in
  emit (EvGet url headers stream timeout reply);;
  match reply with
  | ConnError e => raise e
  | Reply r => ret r
  end.

(** [response.raise_for_status()] of the requests library: an
    [HTTPError] exactly for the client and server error codes. *)
Definition raise_for_status (r : response) : M unit :=
  if ((400 <=? status_code r) && (status_code r <? 600))%nat
  then raise "HTTPError" else ret tt.

Definition fetch_headers : list (string * string) :=
  [("User-Agent",
    "Mozilla/5.0 (Windows NT 10.0; Win64; x64) " ++
    "AppleWebKit/537.36 (KHTML, like Gecko) Chrome/120.0.0.0 Safari/537.36");
   ("Accept",
    "text/html,application/xhtml+xml,application/xml;q=0.9,image/webp,*/*;q=0.8");
   ("Accept-Language", "en-US,en;q=0.5")].

Definition fetch_page (url : string) : M string :=
  let* response := requests_get url fetch_headers false 30 in
  raise_for_status response;;
  ret (text response).

(** [subprocess.run(cmd, capture_output=True, text=True)] *)
Definition subprocess_run (cmd : list string) : M (Z * string) :=
  let* tr := get_trace in
  let res := subprocess_result tr cmd in
  emit (EvRun cmd res);;
  ret res.

Fixpoint show_lines (lines : list string) : M unit :=
  match lines with
  | [] => ret tt
  | line :: rest =>
      (if Str.contains "Destination:" line || Str.contains "Merging" line
       then print (OutYtLine (Str.strip line))
       else if Str.contains "has already been downloaded" line
       then print (OutYtLine (Str.strip line))
       else ret tt);;
      show_lines rest
  end.

Definition download_with_yt_dlp (video_url output_dir : string)
           (verbose : bool) : M bool :=
  emit (EvMakedirs output_dir);;
  let cmd :=
    (["yt-dlp"; "--no-check-certificate"; "--no-playlist";
      "-o"; Str.path_join output_dir "%(title)s.%(ext)s"]
     ++ (if verbose then ["--verbose"] else [])
     ++ [video_url])%list in
  print (OutAttempting (Str.take 70 video_url));;
  let* res := subprocess_run cmd in
  if (fst res =? 0)%Z then
    print OutYtSuccess;;
    show_lines (Str.split_on Str.newline "" (snd res));;
    ret true
  else ret false.

(** The body of [for chunk in response.iter_content(...)]. *)
Fixpoint write_chunks (output_path : string) (total : Z) (downloaded : nat)
         (cs : list string) : M unit :=
  match cs with
  | [] => ret tt
  | chunk :: rest =>
      file_write output_path chunk;;
      let downloaded := downloaded + String.length chunk in
      (if (total =? 0)%Z then ret tt
       else print (OutProgress downloaded total));;
      write_chunks output_path total downloaded rest
  end.

Definition download_direct (video_url output_dir : string) : M bool :=
  emit (EvMakedirs output_dir);;
  let filename := Str.basename (url_path video_url) in
  let filename :=
    if String.eqb filename "" || negb (Str.contains "." filename)
    then "video.mp4" else filename in
  let output_path := Str.path_join output_dir filename in
  print (OutDirectTo output_path);;
  try_except
    (let* response := requests_get video_url
        [("User-Agent",
          "Mozilla/5.0 (Windows NT 10.0; Win64; x64) AppleWebKit/537.36")]
        true 60 in
     raise_for_status response;;
     let* total := match content_length response with
             | None => ret 0%Z
             | Some v => match Str.py_int v with
                         | Some n => ret n
                         | None => raise "ValueError"
                         end
             end in
     file_open output_path;;
     write_chunks output_path total 0 (chunks response);;
     match stream_error response with
     | Some e => raise e
     | None => ret tt
     end;;
     print (OutDirectSuccess output_path);;
     ret true)
    (fun e => print (OutDirectFailed e);; ret false).

Definition print_manual_instructions (page_url : string) : M unit :=
  print (OutManual (Str.take 80 page_url)).

(** The loop over the candidates; [true] is the [return True] from
    inside the loop, [false] is falling out of it. *)
Fixpoint try_candidates (output_dir : string) (video_urls : list candidate)
  : M bool :=
  match video_urls with
  | [] => ret false
  | (source_type, vid_url) :: rest =>
      print (OutTrying source_type (Str.take 60 vid_url));;
      let* ok := download_with_yt_dlp vid_url output_dir false in
      if ok then print OutDownloaded;; ret true
      else if Str.contains ".mp4" (Str.lower vid_url)
              || Str.contains ".webm" (Str.lower vid_url)
      then
        let* ok := download_direct vid_url output_dir in
        if ok then print OutDownloaded;; ret true
        else try_candidates output_dir rest
      else try_candidates output_dir rest
  end.

Definition download_video (url output_dir : string) : M bool :=
  ensure_dependencies;;
  print (OutBanner (Str.take 70 url) output_dir);;
  if is_direct_video_url url then
    print OutDirectDetected;;
    let* ok := download_with_yt_dlp url output_dir true in
    if ok then ret true
    else
      let* ok := (if Str.any_in [".mp4"; ".webm"; ".mov"] (Str.lower url)
            then download_direct url output_dir else ret false) in
      if ok then ret true
      else print OutFailedToDownload;; ret false
  else
    print OutStep1;;
    let* ok := download_with_yt_dlp url output_dir false in
    if ok then ret true
    else
      print OutYtCouldNot;;
      print OutStep2;;
      let* fetched := try_except
                  (let* html := fetch_page url in
                   print (OutFetched (String.length html));;
                   ret (Some html))
                  (fun e =>
                     print (OutFetchError e);;
                     print_manual_instructions url;;
                     ret None) in
      match fetched with
      | None => ret false
      | Some html =>
          (if (String.length html <? 5000)%nat
              && Str.contains "<script" html
           then print OutSpa else ret tt);;
          print OutStep3;;
          let video_urls := extract_video_urls html url in
          let* done := match video_urls with
                 | [] => ret false
                 | _ =>
                     print (OutFound (List.length video_urls));;
                     try_candidates output_dir video_urls
                 end in
          if done then ret true
          else print_manual_instructions url;; ret false
      end.

Definition DEFAULT_URL : string :=
  "https://secure.brownstoneresearch.com/" ++
  "?cid=MKT859575" ++
  "&eid=MKT859927" ++
  "&encryptedSnaid=MWYxZGFhYjQyNGQxY2JhMRo9cEfps5Yycq6FQgdqk9o%3D" ++
  "&step=start" ++
  "&emailjobid=5668545" ++
  "&emailname=260128-Hotlist-BES-Biotech-Encore-9PM-Ded" ++
  "&assetId=AST387211" ++
  "&page=1".

(** The [__main__] block; an exception that reaches the top level ends
    the process with status 1 as well. *)
Definition main (argv : list string) : M unit :=
  let target_url :=
    if (1 <? List.length argv)%nat then default "" (argv !! 1)
    else DEFAULT_URL in
  let output_directory := "./downloads" in
  try_except
    (let* success := download_video target_url output_directory in
     emit (EvExit (if success then 0 else 1)%Z))
    (fun _ => emit (EvExit 1%Z)).

End Program.

Definition initial_state : state := {| trace := []; fs := ∅ |}.

(** The status the process ends with: the last [EvExit] of the trace. *)
Definition exit_code (st : state) : option Z :=
  last (omap (fun e => match e with EvExit c => Some c | _ => None end)
             (trace st)).

(** ** Concrete environments

    Small instances of the two environments, on which the program can be
    run. *)

(** Two ways of walking a set: members in the order of their last
    insertion, and the same backwards. *)
Definition walk_forward (l : list string) : list string := remove_dups l.
Definition walk_backward (l : list string) : list string :=
  reverse (remove_dups l).

(** [urljoin] on the inputs of the examples: an absolute reference is
    returned as it is, a file name replaces the last segment of the base. *)
Fixpoint up_to_last_slash (cur acc s : string) : string :=
  match s with
  | EmptyString => acc
  | String c r =>
      let cur' := cur ++ String c EmptyString in
      if Ascii.eqb c "/" then up_to_last_slash cur' cur' r
      else up_to_last_slash cur' acc r
  end.
Definition simple_urljoin (base url : string) : string :=
  if Str.contains "://" url then url
  else up_to_last_slash "" "" base ++ url.

(** [urlparse(url).path] on the inputs of the examples: what follows the
    host, up to the query. *)
Fixpoint until_char (stop : ascii) (s : string) : string :=
  match s with
  | EmptyString => EmptyString
  | String c r => if Ascii.eqb c stop then EmptyString
                  else String c (until_char stop r)
  end.
Fixpoint from_char (stop : ascii) (s : string) : string :=
  match s with
  | EmptyString => EmptyString
  | String c r => if Ascii.eqb c stop then s else from_char stop r
  end.
Definition simple_url_path (url : string) : string :=
  let after_scheme :=
    match from_char ":" url with
    | String _ (String _ (String _ r)) => r
    | _ => url
    end in
  until_char "?" (from_char "/" after_scheme).

Definition page_two_wistia : string :=
  "<video src='a.mp4'></video>" ++
  "<script>wistia_async_abc123</script>" ++
  "<script>wistia_async_def456</script>".
Definition video_a : node := Tag "video" {["src" := "a.mp4"]} [].
Definition soup_two_wistia : list node :=
  [video_a; Tag "script" ∅ []; Tag "script" ∅ []].

Definition page_lazy_iframe : string :=
  "<iframe src='' data-src='https://player.vimeo.com/video/123'></iframe>".
Definition soup_lazy_iframe : list node :=
  [Tag "iframe"
     (<["src" := ""]> {["data-src" := "https://player.vimeo.com/video/123"]})
     []].

Definition page_source_first : string :=
  "<video><source src='a.mp4'></video>" ++
  "<video src='a.mp4'></video>" ++
  "<script>wistia_async_abc123</script>".
Definition soup_source_first : list node :=
  [Tag "video" ∅ [Tag "source" {["src" := "a.mp4"]} []];
   video_a; Tag "script" ∅ []].

(** A lazy-loading placeholder: the player address waits in [data-src]. *)
Definition iframe_placeholder : node :=
  Tag "iframe"
    (<["src" := "about:blank"]>
       {["data-src" := "https://play.vidyard.com/embed/9"]}) [].

(** The trees [html.parser] builds for the example pages. *)
Definition example_parser (html : string) : list node :=
  if String.eqb html page_two_wistia then soup_two_wistia
  else if String.eqb html page_lazy_iframe then soup_lazy_iframe
  else if String.eqb html page_source_first then soup_source_first
  else [].

Definition runtime_forward : Runtime :=
  {| html_parser := example_parser; urljoin := simple_urljoin;
     url_path := simple_url_path; set_iter := walk_forward |}.
Definition runtime_backward : Runtime :=
  {| html_parser := example_parser; urljoin := simple_urljoin;
     url_path := simple_url_path; set_iter := walk_backward |}.

(** A world whose answers do not depend on the past. *)
Definition fixed_world (yt : list string → Z * string)
           (web : string → http_reply) : World :=
  {| subprocess_result := fun _ cmd => yt cmd;
     http_result := fun _ url => web url |}.

(** Nothing works: yt-dlp exits with 1, no server answers. *)
Definition world_offline : World :=
  fixed_world (fun _ => (1%Z, "")) (fun _ => ConnError "ConnectionError").

(** yt-dlp fails; the server answers every request with the given
    response. *)
Definition world_serving (r : response) : World :=
  fixed_world (fun _ => (1%Z, "")) (fun _ => Reply r).

(** yt-dlp succeeds exactly on the command lines that end in [url]. *)
Definition world_yt_knows (url : string) (web : string → http_reply)
  : World :=
  fixed_world (fun cmd => if decide (last cmd = Some url)
                          then (0%Z, "[download] Destination: video.mp4")
                          else (1%Z, ""))
              web.

Definition not_modified : response :=
  {| status_code := 304; content_length := None; text := "cached";
     chunks := []; stream_error := None |}.

Definition broken_stream : response :=
  {| status_code := 200; content_length := Some "1000"; text := "";
     chunks := ["abc"; "def"]; stream_error := Some "ConnectionResetError" |}.

(** ** Specification-side definitions *)

(** Following the specification of the candidate list: walking the list
    from the front, an entry is kept exactly when none of the entries before
    it has its URL.  [earlier] holds the URLs met so far. *)
Fixpoint keep_first (earlier : list string) (l : list candidate)
  : list candidate :=
  match l with
  | [] => []
  | c :: r =>
      if decide (c.2 ∈ earlier) then keep_first (earlier ++ [c.2])%list r
      else c :: keep_first (earlier ++ [c.2])%list r
  end.

Definition first_occurrences (l : list candidate) : list candidate :=
  keep_first [] l.

(** The position of a source kind in the order of the discovery methods. *)
Definition method_rank (k : source_kind) : nat :=
  match k with
  | video_element | video_source => 1
  | iframe_embed => 2
  | wistia => 3
  | vimeo => 4
  | youtube => 5
  | direct_file => 6
  end.

Definition rank_le (c d : candidate) : Prop :=
  (method_rank c.1 ≤ method_rank d.1)%nat.

(** Two collected lists that deduplication cannot tell apart: the same
    URLs, and from any set of earlier URLs the same entries are kept. *)
Definition same_first_entries (l l' : list candidate) : Prop :=
  (∀ u, u ∈ l.*2 ↔ u ∈ l'.*2)
  ∧ ∀ earlier c, c ∈ keep_first earlier l ↔ c ∈ keep_first earlier l'.

(** The determinism claim across interpreter runs: two runs that agree on
    the libraries give the same list, however each walks its sets. *)
Definition walk_independent : Prop :=
  ∀ RT RT' : Runtime,
    set_iter_ok RT → set_iter_ok RT' →
    @html_parser RT = @html_parser RT' → @urljoin RT = @urljoin RT' →
    ∀ html base_url,
      @extract_video_urls RT html base_url
      = @extract_video_urls RT' html base_url.

(** ** Reading traces *)

(** The calls of the two download strategies and of the page fetch. *)
Definition is_call (e : event) : bool :=
  match e with
  | EvRun _ _ | EvGet _ _ _ _ _ => true
  | _ => false
  end.
Definition calls (evs : list event) : list event :=
  List.filter is_call evs.

(** The page fetch is the only request made without streaming. *)
Definition is_page_fetch (e : event) : bool :=
  match e with
  | EvGet _ _ false _ _ => true
  | _ => false
  end.

Definition is_manual (e : event) : bool :=
  match e with
  | EvPrint (OutManual _) => true
  | _ => false
  end.

(** Events of a download strategy: no page fetch, no manual instructions,
    no exit. *)
Definition strategy_event (e : event) : bool :=
  negb (is_page_fetch e) && negb (is_manual e)
  && match e with EvExit _ => false | _ => true end.

(** The command line of [download_with_yt_dlp]. *)
Definition yt_cmd (video_url output_dir : string) (verbose : bool)
  : list string :=
  (["yt-dlp"; "--no-check-certificate"; "--no-playlist";
    "-o"; Str.path_join output_dir "%(title)s.%(ext)s"]
   ++ (if verbose then ["--verbose"] else [])
   ++ [video_url])%list.

Definition direct_headers : list (string * string) :=
  [("User-Agent",
    "Mozilla/5.0 (Windows NT 10.0; Win64; x64) AppleWebKit/537.36")].

(** The candidate URL has [.mp4] or [.webm] in it. *)
Definition wants_direct (vid_url : string) : bool :=
  Str.contains ".mp4" (Str.lower vid_url)
  || Str.contains ".webm" (Str.lower vid_url).

(** A reply that [raise_for_status] lets through. *)
Definition status_passes (r : response) : bool :=
  negb ((400 <=? status_code r) && (status_code r <? 600))%nat.

(** A reply on which [fetch_page] raises. *)
Definition fetch_fails (reply : http_reply) : bool :=
  match reply with
  | ConnError _ => true
  | Reply r => negb (status_passes r)
  end.

(** The [Content-Length] header, when present, is a number [int]
    accepts. *)
Definition length_parses (r : response) : bool :=
  match content_length r with
  | None => true
  | Some v => bool_decide (is_Some (Str.py_int v))
  end.

(** A reply after which [download_direct] opens the output file. *)
Definition file_opened (reply : http_reply) : bool :=
  match reply with
  | ConnError _ => false
  | Reply r => status_passes r && length_parses r
  end.

(** A reply on which [download_direct] returns [True]. *)
Definition direct_succeeds (reply : http_reply) : bool :=
  match reply with
  | ConnError _ => false
  | Reply r =>
      status_passes r && length_parses r
      && bool_decide (stream_error r = None)
  end.

(** The chunks the server delivered before the stream ended. *)
Definition delivered (reply : http_reply) : list string :=
  match reply with
  | ConnError _ => []
  | Reply r => chunks r
  end.

(** The file [download_direct] writes to. *)
Definition direct_output_path `{RT : Runtime} (video_url output_dir : string)
  : string :=
  let filename := Str.basename (url_path video_url) in
  Str.path_join output_dir
    (if String.eqb filename "" || negb (Str.contains "." filename)
     then "video.mp4" else filename).

(** [runs m st r evs fs']: started in [st], the computation [m] ends with
    [r], having added the events [evs] to the trace and left the files
    [fs']. *)
Definition runs {A} (m : M A) (st : state) (r : result A)
           (evs : list event) (fs' : gmap string string) : Prop :=
  m st = (r, {| trace := (trace st ++ evs)%list; fs := fs' |}).

(** The bytes of a sequence of chunks, in order. *)
Fixpoint join_chunks (cs : list string) : string :=
  match cs with
  | [] => EmptyString
  | c :: r => c ++ join_chunks r
  end.

(** The calls the candidate loop may make, candidate by candidate, and
    the value it ends with: yt-dlp first; the direct download only after a
    yt-dlp failure on a URL with [.mp4] or [.webm]; nothing after the first
    success. *)
Inductive loop_calls (output_dir : string)
  : list candidate → list event → bool → Prop :=
| loop_done :
    loop_calls output_dir [] [] false
| loop_yt_ok kind url rest res :
    fst res = 0%Z →
    loop_calls output_dir ((kind, url) :: rest)
      [EvRun (yt_cmd url output_dir false) res] true
| loop_yt_only kind url rest res later b :
    fst res ≠ 0%Z → wants_direct url = false →
    loop_calls output_dir rest later b →
    loop_calls output_dir ((kind, url) :: rest)
      (EvRun (yt_cmd url output_dir false) res :: later) b
| loop_direct_ok kind url rest res reply :
    fst res ≠ 0%Z → wants_direct url = true →
    direct_succeeds reply = true →
    loop_calls output_dir ((kind, url) :: rest)
      [EvRun (yt_cmd url output_dir false) res;
       EvGet url direct_headers true 60 reply] true
| loop_direct_failed kind url rest res reply later b :
    fst res ≠ 0%Z → wants_direct url = true →
    direct_succeeds reply = false →
    loop_calls output_dir rest later b →
    loop_calls output_dir ((kind, url) :: rest)
      (EvRun (yt_cmd url output_dir false) res
       :: EvGet url direct_headers true 60 reply :: later) b.

(** ** The shape of a run of [download_video] *)

Definition opening (url output_dir : string) : list event :=
  [EvEnsureDependencies; EvPrint (OutBanner (Str.take 70 url) output_dir)].

(** The events up to and including the page fetch. *)
Definition fetching (url : string) (reply : http_reply) : list event :=
  [EvPrint OutYtCouldNot; EvPrint OutStep2;
   EvGet url fetch_headers false 30 reply].

(** What the exception of a failed fetch says. *)
Definition fetch_error (reply : http_reply) : string :=
  match reply with
  | ConnError e => e
  | Reply _ => "HTTPError"
  end.

(** The paths through [download_video], as the events they leave and the
    value they return.  [evsS], [evsY] and [evsL] stand for the events of
    download strategies and of the progress messages around them. *)
Definition video_run_shape `{W : World} (url output_dir : string)
           (st : state) (b : bool) (evs : list event)
           (fs' : gmap string string) : Prop :=
  if is_direct_video_url url then
    ∃ evsS,
      forallb strategy_event evsS = true
      ∧ evs = (opening url output_dir ++ [EvPrint OutDirectDetected] ++ evsS
               ++ (if b then [] else [EvPrint OutFailedToDownload]))%list
  else
    ∃ evsY,
      forallb strategy_event evsY = true
      ∧ ((b = true
          ∧ evs = (opening url output_dir ++ [EvPrint OutStep1] ++ evsY)%list)
         ∨ ∃ reply,
             (fetch_fails reply = true ∧ b = false
              ∧ evs = (opening url output_dir ++ [EvPrint OutStep1] ++ evsY
                       ++ fetching url reply
                       ++ [EvPrint (OutFetchError (fetch_error reply));
                           EvPrint (OutManual (Str.take 80 url))])%list
              ∧ ∀ RT' : Runtime,
                  runs (@download_video RT' W url output_dir) st
                       (Ok false) evs fs')
             ∨ (fetch_fails reply = false
                ∧ ∃ evsL,
                    forallb strategy_event evsL = true
                    ∧ evs = (opening url output_dir ++ [EvPrint OutStep1]
                             ++ evsY ++ fetching url reply ++ evsL
                             ++ (if b then []
                                 else [EvPrint
                                         (OutManual (Str.take 80 url))]))%list)).

(** Where each returned candidate comes from, by its kind. *)
Definition found_by `{RT : Runtime} (html base_url : string)
           (k : source_kind) (u : string) : Prop :=
  match k with
  | video_element =>
      ∃ video src,
        video ∈ soup_find_all (html_parser html) "video"
        ∧ get video "src" = Some src ∧ src ≠ "" ∧ u = urljoin base_url src
  | video_source =>
      ∃ video source src,
        video ∈ soup_find_all (html_parser html) "video"
        ∧ source ∈ find_all video "source"
        ∧ get source "src" = Some src ∧ src ≠ "" ∧ u = urljoin base_url src
  | iframe_embed =>
      ∃ iframe,
        iframe ∈ soup_find_all (html_parser html) "iframe"
        ∧ (get iframe "src" = Some u
           ∨ truthy (get iframe "src") = false
             ∧ get iframe "data-src" = Some u)
        ∧ u ≠ "" ∧ Str.any_in video_hosts (Str.lower u) = true
  | wistia =>
      ∃ p vid_id, p ∈ wistia_patterns ∧ vid_id ∈ findall false p html
                  ∧ u = wistia_url vid_id
  | vimeo =>
      ∃ p vid_id, p ∈ vimeo_patterns ∧ vid_id ∈ findall false p html
                  ∧ u = vimeo_url vid_id
  | youtube =>
      ∃ p vid_id, p ∈ youtube_patterns ∧ vid_id ∈ findall false p html
                  ∧ u = youtube_url vid_id
  | direct_file =>
      ∃ m, m ∈ findall true video_file_pattern html
           ∧ u = unescape_slashes m
  end.

(** ** What a match of a regular expression is

    [consumes ic r s cap s' cap']: the expression [r] matches the text that
    [s] has in front of [s'], turning the capture [cap] into [cap']. *)
Inductive consumes (ic : bool)
  : re → string → option string → string → option string → Prop :=
| consumes_eps s cap :
    consumes ic Eps s cap s cap
| consumes_lit c d s cap :
    lit_eq ic c d = true → consumes ic (Lit c) (String d s) cap s cap
| consumes_class p d s cap :
    p d = true → consumes ic (Class p) (String d s) cap s cap
| consumes_seq a b s cap s1 cap1 s2 cap2 :
    consumes ic a s cap s1 cap1 → consumes ic b s1 cap1 s2 cap2 →
    consumes ic (Seq a b) s cap s2 cap2
| consumes_alt_l a b s cap s' cap' :
    consumes ic a s cap s' cap' → consumes ic (Alt a b) s cap s' cap'
| consumes_alt_r a b s cap s' cap' :
    consumes ic b s cap s' cap' → consumes ic (Alt a b) s cap s' cap'
| consumes_star_stop a s cap :
    consumes ic (Star a) s cap s cap
| consumes_star_more a s cap s1 cap1 s2 cap2 :
    consumes ic a s cap s1 cap1 → consumes ic (Star a) s1 cap1 s2 cap2 →
    consumes ic (Star a) s cap s2 cap2
| consumes_group a s cap s' cap' :
    consumes ic a s cap s' cap' →
    consumes ic (Group a) s cap s'
      (Some (Str.take (String.length s - String.length s') s)).

(** Every character of [s] is in the class [p]. *)
Fixpoint all_chars (p : ascii → bool) (s : string) : bool :=
  match s with
  | EmptyString => true
  | String c r => p c && all_chars p r
  end.

(** Every group of the expression is [([p]+)]. *)
Fixpoint groups_are (p : ascii → bool) (r : re) : Prop :=
  match r with
  | Group a => a = Plus (Class p)
  | Seq a b | Alt a b => groups_are p a ∧ groups_are p b
  | Star a => groups_are p a
  | Eps | Lit _ | Class _ => True
  end.

(** Every way of matching the expression goes through a group. *)
Fixpoint must_capture (r : re) : bool :=
  match r with
  | Group _ => true
  | Seq a b => must_capture a || must_capture b
  | Alt a b => must_capture a && must_capture b
  | Eps | Lit _ | Class _ | Star _ => false
  end.

(** An identifier: not empty, all characters in the class. *)
Definition well_formed_id (p : ascii → bool) (vid_id : string) : Prop :=
  vid_id ≠ "" ∧ all_chars p vid_id = true.

Definition good_capture (p : ascii → bool) (cap : option string) : Prop :=
  ∃ g, cap = Some g ∧ well_formed_id p g.

(** The marker texts of the patterns that are a fixed text followed by an
    identifier, with the class of the identifier, the kind and the URL
    built from it. *)
Inductive marker : Type :=
| Marker (prefix : string) (class : ascii → bool) (kind : source_kind)
         (mk_url : string → string).

Definition marker_pattern (m : marker) : re :=
  match m with
  | Marker prefix class _ _ => Seq (lit prefix) (Group (Plus (Class class)))
  end.

Definition simple_markers : list marker :=
  [Marker "wistia_async_" alnum wistia wistia_url;
   Marker "player.vimeo.com/video/" digit vimeo vimeo_url;
   Marker "vimeo.com/" digit vimeo vimeo_url;
   Marker "youtube.com/embed/" alnum_us_dash youtube youtube_url;
   Marker "youtube.com/watch?v=" alnum_us_dash youtube youtube_url;
   Marker "youtu.be/" alnum_us_dash youtube youtube_url].

(** The text has no occurrence of the character [c0]. *)
Definition free_of (c0 : ascii) (s : string) : bool :=
  all_chars (λ c, negb (Ascii.eqb c c0)) s.


(** The file name [download_direct] settles on. *)
Definition direct_filename `{RT : Runtime} (video_url : string) : string :=
  let filename := Str.basename (url_path video_url) in
  if String.eqb filename "" || negb (Str.contains "." filename)
  then "video.mp4" else filename.

Definition is_write (e : event) : bool :=
  match e with EvWrite _ _ => true | _ => false end.

Definition whole_stream : response :=
  {| status_code := 200; content_length := None; text := "";
     chunks := ["abc"; "def"; "g"]; stream_error := None |}.

Definition not_found : response :=
  {| status_code := 404; content_length := None; text := "Not Found";
     chunks := ["Not Found"]; stream_error := None |}.

(** ** The calls of a whole run *)

(** The calls one run of [download_video] makes, in order, and the value
    the run returns: yt-dlp on the URL itself first; for a direct video
    URL the streamed download after that, when the URL has [.mp4],
    [.webm] or [.mov] in it; for a page URL the page fetch and then the
    calls of the candidate loop. *)
Inductive video_calls `{RT : Runtime} (url output_dir : string)
  : list event → bool → Prop :=
| direct_yt_ok res :
    is_direct_video_url url = true → fst res = 0%Z →
    video_calls url output_dir
      [EvRun (yt_cmd url output_dir true) res] true
| direct_yt_only res :
    is_direct_video_url url = true → fst res ≠ 0%Z →
    Str.any_in [".mp4"; ".webm"; ".mov"] (Str.lower url) = false →
    video_calls url output_dir
      [EvRun (yt_cmd url output_dir true) res] false
| direct_streamed res reply :
    is_direct_video_url url = true → fst res ≠ 0%Z →
    Str.any_in [".mp4"; ".webm"; ".mov"] (Str.lower url) = true →
    video_calls url output_dir
      [EvRun (yt_cmd url output_dir true) res;
       EvGet url direct_headers true 60 reply] (direct_succeeds reply)
| page_yt_ok res :
    is_direct_video_url url = false → fst res = 0%Z →
    video_calls url output_dir
      [EvRun (yt_cmd url output_dir false) res] true
| page_fetch_failed res reply :
    is_direct_video_url url = false → fst res ≠ 0%Z →
    fetch_fails reply = true →
    video_calls url output_dir
      [EvRun (yt_cmd url output_dir false) res;
       EvGet url fetch_headers false 30 reply] false
| page_candidates res r later b :
    is_direct_video_url url = false → fst res ≠ 0%Z →
    status_passes r = true →
    loop_calls output_dir (extract_video_urls (text r) url) later b →
    video_calls url output_dir
      (EvRun (yt_cmd url output_dir false) res
       :: EvGet url fetch_headers false 30 (Reply r) :: later) b.

(** A call of a download strategy that went well: yt-dlp returned 0, or
    the streamed download ran to its end. *)
Definition succeeded (e : event) : bool :=
  match e with
  | EvRun _ res => (fst res =? 0)%Z
  | EvGet _ _ true _ reply => direct_succeeds reply
  | _ => false
  end.

(** The URL a yt-dlp command line ends with. *)
Definition yt_target (e : event) : option string :=
  match e with
  | EvRun cmd _ => last cmd
  | _ => None
  end.

(** A server that sends the page with the two Wistia markers and then
    loses the connection. *)
Definition page_then_reset : response :=
  {| status_code := 200; content_length := None; text := page_two_wistia;
     chunks := ["<video"]; stream_error := Some "ConnectionResetError" |}.

(* ================================================================= *)
(** * Properties *)

#[local] Open Scope list_scope.

(** ** Strings *)

Lemma starts_with_spec p s :
  Str.starts_with p s = true ↔ ∃ r, s = (p ++ r)%string.
Proof.
  revert s. induction p as [|a p IH]; intros s; simpl.
  - split; [intros _; by exists s | done].
  - destruct s as [|b s]; simpl.
    + split; [done | intros [r Hr]; discriminate].
    + rewrite andb_true_iff, Ascii.eqb_eq, IH. split.
      * intros [-> [r ->]]. by exists r.
      * intros [r Hr]. injection Hr as -> ->. eauto.
Qed.

Lemma contains_spec needle hay :
  Str.contains needle hay = true ↔ ∃ pre post, hay = (pre ++ needle ++ post)%string.
Proof.
  induction hay as [|c hay IH]; simpl.
  - rewrite orb_false_r, starts_with_spec. split.
    + intros [r Hr]. by exists "", r.
    + intros [pre [post H]]. destruct pre; [by exists post | discriminate].
  - rewrite orb_true_iff, starts_with_spec, IH. split.
    + intros [[r Hr] | [pre [post Hr]]].
      * by exists "", r.
      * exists (String c pre), post. simpl. by rewrite Hr.
    + intros [pre [post Hr]]. destruct pre as [|d pre]; simpl in Hr.
      * left. by exists post.
      * right. injection Hr as -> ->. by exists pre, post.
Qed.

(** ** The classifier *)

Lemma any_in_spec needles hay :
  Str.any_in needles hay = true ↔
  ∃ x, x ∈ needles ∧ ∃ pre post, hay = (pre ++ x ++ post)%string.
Proof.
  unfold Str.any_in. rewrite existsb_exists. split.
  - intros [x [Hx Hc]]. exists x. split; [by apply list_elem_of_In|].
    by apply contains_spec.
  - intros [x [Hx Hc]]. exists x. split; [by apply list_elem_of_In|].
    by apply contains_spec.
Qed.

(** C3: [is_direct_video_url] is a total boolean function, and it answers
    [true] exactly when the lowercased input contains one of the video file
    extensions or one of the video-hosting fragments of the source. *)
Theorem is_direct_video_url_iff (url : string) :
  (is_direct_video_url url = true ∨ is_direct_video_url url = false) ∧
  (is_direct_video_url url = true ↔
     (∃ ext, ext ∈ [".mp4"; ".webm"; ".m3u8"; ".mov"; ".avi"; ".mkv"; ".flv"]
             ∧ ∃ pre post, Str.lower url = (pre ++ ext ++ post)%string)
     ∨ (∃ service,
          service ∈ ["wistia.com"; "wistia.net"; "vimeo.com"; "youtube.com";
                     "youtu.be"; "vidyard.com"; "brightcove"; "jwplatform";
                     "loom.com"; "sproutvideo"]
          ∧ ∃ pre post, Str.lower url = (pre ++ service ++ post)%string)).
Proof.
  split; [destruct (is_direct_video_url url); auto|].
  unfold is_direct_video_url.
  change [".mp4"; ".webm"; ".m3u8"; ".mov"; ".avi"; ".mkv"; ".flv"]
    with video_extensions.
  change ["wistia.com"; "wistia.net"; "vimeo.com"; "youtube.com";
          "youtu.be"; "vidyard.com"; "brightcove"; "jwplatform";
          "loom.com"; "sproutvideo"] with video_services.
  rewrite <- !any_in_spec.
  destruct (Str.any_in video_extensions _), (Str.any_in video_services _);
    intuition congruence.
Qed.

Example classifier_upper_case :
  is_direct_video_url "https://FOO.COM/clip.MP4" = true.
Proof. reflexivity. Qed.

Example classifier_plain_page :
  is_direct_video_url "https://example.com/page" = false.
Proof. reflexivity. Qed.

(** The service fragments are the strings of the source: a host that only
    contains the bare service name is not recognised. *)
Example classifier_bloomberg :
  is_direct_video_url "https://bloomberg.com/news" = false.
Proof. reflexivity. Qed.

(** ** Deduplication *)

Lemma foldl_dedup_step l : ∀ seen acc earlier,
  (∀ u, u ∈ seen ↔ u ∈ earlier) →
  (foldl dedup_step (seen, acc) l).2 = (acc ++ keep_first earlier l)%list.
Proof.
  induction l as [|[t u] l IH]; intros seen acc earlier Hseen; simpl.
  - by rewrite app_nil_r.
  - destruct (decide (u ∈ seen)) as [Hin|Hnin].
    + rewrite decide_True by (by apply Hseen).
      apply IH. intros v. rewrite elem_of_app, list_elem_of_singleton.
      rewrite Hseen. naive_solver.
    + rewrite decide_False by (by rewrite <- Hseen).
      rewrite (IH _ _ (earlier ++ [u])%list).
      * by rewrite <- app_assoc.
      * intros v. rewrite elem_of_union, elem_of_singleton, elem_of_app,
          list_elem_of_singleton, Hseen. naive_solver.
Qed.

Lemma dedup_first_occurrences l : dedup l = first_occurrences l.
Proof.
  unfold dedup, first_occurrences.
  rewrite (foldl_dedup_step l ∅ [] []); [done|].
  intros u. rewrite elem_of_nil. set_solver.
Qed.

Lemma keep_first_sublist l : ∀ earlier, sublist (keep_first earlier l) l.
Proof.
  induction l as [|c l IH]; intros earlier; simpl; [constructor|].
  destruct (decide _); [apply sublist_cons | apply sublist_skip]; apply IH.
Qed.

Lemma keep_first_fresh l : ∀ earlier c,
  c ∈ keep_first earlier l → c.2 ∉ earlier.
Proof.
  induction l as [|d l IH]; intros earlier c; simpl; [by rewrite elem_of_nil|].
  destruct (decide (d.2 ∈ earlier)) as [Hin|Hnin].
  - intros Hc%IH. rewrite elem_of_app in Hc. tauto.
  - rewrite elem_of_cons. intros [->|Hc%IH]; [done|].
    rewrite elem_of_app in Hc. tauto.
Qed.

Lemma keep_first_NoDup l : ∀ earlier, NoDup (keep_first earlier l).*2.
Proof.
  induction l as [|d l IH]; intros earlier; simpl; [constructor|].
  destruct (decide (d.2 ∈ earlier)) as [Hin|Hnin]; [apply IH|].
  rewrite fmap_cons. constructor; [|apply IH].
  rewrite list_elem_of_fmap. intros [c [Heq Hc%keep_first_fresh]].
  apply Hc. rewrite elem_of_app, list_elem_of_singleton. by right.
Qed.

Lemma keep_first_complete l : ∀ earlier u,
  u ∈ l.*2 → u ∉ earlier → u ∈ (keep_first earlier l).*2.
Proof.
  induction l as [|d l IH]; intros earlier u; simpl; [by rewrite elem_of_nil|].
  rewrite elem_of_cons. intros Hu Hfresh.
  destruct (decide (d.2 ∈ earlier)) as [Hin|Hnin].
  - apply IH; [destruct Hu as [->|]; [done|done]|].
    rewrite elem_of_app, list_elem_of_singleton. naive_solver.
  - rewrite fmap_cons, elem_of_cons.
    destruct (decide (u = d.2)) as [->|Hne]; [by left|right].
    apply IH; [naive_solver|].
    rewrite elem_of_app, list_elem_of_singleton. naive_solver.
Qed.

Lemma keep_first_is_first l : ∀ earlier t u,
  (t, u) ∈ keep_first earlier l →
  ∃ l1 l2, l = (l1 ++ (t, u) :: l2)%list ∧ u ∉ l1.*2.
Proof.
  induction l as [|d l IH]; intros earlier t u; simpl;
    [by rewrite elem_of_nil|].
  assert (Hrec : (t, u) ∈ keep_first (earlier ++ [d.2])%list l →
                 ∃ l1 l2, d :: l = (l1 ++ (t, u) :: l2)%list ∧ u ∉ l1.*2).
  { intros Hc. pose proof (keep_first_fresh _ _ _ Hc) as Hfresh.
    destruct (IH _ _ _ Hc) as (l1 & l2 & -> & Hl1).
    exists (d :: l1), l2. split; [done|].
    rewrite fmap_cons, elem_of_cons. intros [->|?]; [|done].
    apply Hfresh. rewrite elem_of_app, list_elem_of_singleton. by right. }
  destruct (decide (d.2 ∈ earlier)) as [Hin|Hnin]; [exact Hrec|].
  rewrite elem_of_cons. intros [Hd|Hc].
  - subst d. exists [], l. split; [reflexivity|]. simpl. apply not_elem_of_nil.
  - apply Hrec, Hc.
Qed.

(** C1: the list returned by [extract_video_urls] never holds a URL twice;
    it is the collected list with, for every URL, only the first entry kept
    (with the source kind of that entry), in the order of the collected
    list. *)
Theorem extract_video_urls_dedup `{RT : Runtime} (html base_url : string) :
  let raw := collect html base_url in
  let out := extract_video_urls html base_url in
  NoDup out.*2
  ∧ out = first_occurrences raw
  ∧ sublist out raw
  ∧ (∀ u, u ∈ raw.*2 → u ∈ out.*2)
  ∧ (∀ t u, (t, u) ∈ out →
       ∃ l1 l2, raw = (l1 ++ (t, u) :: l2)%list ∧ u ∉ l1.*2).
Proof.
  intros raw out. subst out. unfold extract_video_urls. fold raw.
  rewrite dedup_first_occurrences. unfold first_occurrences.
  split_and!.
  - apply keep_first_NoDup.
  - done.
  - apply keep_first_sublist.
  - intros u Hu. apply keep_first_complete; [done|]. apply not_elem_of_nil.
  - intros t u. apply keep_first_is_first.
Qed.

Example dedup_keeps_first_kind :
  dedup [(video_element, "u"); (iframe_embed, "v"); (wistia, "u");
         (direct_file, "w"); (vimeo, "v")]
  = [(video_element, "u"); (iframe_embed, "v"); (direct_file, "w")].
Proof. vm_compute. reflexivity. Qed.

(** ** Order of the discovery methods *)

Lemma elem_of_flat_map {A B} (f : A → list B) (l : list A) (y : B) :
  y ∈ flat_map f l ↔ ∃ x, x ∈ l ∧ y ∈ f x.
Proof.
  rewrite list_elem_of_In, in_flat_map. split.
  - intros [x [Hx Hy]]. exists x. by rewrite !list_elem_of_In.
  - intros [x [Hx Hy]]. exists x. by rewrite <- !list_elem_of_In.
Qed.

Lemma keep_first_app a : ∀ b earlier,
  keep_first earlier (a ++ b)
  = (keep_first earlier a ++ keep_first (earlier ++ a.*2) b)%list.
Proof.
  induction a as [|c a IH]; intros b earlier; simpl.
  - by rewrite app_nil_r.
  - rewrite IH, <- (app_assoc earlier [c.2]). simpl.
    by destruct (decide _).
Qed.

(** An URL met in a front part of the collected list is claimed there. *)
Lemma keep_first_front a b earlier k u :
  (k, u) ∈ keep_first earlier (a ++ b) → u ∈ a.*2 → (k, u) ∈ a.
Proof.
  rewrite keep_first_app, elem_of_app. intros [Hin|Hin] Hu.
  - eapply elem_of_sublist; [done | apply keep_first_sublist].
  - apply keep_first_fresh in Hin. simpl in Hin.
    rewrite elem_of_app in Hin. tauto.
Qed.

Lemma StronglySorted_sublist {A} (R : relation A) (l k : list A) :
  sublist l k → StronglySorted R k → StronglySorted R l.
Proof.
  induction 1 as [|x l k Hsub IH|x l k Hsub IH]; intros Hk.
  - constructor.
  - apply StronglySorted_inv in Hk as [Hk Hx]. constructor; [by apply IH|].
    rewrite Forall_forall in Hx |- *. intros y Hy. apply Hx.
    by eapply elem_of_sublist.
  - apply StronglySorted_inv in Hk as [Hk _]. by apply IH.
Qed.

Lemma StronglySorted_lookup {A} (R : relation A) (l : list A) :
  StronglySorted R l →
  ∀ i j x y, l !! i = Some x → l !! j = Some y → (i < j)%nat → R x y.
Proof.
  induction 1 as [|a l Hl IH Ha]; intros i j x y Hi Hj Hlt.
  - by rewrite lookup_nil in Hi.
  - destruct j as [|j]; [lia|]. simpl in Hj. destruct i as [|i]; simpl in Hi.
    + injection Hi as ->. rewrite Forall_forall in Ha. apply Ha.
      by eapply list_elem_of_lookup_2.
    + eapply IH; [done..|lia].
Qed.

Lemma ranked_block (n : nat) (l : list candidate) :
  (∀ c, c ∈ l → method_rank c.1 = n) → StronglySorted rank_le l.
Proof.
  induction l as [|c l IH]; intros Hl; constructor.
  - apply IH. intros d Hd. apply Hl. by right.
  - rewrite Forall_forall. intros d Hd. unfold rank_le.
    rewrite (Hl c), (Hl d); [lia | by right | by left].
Qed.

Lemma ranked_app (n : nat) (l1 l2 : list candidate) :
  (∀ c, c ∈ l1 → method_rank c.1 ≤ n)%nat →
  (∀ c, c ∈ l2 → n < method_rank c.1)%nat →
  StronglySorted rank_le l1 → StronglySorted rank_le l2 →
  StronglySorted rank_le (l1 ++ l2).
Proof.
  intros H1 H2 S1 S2. apply StronglySorted_app_2; [|done..].
  intros c d Hc Hd. unfold rank_le. specialize (H1 c Hc).
  specialize (H2 d Hd). lia.
Qed.

Section MethodOrder.
Context {RT : Runtime}.

Lemma method1_kinds soup base_url c :
  c ∈ method1 soup base_url → c.1 = video_element ∨ c.1 = video_source.
Proof.
  unfold method1. rewrite elem_of_flat_map. intros [v [_ Hc]].
  unfold video_candidates in Hc. rewrite elem_of_app in Hc.
  destruct Hc as [Hc|Hc].
  - destruct (truthy _); [|by apply elem_of_nil in Hc].
    apply list_elem_of_singleton in Hc as ->. by left.
  - apply elem_of_flat_map in Hc as [s [_ Hc]].
    destruct (truthy _); [|by apply elem_of_nil in Hc].
    apply list_elem_of_singleton in Hc as ->. by right.
Qed.

Lemma method2_kinds soup c : c ∈ method2 soup → c.1 = iframe_embed.
Proof.
  unfold method2. rewrite elem_of_flat_map. intros [v [_ Hc]].
  unfold iframe_candidates in Hc.
  repeat (destruct (_ : bool); [|by apply elem_of_nil in Hc]).
  by apply list_elem_of_singleton in Hc as ->.
Qed.

Lemma pattern_candidates_kinds kind mk ps html c :
  c ∈ pattern_candidates kind mk ps html → c.1 = kind.
Proof.
  unfold pattern_candidates. rewrite elem_of_flat_map.
  intros [p [_ Hc]]. change (map ?f ?l) with (f <$> l) in Hc.
  by apply list_elem_of_fmap in Hc as [g [-> _]].
Qed.

Lemma method6_kinds html c : c ∈ method6 html → c.1 = direct_file.
Proof.
  unfold method6. change (map ?f ?l) with (f <$> l).
  by intros [g [-> _]]%list_elem_of_fmap.
Qed.

Lemma collect_ranked html base_url :
  StronglySorted rank_le (collect html base_url).
Proof.
  unfold collect.
  apply (ranked_app 1).
  { by intros c [->| ->]%method1_kinds. }
  { intros c. rewrite !elem_of_app.
    intros [Hc|[Hc|[Hc|[Hc|Hc]]]];
      [apply method2_kinds in Hc
      |apply pattern_candidates_kinds in Hc..
      |apply method6_kinds in Hc]; rewrite Hc; simpl; lia. }
  { apply (ranked_block 1). by intros d [->| ->]%method1_kinds. }
  apply (ranked_app 2).
  { intros c Hc%method2_kinds. by rewrite Hc. }
  { intros c. rewrite !elem_of_app.
    intros [Hc|[Hc|[Hc|Hc]]];
      [apply pattern_candidates_kinds in Hc..
      |apply method6_kinds in Hc]; rewrite Hc; simpl; lia. }
  { apply (ranked_block 2). intros c Hc%method2_kinds. by rewrite Hc. }
  apply (ranked_app 3).
  { intros c Hc%pattern_candidates_kinds. by rewrite Hc. }
  { intros c. rewrite !elem_of_app.
    intros [Hc|[Hc|Hc]];
      [apply pattern_candidates_kinds in Hc..
      |apply method6_kinds in Hc]; rewrite Hc; simpl; lia. }
  { apply (ranked_block 3). intros c Hc%pattern_candidates_kinds.
    by rewrite Hc. }
  apply (ranked_app 4).
  { intros c Hc%pattern_candidates_kinds. by rewrite Hc. }
  { intros c. rewrite !elem_of_app.
    intros [Hc|Hc];
      [apply pattern_candidates_kinds in Hc
      |apply method6_kinds in Hc]; rewrite Hc; simpl; lia. }
  { apply (ranked_block 4). intros c Hc%pattern_candidates_kinds.
    by rewrite Hc. }
  apply (ranked_app 5).
  { intros c Hc%pattern_candidates_kinds. by rewrite Hc. }
  { intros c Hc%method6_kinds. rewrite Hc; simpl; lia. }
  { apply (ranked_block 5). intros c Hc%pattern_candidates_kinds.
    by rewrite Hc. }
  apply (ranked_block 6). intros c Hc%method6_kinds. by rewrite Hc.
Qed.

Lemma extract_ranked html base_url :
  StronglySorted rank_le (extract_video_urls html base_url).
Proof.
  unfold extract_video_urls. rewrite dedup_first_occurrences.
  eapply StronglySorted_sublist; [apply keep_first_sublist|].
  apply collect_ranked.
Qed.

End MethodOrder.

Lemma walk_forward_ok : set_iter_ok runtime_forward.
Proof.
  intros l. split; [apply NoDup_remove_dups|].
  intros x. apply elem_of_remove_dups.
Qed.

Lemma walk_backward_ok : set_iter_ok runtime_backward.
Proof.
  intros l. split; simpl; unfold walk_backward.
  - rewrite reverse_Permutation. apply NoDup_remove_dups.
  - intros x. by rewrite elem_of_reverse, elem_of_remove_dups.
Qed.

Section Presence.
Context {RT : Runtime}.

Lemma truthy_Some (s : string) : s ≠ "" → truthy (Some s) = true.
Proof.
  intros Hs. simpl. destruct (String.eqb_spec s ""); [done|done].
Qed.

Lemma video_src_collected soup base_url video src :
  video ∈ soup_find_all soup "video" → get video "src" = Some src →
  src ≠ "" →
  (video_element, urljoin base_url src) ∈ method1 soup base_url.
Proof.
  intros Hv Hsrc Hne. unfold method1. apply elem_of_flat_map.
  exists video. split; [done|]. unfold video_candidates.
  rewrite Hsrc, truthy_Some by done. simpl. left.
Qed.

Lemma pattern_match_collected kind mk ps html p vid_id :
  set_iter_ok RT → p ∈ ps → vid_id ∈ findall false p html →
  (kind, mk vid_id) ∈ pattern_candidates kind mk ps html.
Proof.
  intros Hset Hp Hid. unfold pattern_candidates. apply elem_of_flat_map.
  exists p. split; [done|]. change (map ?f ?l) with (f <$> l).
  apply list_elem_of_fmap. exists vid_id. split; [done|].
  by apply Hset.
Qed.

Lemma extract_has_url html base_url u :
  u ∈ (collect html base_url).*2 →
  ∃ i k, extract_video_urls html base_url !! i = Some (k, u).
Proof.
  intros Hu.
  assert (Hout : u ∈ (extract_video_urls html base_url).*2).
  { unfold extract_video_urls. rewrite dedup_first_occurrences.
    apply keep_first_complete; [done|apply not_elem_of_nil]. }
  apply list_elem_of_fmap in Hout as [[k u'] [-> Hc]].
  apply list_elem_of_lookup_1 in Hc as [i Hi]. by exists i, k.
Qed.

End Presence.

(** C2: the collected list is the concatenation of the six methods in
    their fixed order, so the returned list is ordered by method: an entry
    of an earlier method never comes after an entry of a later one.  For a
    page with a [<video>] tag carrying a non-empty [src] and a match of a
    Wistia pattern, the URL of the video is in the returned list under a
    kind of method 1, the Wistia URL is in the list, and every entry of
    kind [wistia] comes after the entry of the video. *)
Theorem extract_method_order `{RT : Runtime} (html base_url : string)
    (video : node) (src : string) (p : re) (vid_id : string) :
  set_iter_ok RT →
  video ∈ soup_find_all (html_parser html) "video" →
  get video "src" = Some src → src ≠ "" →
  p ∈ wistia_patterns → vid_id ∈ findall false p html →
  let soup := html_parser html in
  let out := extract_video_urls html base_url in
  collect html base_url
  = (method1 soup base_url ++ method2 soup ++ method3 html
     ++ method4 html ++ method5 html ++ method6 html)%list
  ∧ out = dedup (collect html base_url)
  ∧ (∀ i j c d, out !! i = Some c → out !! j = Some d →
       (method_rank c.1 < method_rank d.1)%nat → (i < j)%nat)
  ∧ ∃ i k, out !! i = Some (k, urljoin base_url src)
      ∧ (k = video_element ∨ k = video_source)
      ∧ (∃ j k', out !! j = Some (k', wistia_url vid_id))
      ∧ ∀ j w, out !! j = Some (wistia, w) → (i < j)%nat.
Proof.
  intros Hset Hvideo Hsrc Hne Hp Hid soup out.
  assert (Hsorted : ∀ i j c d, out !! i = Some c → out !! j = Some d →
            (method_rank c.1 < method_rank d.1)%nat → (i < j)%nat).
  { intros i j c d Hi Hj Hlt.
    destruct (decide (i < j)%nat) as [|Hge]; [done|exfalso].
    destruct (decide (i = j)) as [->|Hneq].
    - rewrite Hi in Hj. injection Hj as ->. lia.
    - pose proof (StronglySorted_lookup _ _ (extract_ranked html base_url)
                    j i d c Hj Hi ltac:(lia)) as Hle.
      unfold rank_le in Hle. lia. }
  split_and!; [done|done|done|].
  pose proof (video_src_collected soup base_url video src Hvideo Hsrc Hne)
    as Hm1.
  assert (Hraw1 : urljoin base_url src ∈ (collect html base_url).*2).
  { apply list_elem_of_fmap. exists (video_element, urljoin base_url src).
    split; [done|]. unfold collect. apply elem_of_app. by left. }
  destruct (extract_has_url _ _ _ Hraw1) as (i & k & Hi).
  assert (Hk : k = video_element ∨ k = video_source).
  { apply list_elem_of_lookup_2 in Hi. subst out.
    unfold extract_video_urls in Hi.
    rewrite dedup_first_occurrences in Hi. unfold first_occurrences in Hi.
    unfold collect in Hi. apply keep_first_front in Hi.
    - by apply method1_kinds in Hi.
    - apply list_elem_of_fmap. by eexists (_, _). }
  exists i, k. split_and!; [done|done| |].
  - apply extract_has_url, list_elem_of_fmap.
    exists (wistia, wistia_url vid_id). split; [done|].
    unfold collect. rewrite !elem_of_app. right; right; left.
    by eapply pattern_match_collected.
  - intros j w Hj. eapply Hsorted; [done..|].
    simpl. destruct Hk as [-> | ->]; simpl; lia.
Qed.

Lemma extract_method_order_witness :
  let p := Seq (lit "wistia_async_") (Group (Plus (Class alnum))) in
  let out := extract_video_urls (RT := runtime_forward)
               page_two_wistia "https://example.com/page" in
  (video_a ∈ soup_find_all (example_parser page_two_wistia) "video"
   ∧ get video_a "src" = Some "a.mp4"
   ∧ p ∈ wistia_patterns
   ∧ "abc123" ∈ findall false p page_two_wistia)
  ∧ ∃ i k,
      out !! i = Some (k, simple_urljoin "https://example.com/page" "a.mp4")
      ∧ (k = video_element ∨ k = video_source)
      ∧ (∃ j k', out !! j = Some (k', wistia_url "abc123"))
      ∧ ∀ j w, out !! j = Some (wistia, w) → (i < j)%nat.
Proof.
  intros p out.
  assert (Hv : video_a ∈ soup_find_all (example_parser page_two_wistia)
                 "video").
  { vm_compute. left. }
  assert (Hs : get video_a "src" = Some "a.mp4") by (vm_compute; reflexivity).
  assert (Hp : p ∈ wistia_patterns) by left.
  assert (Hid : "abc123" ∈ findall false p page_two_wistia).
  { vm_compute. left. }
  split; [done|].
  apply (extract_method_order (RT := runtime_forward)
           page_two_wistia "https://example.com/page"
           video_a "a.mp4" p "abc123" walk_forward_ok Hv Hs
           ltac:(discriminate) Hp Hid).
Defined.

Example extract_two_wistia_forward :
  extract_video_urls (RT := runtime_forward)
    page_two_wistia "https://example.com/page"
  = [(video_element, "https://example.com/a.mp4");
     (wistia, "https://fast.wistia.net/embed/iframe/abc123");
     (wistia, "https://fast.wistia.net/embed/iframe/def456")].
Proof. vm_compute. reflexivity. Qed.

(** Deduplication keeps the kind of the first finder: here the URL of the
    second [<video>] was already supplied by a [<source>]. *)
Example extract_source_first :
  extract_video_urls (RT := runtime_forward)
    page_source_first "https://example.com/page"
  = [(video_source, "https://example.com/a.mp4");
     (wistia, "https://fast.wistia.net/embed/iframe/abc123")].
Proof. vm_compute. reflexivity. Qed.

Example extract_two_wistia_backward :
  extract_video_urls (RT := runtime_backward)
    page_two_wistia "https://example.com/page"
  = [(video_element, "https://example.com/a.mp4");
     (wistia, "https://fast.wistia.net/embed/iframe/def456");
     (wistia, "https://fast.wistia.net/embed/iframe/abc123")].
Proof. vm_compute. reflexivity. Qed.

(** ** The iframe method *)

Lemma any_in_hosts_nonempty (d : string) :
  Str.any_in video_hosts (Str.lower d) = true → d ≠ "".
Proof. intros H ->. vm_compute in H. discriminate. Qed.

(** C9: an [<iframe>] whose [src] is the empty string is read through its
    [data-src]: when that value names a video host, the tag contributes an
    [iframe_embed] candidate, and the returned list holds that URL, under the
    kind [iframe_embed] unless method 1 found the same URL. *)
Theorem iframe_empty_src_uses_data_src `{RT : Runtime}
    (html base_url : string) (iframe : node) (d : string) :
  iframe ∈ soup_find_all (html_parser html) "iframe" →
  get iframe "src" = Some "" →
  get iframe "data-src" = Some d →
  Str.any_in video_hosts (Str.lower d) = true →
  py_or (get iframe "src") (get iframe "data-src") = Some d
  ∧ iframe_candidates iframe = [(iframe_embed, d)]
  ∧ (iframe_embed, d) ∈ collect html base_url
  ∧ ∃ i k, extract_video_urls html base_url !! i = Some (k, d)
      ∧ (d ∉ (method1 (html_parser html) base_url).*2 → k = iframe_embed).
Proof.
  intros Hin Hsrc Hdata Hhost.
  pose proof (any_in_hosts_nonempty d Hhost) as Hne.
  assert (Hor : py_or (get iframe "src") (get iframe "data-src") = Some d).
  { by rewrite Hsrc, Hdata. }
  assert (Hcand : iframe_candidates iframe = [(iframe_embed, d)]).
  { unfold iframe_candidates. rewrite Hor, truthy_Some by done.
    change (default "" (Some d)) with d. by rewrite Hhost. }
  assert (Hm2 : (iframe_embed, d) ∈ method2 (html_parser html)).
  { unfold method2. apply elem_of_flat_map. exists iframe.
    split; [done|]. rewrite Hcand. left. }
  assert (Hraw : (iframe_embed, d) ∈ collect html base_url).
  { unfold collect. rewrite !elem_of_app. right; by left. }
  split_and!; [done..|].
  destruct (extract_has_url html base_url d) as (i & k & Hi).
  { apply list_elem_of_fmap. by exists (iframe_embed, d). }
  exists i, k. split; [done|]. intros Hfresh.
  apply list_elem_of_lookup_2 in Hi. unfold extract_video_urls in Hi.
  rewrite dedup_first_occurrences in Hi. unfold first_occurrences, collect in Hi.
  rewrite keep_first_app, elem_of_app in Hi. destruct Hi as [Hi|Hi].
  - exfalso. apply Hfresh, list_elem_of_fmap. exists (k, d). split; [done|].
    eapply elem_of_sublist; [done | apply keep_first_sublist].
  - apply keep_first_front in Hi.
    + by apply method2_kinds in Hi.
    + apply list_elem_of_fmap. by exists (iframe_embed, d).
Qed.

Lemma iframe_empty_src_uses_data_src_witness :
  let iframe :=
    Tag "iframe"
      (<["src" := ""]> {["data-src" := "https://player.vimeo.com/video/123"]})
      [] in
  let d := "https://player.vimeo.com/video/123" in
  (iframe ∈ soup_find_all (example_parser page_lazy_iframe) "iframe"
   ∧ get iframe "src" = Some ""
   ∧ get iframe "data-src" = Some d
   ∧ Str.any_in video_hosts (Str.lower d) = true)
  ∧ ∃ i k, extract_video_urls (RT := runtime_forward)
             page_lazy_iframe "https://example.com/page" !! i = Some (k, d)
      ∧ (d ∉ (method1 (RT := runtime_forward)
                (example_parser page_lazy_iframe)
                "https://example.com/page").*2 → k = iframe_embed).
Proof.
  intros iframe d.
  assert (H1 : iframe ∈ soup_find_all (example_parser page_lazy_iframe)
                 "iframe") by (vm_compute; left).
  assert (H2 : get iframe "src" = Some "") by (vm_compute; reflexivity).
  assert (H3 : get iframe "data-src" = Some d) by (vm_compute; reflexivity).
  assert (H4 : Str.any_in video_hosts (Str.lower d) = true)
    by (vm_compute; reflexivity).
  split; [done|].
  apply (iframe_empty_src_uses_data_src (RT := runtime_forward)
           page_lazy_iframe "https://example.com/page" iframe d H1 H2 H3 H4).
Defined.

Example extract_lazy_iframe :
  extract_video_urls (RT := runtime_forward)
    page_lazy_iframe "https://example.com/page"
  = [(iframe_embed, "https://player.vimeo.com/video/123")].
Proof. vm_compute. reflexivity. Qed.

(** ** Determinism of the extractor *)

Lemma keep_first_earlier_ext l : ∀ e e',
  (∀ u, u ∈ e ↔ u ∈ e') → keep_first e l = keep_first e' l.
Proof.
  induction l as [|c l IH]; intros e e' He; simpl; [done|].
  rewrite (IH (e ++ [c.2])%list (e' ++ [c.2])%list).
  - destruct (decide (c.2 ∈ e)) as [Hin|Hnin].
    + by rewrite decide_True by (by apply He).
    + by rewrite decide_False by (by rewrite <- He).
  - intros u. rewrite !elem_of_app, He. tauto.
Qed.

Lemma same_first_entries_refl l : same_first_entries l l.
Proof. by split. Qed.

Lemma same_first_entries_app a a' b b' :
  same_first_entries a a' → same_first_entries b b' →
  same_first_entries (a ++ b) (a' ++ b').
Proof.
  intros [Ha1 Ha2] [Hb1 Hb2]. split.
  - intros u. rewrite !fmap_app, !elem_of_app, Ha1, Hb1. tauto.
  - intros e c. rewrite !keep_first_app, !elem_of_app, Ha2.
    rewrite (keep_first_earlier_ext b' (e ++ a'.*2)%list (e ++ a.*2)%list).
    + by rewrite Hb2.
    + intros u. rewrite !elem_of_app, Ha1. tauto.
Qed.

(** In a block where the URL determines the entry, deduplication keeps
    exactly the entries with a fresh URL. *)
Lemma keep_first_block l e c :
  (∀ x y, x ∈ l → y ∈ l → x.2 = y.2 → x = y) →
  c ∈ keep_first e l ↔ c ∈ l ∧ c.2 ∉ e.
Proof.
  intros Hinj. split.
  - intros Hc. split; [|by eapply keep_first_fresh].
    eapply elem_of_sublist; [done | apply keep_first_sublist].
  - intros [Hc Hfresh].
    assert (Hu : c.2 ∈ (keep_first e l).*2).
    { apply keep_first_complete; [|done]. apply list_elem_of_fmap. eauto. }
    apply list_elem_of_fmap in Hu as [d [Heq Hd]].
    assert (d ∈ l) by (eapply elem_of_sublist; [done|apply keep_first_sublist]).
    by rewrite (Hinj c d).
Qed.

Lemma same_first_entries_block (kind : source_kind) (mk : string → string)
      (xs xs' : list string) :
  (∀ x, x ∈ xs ↔ x ∈ xs') →
  same_first_entries (map (fun x => (kind, mk x)) xs)
                     (map (fun x => (kind, mk x)) xs').
Proof.
  intros Hxs. change (map ?f ?l) with (f <$> l).
  assert (Hmem : ∀ c, c ∈ (λ x, (kind, mk x)) <$> xs
                      ↔ c ∈ (λ x, (kind, mk x)) <$> xs').
  { intros c. rewrite !list_elem_of_fmap. by setoid_rewrite Hxs. }
  assert (Hinj : ∀ (ys : list string) (x y : candidate),
            x ∈ (λ x, (kind, mk x)) <$> ys → y ∈ (λ x, (kind, mk x)) <$> ys →
            x.2 = y.2 → x = y).
  { intros ys x y [a [-> _]]%list_elem_of_fmap [b [-> _]]%list_elem_of_fmap.
    simpl. by intros ->. }
  split.
  - intros u. rewrite !list_elem_of_fmap. split.
    + intros [c [-> Hc]]. exists c. by rewrite <- Hmem.
    + intros [c [-> Hc]]. exists c. by rewrite Hmem.
  - intros e c. rewrite !keep_first_block by apply Hinj. by rewrite Hmem.
Qed.

Section TwoRuns.
Variables RT RT' : Runtime.
Hypothesis walk_ok : set_iter_ok RT.
Hypothesis walk_ok' : set_iter_ok RT'.

Lemma set_iter_same_members l x :
  x ∈ @set_iter RT l ↔ x ∈ @set_iter RT' l.
Proof.
  destruct (walk_ok l) as [_ H]. destruct (walk_ok' l) as [_ H'].
  by rewrite H, H'.
Qed.

Lemma pattern_candidates_same kind mk ps html :
  same_first_entries (@pattern_candidates RT kind mk ps html)
                     (@pattern_candidates RT' kind mk ps html).
Proof.
  unfold pattern_candidates.
  induction ps as [|p ps IH]; simpl; [apply same_first_entries_refl|].
  apply same_first_entries_app; [|done].
  apply same_first_entries_block, set_iter_same_members.
Qed.

Lemma method6_same html :
  same_first_entries (@method6 RT html) (@method6 RT' html).
Proof.
  unfold method6.
  apply (same_first_entries_block direct_file unescape_slashes).
  apply set_iter_same_members.
Qed.

Lemma method1_same soup base_url :
  (∀ b u, @urljoin RT b u = @urljoin RT' b u) →
  @method1 RT soup base_url = @method1 RT' soup base_url.
Proof.
  intros Hjoin. unfold method1. apply flat_map_ext. intros video.
  unfold video_candidates. rewrite Hjoin. f_equal.
  apply flat_map_ext. intros source. by rewrite Hjoin.
Qed.

Lemma collect_same html base_url :
  @html_parser RT html = @html_parser RT' html →
  (∀ b u, @urljoin RT b u = @urljoin RT' b u) →
  same_first_entries (@collect RT html base_url) (@collect RT' html base_url).
Proof.
  intros Hparse Hjoin. unfold collect. rewrite Hparse, method1_same by done.
  do 2 (apply same_first_entries_app; [apply same_first_entries_refl|]).
  do 3 (apply same_first_entries_app; [apply pattern_candidates_same|]).
  apply method6_same.
Qed.

End TwoRuns.

(** The claim of C8 read across interpreter runs fails: on a page with two
    Wistia markers, two runs that walk their sets in different orders return
    different lists. *)
Lemma extract_depends_on_set_walk : ¬ walk_independent.
Proof.
  intros Hclaim.
  specialize (Hclaim runtime_forward runtime_backward
                walk_forward_ok walk_backward_ok eq_refl eq_refl
                page_two_wistia "https://example.com/page").
  rewrite extract_two_wistia_forward, extract_two_wistia_backward in Hclaim.
  discriminate.
Qed.

(** C8, amended: two runs that agree on the libraries return lists with
    the same candidates, each once, and the same list when they also walk
    their sets in the same order; only the order in which the sets of
    matches are walked can make the lists differ. *)
Theorem extract_deterministic_up_to_walk (RT RT' : Runtime)
    (html base_url : string) :
  set_iter_ok RT → set_iter_ok RT' →
  @html_parser RT html = @html_parser RT' html →
  (∀ b u, @urljoin RT b u = @urljoin RT' b u) →
  @extract_video_urls RT html base_url
    ≡ₚ @extract_video_urls RT' html base_url
  ∧ ((∀ l, @set_iter RT l = @set_iter RT' l) →
     @extract_video_urls RT html base_url
     = @extract_video_urls RT' html base_url).
Proof.
  intros Hok Hok' Hparse Hjoin. split.
  - apply NoDup_Permutation.
    + eapply NoDup_fmap_1. unfold extract_video_urls.
      rewrite dedup_first_occurrences. apply keep_first_NoDup.
    + eapply NoDup_fmap_1. unfold extract_video_urls.
      rewrite dedup_first_occurrences. apply keep_first_NoDup.
    + intros c. unfold extract_video_urls.
      rewrite !dedup_first_occurrences. unfold first_occurrences.
      by apply collect_same.
  - intros Hwalk. unfold extract_video_urls. f_equal.
    unfold collect. rewrite Hparse, (method1_same RT RT') by done.
    unfold method3, method4, method5, method6, pattern_candidates.
    do 2 f_equal.
    do 3 (f_equal; [apply flat_map_ext; intros p; by rewrite Hwalk|]).
    by rewrite Hwalk.
Qed.

Lemma extract_deterministic_up_to_walk_witness :
  @extract_video_urls runtime_forward
      page_two_wistia "https://example.com/page"
    ≡ₚ @extract_video_urls runtime_backward
         page_two_wistia "https://example.com/page".
Proof.
  apply (extract_deterministic_up_to_walk runtime_forward runtime_backward
           page_two_wistia "https://example.com/page"
           walk_forward_ok walk_backward_ok eq_refl
           (fun _ _ => eq_refl)).
Defined.

(** ** Running the download strategies *)

Lemma runs_ret {A} (a : A) st f : f = fs st → runs (ret a) st (Ok a) [] f.
Proof. intros ->. unfold runs, ret. rewrite app_nil_r. by destruct st. Qed.

Lemma runs_raise {A} e st f : f = fs st → runs (@raise A e) st (Raise e) [] f.
Proof. intros ->. unfold runs, raise. rewrite app_nil_r. by destruct st. Qed.

Lemma runs_emit e st f : f = fs st → runs (emit e) st (Ok tt) [e] f.
Proof. by intros ->. Qed.

Lemma runs_print o st f : f = fs st → runs (print o) st (Ok tt) [EvPrint o] f.
Proof. by intros ->. Qed.

Lemma runs_bind_ok {A B} (m : M A) (f : A → M B) st a evs1 fs1 r evs2 fs2 :
  runs m st (Ok a) evs1 fs1 →
  runs (f a) {| trace := trace st ++ evs1; fs := fs1 |} r evs2 fs2 →
  runs (bind m f) st r (evs1 ++ evs2) fs2.
Proof.
  unfold runs, bind. intros -> ->. simpl. by rewrite app_assoc.
Qed.

(** A first step that leaves the state as it was. *)
Lemma runs_bind_silent {A B} (m : M A) (f : A → M B) st a r evs fs2 :
  runs m st (Ok a) [] (fs st) → runs (f a) st r evs fs2 →
  runs (bind m f) st r evs fs2.
Proof.
  unfold runs, bind. rewrite app_nil_r. destruct st as [tr f0]. simpl.
  by intros -> ->.
Qed.

Lemma runs_bind_raise {A B} (m : M A) (f : A → M B) st e evs fs1 :
  runs m st (Raise e) evs fs1 → runs (bind m f) st (Raise e) evs fs1.
Proof. unfold runs, bind. by intros ->. Qed.

Lemma runs_try_ok {A} (m : M A) h st a evs fs1 :
  runs m st (Ok a) evs fs1 → runs (try_except m h) st (Ok a) evs fs1.
Proof. unfold runs, try_except. by intros ->. Qed.

Lemma runs_try_raise {A} (m : M A) h st e evs1 fs1 r evs2 fs2 :
  runs m st (Raise e) evs1 fs1 →
  runs (h e) {| trace := trace st ++ evs1; fs := fs1 |} r evs2 fs2 →
  runs (try_except m h) st r (evs1 ++ evs2) fs2.
Proof.
  unfold runs, try_except. intros -> ->. simpl. by rewrite app_assoc.
Qed.

Lemma runs_events_eq {A} (m : M A) st r evs evs' fs1 :
  runs m st r evs fs1 → evs = evs' → runs m st r evs' fs1.
Proof. by intros H <-. Qed.

Lemma runs_det {A} (m : M A) st r evs fs1 r' evs' fs1' :
  runs m st r evs fs1 → runs m st r' evs' fs1' →
  r = r' ∧ evs = evs' ∧ fs1 = fs1'.
Proof.
  unfold runs. intros -> [= -> Heq ->]. by apply app_inv_head in Heq.
Qed.

Lemma calls_app evs1 evs2 : calls (evs1 ++ evs2) = calls evs1 ++ calls evs2.
Proof. apply List.filter_app. Qed.

Section Strategies.
Context {RT : Runtime} {W : World}.

Lemma show_lines_run lines : ∀ st,
  ∃ evs, runs (show_lines lines) st (Ok tt) evs (fs st)
         ∧ calls evs = [] ∧ forallb strategy_event evs = true.
Proof.
  induction lines as [|line lines IH]; intros st; simpl.
  - exists []. split; [by apply runs_ret|done].
  - set (shown := Str.contains "Destination:" line
                  || Str.contains "Merging" line).
    assert (Hhead : ∃ evs0,
              runs (if shown then print (OutYtLine (Str.strip line))
                    else if Str.contains "has already been downloaded" line
                         then print (OutYtLine (Str.strip line))
                         else ret tt) st (Ok tt) evs0 (fs st)
              ∧ calls evs0 = [] ∧ forallb strategy_event evs0 = true).
    { destruct shown;
        [|destruct (Str.contains "has already been downloaded" line)].
      1,2: eexists; split; [by apply runs_print|done].
      eexists; split; [by apply runs_ret|done]. }
    destruct Hhead as (evs0 & Hrun0 & Hc0 & Hs0).
    destruct (IH {| trace := trace st ++ evs0; fs := fs st |})
      as (evs & Hrun & Hc & Hs).
    exists (evs0 ++ evs). split; [by eapply runs_bind_ok|].
    by rewrite calls_app, forallb_app, Hc0, Hc, Hs0, Hs.
Qed.

Lemma subprocess_run_runs cmd st :
  runs (subprocess_run cmd) st (Ok (subprocess_result (trace st) cmd))
       [EvRun cmd (subprocess_result (trace st) cmd)] (fs st).
Proof. reflexivity. Qed.

Lemma download_with_yt_dlp_run video_url output_dir verbose st :
  ∃ res evs,
    runs (download_with_yt_dlp video_url output_dir verbose) st
         (Ok (fst res =? 0)%Z) evs (fs st)
    ∧ calls evs = [EvRun (yt_cmd video_url output_dir verbose) res]
    ∧ forallb strategy_event evs = true.
Proof.
  unfold download_with_yt_dlp. fold (yt_cmd video_url output_dir verbose).
  set (cmd := yt_cmd video_url output_dir verbose).
  set (st2 := {| trace := (trace st ++ [EvMakedirs output_dir])
                          ++ [EvPrint (OutAttempting (Str.take 70 video_url))];
                 fs := fs st |}).
  set (res := subprocess_result (trace st2) cmd).
  set (st3 := {| trace := trace st2 ++ [EvRun cmd res]; fs := fs st |}).
  exists res.
  assert (Htail : ∃ evs,
            runs (if (fst res =? 0)%Z
                  then print OutYtSuccess;;
                       show_lines (Str.split_on Str.newline "" res.2);;
                       ret true
                  else ret false) st3 (Ok (fst res =? 0)%Z) evs (fs st)
            ∧ calls evs = [] ∧ forallb strategy_event evs = true).
  { destruct (fst res =? 0)%Z.
    - destruct (show_lines_run (Str.split_on Str.newline "" res.2)
                  {| trace := trace st3 ++ [EvPrint OutYtSuccess];
                     fs := fs st |}) as (evs & Hrun & Hc & Hs).
      exists ([EvPrint OutYtSuccess] ++ evs ++ []). split.
      + eapply runs_bind_ok; [by apply runs_print|].
        eapply runs_bind_ok; [exact Hrun|by apply runs_ret].
      + by rewrite app_nil_r, calls_app, forallb_app, Hc, Hs.
    - exists []. split; [by apply runs_ret|done]. }
  destruct Htail as (evs & Hrun & Hc & Hs).
  exists ([EvMakedirs output_dir]
          ++ [EvPrint (OutAttempting (Str.take 70 video_url))]
          ++ [EvRun cmd res] ++ evs).
  split.
  - eapply runs_bind_ok; [by apply runs_emit|].
    eapply runs_bind_ok; [by apply runs_print|].
    eapply runs_bind_ok; [apply subprocess_run_runs|]. exact Hrun.
  - rewrite !calls_app, !forallb_app, Hc, Hs. by split.
Qed.

Lemma str_app_nil_r (s : string) : (s ++ "")%string = s.
Proof.
  induction s as [|c s IH]; [done|].
  change (String c (s ++ "")%string = String c s). by rewrite IH.
Qed.

Lemma str_app_assoc (a b c : string) :
  ((a ++ b) ++ c)%string = (a ++ b ++ c)%string.
Proof.
  induction a as [|x a IH]; [done|].
  change (String x ((a ++ b) ++ c)%string = String x (a ++ b ++ c)%string).
  by rewrite IH.
Qed.

Lemma write_chunks_run path total cs : ∀ downloaded st content,
  fs st !! path = Some content →
  ∃ evs,
    runs (write_chunks path total downloaded cs) st (Ok tt) evs
         (<[path := (content ++ join_chunks cs)%string]> (fs st))
    ∧ calls evs = [] ∧ forallb strategy_event evs = true.
Proof.
  induction cs as [|chunk cs IH]; intros downloaded st content Hfile; simpl.
  - exists []. split; [|done]. apply runs_ret.
    rewrite str_app_nil_r. by apply insert_id.
  - set (st1 := {| trace := trace st ++ [EvWrite path chunk];
                   fs := <[path := (content ++ chunk)%string]> (fs st) |}).
    assert (Hw : runs (file_write path chunk) st (Ok tt)
                   [EvWrite path chunk] (fs st1)).
    { unfold runs, file_write. by rewrite Hfile. }
    set (progress := if (total =? 0)%Z then ret tt
                     else print (OutProgress
                                   (downloaded + String.length chunk) total)).
    assert (Hp : ∃ evs0, runs progress st1 (Ok tt) evs0 (fs st1)
                         ∧ calls evs0 = []
                         ∧ forallb strategy_event evs0 = true).
    { subst progress. destruct (total =? 0)%Z; eexists;
        (split; [by (apply runs_ret || apply runs_print)|done]). }
    destruct Hp as (evs0 & Hp & Hc0 & Hs0).
    destruct (IH (downloaded + String.length chunk)
                 {| trace := trace st1 ++ evs0; fs := fs st1 |}
                 (content ++ chunk)%string) as (evs & Hrun & Hc & Hs).
    { simpl. apply lookup_insert_eq. }
    exists ([EvWrite path chunk] ++ evs0 ++ evs). split.
    + eapply runs_bind_ok; [exact Hw|].
      eapply runs_bind_ok; [exact Hp|].
      simpl in Hrun. rewrite insert_insert_eq, str_app_assoc in Hrun.
      exact Hrun.
    + by rewrite !calls_app, !forallb_app, Hc0, Hc, Hs0, Hs.
Qed.

Lemma requests_get_runs url headers stream timeout st :
  runs (requests_get url headers stream timeout) st
       (match http_result (trace st) url with
        | ConnError e => Raise e
        | Reply r => Ok r
        end)
       [EvGet url headers stream timeout (http_result (trace st) url)]
       (fs st).
Proof.
  unfold runs, requests_get, bind, get_trace, emit. simpl.
  by destruct (http_result (trace st) url).
Qed.

Lemma raise_for_status_runs r st :
  runs (raise_for_status r) st
       (if status_passes r then Ok tt else Raise "HTTPError") [] (fs st).
Proof.
  unfold raise_for_status, status_passes.
  destruct (_ && _); simpl; by (apply runs_ret || apply runs_raise).
Qed.

Lemma content_total_runs (r : response) st :
  runs (match content_length r with
        | None => ret 0%Z
        | Some v => match Str.py_int v with
                    | Some n => ret n
                    | None => raise "ValueError"
                    end
        end) st
       (match content_length r with
        | None => Ok 0%Z
        | Some v => match Str.py_int v with
                    | Some n => Ok n
                    | None => Raise "ValueError"
                    end
        end) [] (fs st).
Proof.
  destruct (content_length r) as [v|]; [destruct (Str.py_int v)|];
    by (apply runs_ret || apply runs_raise).
Qed.

Lemma download_direct_run video_url output_dir st :
  let path := direct_output_path video_url output_dir in
  let reply :=
    http_result (trace st ++ [EvMakedirs output_dir;
                              EvPrint (OutDirectTo path)]) video_url in
  ∃ evs fs',
    runs (download_direct video_url output_dir) st
         (Ok (direct_succeeds reply)) evs fs'
    ∧ calls evs = [EvGet video_url direct_headers true 60 reply]
    ∧ forallb strategy_event evs = true
    ∧ fs' = (if file_opened reply
             then <[path := join_chunks (delivered reply)]> (fs st)
             else fs st).
Proof.
  intros path reply. unfold download_direct.
  fold (direct_output_path video_url output_dir). fold path.
  set (st2 := {| trace := (trace st ++ [EvMakedirs output_dir])
                          ++ [EvPrint (OutDirectTo path)];
                 fs := fs st |}).
  assert (Hst2 : trace st2 = trace st ++ [EvMakedirs output_dir;
                                         EvPrint (OutDirectTo path)]).
  { simpl. by rewrite <- app_assoc. }
  pose proof (requests_get_runs video_url direct_headers true 60 st2) as Hget.
  rewrite Hst2 in Hget. fold reply in Hget.
  set (st3 := {| trace := trace st2
                          ++ [EvGet video_url direct_headers true 60 reply];
                 fs := fs st |}).
  assert (Hfail : ∀ e st', runs (print (OutDirectFailed e);; ret false)
                    st' (Ok false) ([EvPrint (OutDirectFailed e)] ++ [])
                    (fs st')).
  { intros e st'.
    eapply runs_bind_ok; [by apply runs_print|by apply runs_ret]. }
  assert (Hprefix : ∀ (body : M bool) b evs fs',
            runs body st2 (Ok b) evs fs' →
            runs (emit (EvMakedirs output_dir);;
                  print (OutDirectTo path);; body) st (Ok b)
                 ([EvMakedirs output_dir] ++ [EvPrint (OutDirectTo path)]
                  ++ evs) fs').
  { intros body b evs fs' Hbody.
    eapply runs_bind_ok; [by apply runs_emit|].
    eapply runs_bind_ok; [by apply runs_print|]. exact Hbody. }
  destruct reply as [e|r] eqn:Hreply; simpl.
  { (* no answer *)
    eexists _, _. split; [|split_and!].
    - apply Hprefix. eapply runs_try_raise.
      + eapply runs_bind_raise. exact Hget.
      + apply Hfail.
    - reflexivity.
    - reflexivity.
    - reflexivity. }
  pose proof (raise_for_status_runs r st3) as Hstatus.
  destruct (status_passes r) eqn:Hpass; simpl.
  2:{ (* HTTP error *)
    eexists _, _. split; [|split_and!].
    - apply Hprefix. eapply runs_try_raise.
      + eapply runs_bind_ok; [exact Hget|].
        eapply runs_bind_raise. exact Hstatus.
      + rewrite app_nil_r. apply Hfail.
    - reflexivity.
    - reflexivity.
    - reflexivity. }
  assert (Hbody : ∀ total, ∃ evs,
            runs (file_open path;;
                  write_chunks path total 0 (chunks r);;
                  match stream_error r with
                  | Some e => raise e
                  | None => ret tt
                  end;;
                  print (OutDirectSuccess path);; ret true) st3
                 (match stream_error r with
                  | Some e => Raise e
                  | None => Ok true
                  end) evs (<[path := join_chunks (chunks r)]> (fs st))
            ∧ calls evs = [] ∧ forallb strategy_event evs = true).
  { intros total.
    set (st4 := {| trace := trace st3 ++ [EvOpen path];
                   fs := <[path := ""]> (fs st) |}).
    assert (Hopen : runs (file_open path) st3 (Ok tt) [EvOpen path] (fs st4))
      by reflexivity.
    destruct (write_chunks_run path total (chunks r) 0 st4 "")
      as (evs & Hw & Hc & Hs); [apply lookup_insert_eq|].
    simpl in Hw. rewrite insert_insert_eq in Hw.
    change ("" ++ join_chunks (chunks r))%string
      with (join_chunks (chunks r)) in Hw.
    destruct (stream_error r) as [e|].
    - exists ([EvOpen path] ++ evs ++ []). split.
      + eapply runs_bind_ok; [exact Hopen|].
        eapply runs_bind_ok; [exact Hw|].
        eapply runs_bind_raise. by apply runs_raise.
      + by rewrite app_nil_r, calls_app, forallb_app, Hc, Hs.
    - exists ([EvOpen path] ++ evs ++ [EvPrint (OutDirectSuccess path)] ++ []).
      split.
      + eapply runs_bind_ok; [exact Hopen|].
        eapply runs_bind_ok; [exact Hw|].
        eapply runs_bind_silent; [by apply runs_ret|].
        eapply runs_bind_ok; [by apply runs_print|by apply runs_ret].
      + by rewrite !calls_app, !forallb_app, Hc, Hs. }
  pose proof (content_total_runs r st3) as Htotal.
  assert (Hopened : ∀ total,
            content_length r = None ∧ total = 0%Z
            ∨ (∃ v, content_length r = Some v ∧ Str.py_int v = Some total) →
            ∃ evs fs',
              runs (download_direct video_url output_dir) st
                   (Ok (bool_decide (stream_error r = None))) evs fs'
              ∧ calls evs = [EvGet video_url direct_headers true 60 (Reply r)]
              ∧ forallb strategy_event evs = true
              ∧ fs' = <[path := join_chunks (chunks r)]> (fs st)).
  { intros total Hcase. destruct (Hbody total) as (evs & Hrun & Hc & Hs).
    assert (Htot : runs (match content_length r with
                         | None => ret 0%Z
                         | Some v => match Str.py_int v with
                                     | Some n => ret n
                                     | None => raise "ValueError"
                                     end
                         end) st3 (Ok total) [] (fs st3)).
    { destruct Hcase as [[Hlen ->]|(v & Hlen & Hint)];
        rewrite Hlen in Htotal |- *; [|rewrite Hint in Htotal |- *];
        exact Htotal. }
    unfold download_direct. fold (direct_output_path video_url output_dir).
    fold path.
    destruct (stream_error r) as [e|] eqn:Herr.
    - eexists _, _. split; [|split_and!].
      + apply Hprefix. eapply runs_try_raise.
        * eapply runs_bind_ok; [exact Hget|].
          eapply runs_bind_silent; [exact Hstatus|].
          eapply runs_bind_silent; [exact Htot|]. rewrite Herr. exact Hrun.
        * apply Hfail.
      + rewrite !calls_app, Hc. reflexivity.
      + rewrite !forallb_app, Hs. reflexivity.
      + reflexivity.
    - eexists _, _. split; [|split_and!].
      + apply Hprefix. eapply runs_try_ok.
        eapply runs_bind_ok; [exact Hget|].
        eapply runs_bind_silent; [exact Hstatus|].
        eapply runs_bind_silent; [exact Htot|]. rewrite Herr. exact Hrun.
      + rewrite !calls_app, Hc. reflexivity.
      + rewrite !forallb_app, Hs. reflexivity.
      + reflexivity. }
  unfold length_parses.
  destruct (content_length r) as [v|] eqn:Hlen;
    [destruct (Str.py_int v) as [total|] eqn:Hint|]; simpl.
  - apply (Hopened total). right. eauto.
  - (* Content-Length is not a number *)
    eexists _, _. split; [|split_and!].
    + apply Hprefix. eapply runs_try_raise.
      * eapply runs_bind_ok; [exact Hget|].
        eapply runs_bind_silent; [exact Hstatus|].
        eapply runs_bind_raise. rewrite Hlen, Hint. exact Htotal.
      * apply Hfail.
    + reflexivity.
    + reflexivity.
    + reflexivity.
  - apply (Hopened 0%Z). by left.
Qed.

End Strategies.


(** ** The direct streamed download *)

(** C10: when the stream breaks after the output file was opened,
    [download_direct] returns [False] and the file stays in the output
    directory, holding the chunks received so far; no step removes it. *)
Theorem download_direct_leaves_partial_file `{RT : Runtime} `{W : World}
    (video_url output_dir : string) (st : state) (r : response) (e : string) :
  let path := direct_output_path video_url output_dir in
  http_result (trace st ++ [EvMakedirs output_dir;
                            EvPrint (OutDirectTo path)]) video_url
  = Reply r →
  status_passes r = true → length_parses r = true →
  stream_error r = Some e →
  ∃ evs fs',
    runs (download_direct video_url output_dir) st (Ok false) evs fs'
    ∧ fs' = <[path := join_chunks (chunks r)]> (fs st)
    ∧ fs' !! path = Some (join_chunks (chunks r))
    ∧ (∀ other, other ≠ path → fs' !! other = fs st !! other).
Proof.
  intros path Hreply Hpass Hlen Herr.
  destruct (download_direct_run video_url output_dir st)
    as (evs & fs' & Hrun & _ & _ & Hfs).
  fold path in Hrun, Hfs. rewrite Hreply in Hrun, Hfs. simpl in Hrun, Hfs.
  rewrite Hpass, Hlen, Herr in Hrun. rewrite Hpass, Hlen in Hfs.
  simpl in Hrun, Hfs. exists evs, fs'. split_and!; [done|done| |].
  - rewrite Hfs. apply lookup_insert_eq.
  - intros other Hne. rewrite Hfs. by apply lookup_insert_ne.
Qed.

Lemma download_direct_leaves_partial_file_witness :
  ∃ evs fs',
    runs (download_direct (RT := runtime_forward)
            (W := world_serving broken_stream)
            "https://cdn.example.com/v/clip.mp4" "./downloads")
         initial_state (Ok false) evs fs'
    ∧ fs' = <["./downloads/clip.mp4" := "abcdef"]> ∅
    ∧ fs' !! "./downloads/clip.mp4" = Some "abcdef"
    ∧ (∀ other, other ≠ "./downloads/clip.mp4" →
         fs' !! other = (∅ : gmap string string) !! other).
Proof.
  apply (download_direct_leaves_partial_file (RT := runtime_forward)
           (W := world_serving broken_stream)
           "https://cdn.example.com/v/clip.mp4" "./downloads"
           initial_state broken_stream "ConnectionResetError");
    reflexivity.
Defined.

Example download_direct_broken_stream_trace :
  trace (download_direct (RT := runtime_forward)
           (W := world_serving broken_stream)
           "https://cdn.example.com/v/clip.mp4" "./downloads"
           initial_state).2
  = [EvMakedirs "./downloads";
     EvPrint (OutDirectTo "./downloads/clip.mp4");
     EvGet "https://cdn.example.com/v/clip.mp4" direct_headers true 60
       (Reply broken_stream);
     EvOpen "./downloads/clip.mp4";
     EvWrite "./downloads/clip.mp4" "abc";
     EvPrint (OutProgress 3 1000);
     EvWrite "./downloads/clip.mp4" "def";
     EvPrint (OutProgress 6 1000);
     EvPrint (OutDirectFailed "ConnectionResetError")].
Proof. vm_compute. reflexivity. Qed.

(** ** The page fetch *)

(** The claim of C6 on every status outside 2xx fails: a final answer
    with status 304 is returned to the caller as text. *)
Lemma fetch_page_304_is_returned :
  ¬ (200 ≤ status_code not_modified < 300)%nat
  ∧ fetch_page (W := world_serving not_modified)
      "https://example.com/page" initial_state
    = (Ok "cached",
       {| trace := [EvGet "https://example.com/page" fetch_headers false 30
                      (Reply not_modified)];
          fs := ∅ |}).
Proof. split; [simpl; lia|reflexivity]. Qed.

(** C6, amended: [fetch_page] makes exactly one request, a GET without
    streaming and with a timeout of 30 seconds, and nothing else; a network
    error and every status from 400 to 599 reach the caller as an exception,
    every other answer is returned as its text. *)
Theorem fetch_page_single_get `{W : World} (url : string) (st : state) :
  let reply := http_result (trace st) url in
  runs (fetch_page url) st
       (match reply with
        | ConnError e => Raise e
        | Reply r =>
            if ((400 <=? status_code r) && (status_code r <? 600))%nat
            then Raise "HTTPError" else Ok (text r)
        end)
       [EvGet url fetch_headers false 30 reply] (fs st).
Proof.
  intros reply. unfold fetch_page.
  pose proof (requests_get_runs url fetch_headers false 30 st) as Hget.
  fold reply in Hget. destruct reply as [e|r].
  - by apply runs_bind_raise.
  - rewrite <- (app_nil_r [EvGet _ _ _ _ _]).
    eapply runs_bind_ok; [exact Hget|].
    pose proof (raise_for_status_runs r
                  {| trace := trace st ++ [EvGet url fetch_headers false 30
                                             (Reply r)];
                     fs := fs st |}) as Hstatus.
    unfold status_passes in Hstatus.
    destruct (_ && _); simpl in Hstatus.
    + by apply runs_bind_raise.
    + eapply runs_bind_silent; [exact Hstatus|]. by apply runs_ret.
Qed.

(** ** The candidate loop *)

Section Loop.
Context {RT : Runtime} {W : World}.

Lemma try_candidates_run output_dir video_urls : ∀ st,
  ∃ b evs fs',
    runs (try_candidates output_dir video_urls) st (Ok b) evs fs'
    ∧ loop_calls output_dir video_urls (calls evs) b
    ∧ forallb strategy_event evs = true.
Proof.
  induction video_urls as [|[kind url] rest IH]; intros st.
  { exists false, [], (fs st). split; [by apply runs_ret|].
    split; [constructor|done]. }
  simpl. fold (wants_direct url).
  set (st1 := {| trace := trace st ++ [EvPrint (OutTrying kind (Str.take 60 url))];
                 fs := fs st |}).
  destruct (download_with_yt_dlp_run url output_dir false st1)
    as (res & evs1 & Hyt & Hc1 & Hs1).
  set (st2 := {| trace := trace st1 ++ evs1; fs := fs st |}).
  assert (Hhead : ∀ (k : bool → M bool) b evs fs',
            runs (k (fst res =? 0)%Z) st2 (Ok b) evs fs' →
            runs (print (OutTrying kind (Str.take 60 url));;
                  let* ok := download_with_yt_dlp url output_dir false in k ok)
                 st (Ok b)
                 ([EvPrint (OutTrying kind (Str.take 60 url))] ++ evs1 ++ evs)
                 fs').
  { intros k b evs fs' Hk.
    eapply runs_bind_ok; [by apply runs_print|].
    eapply runs_bind_ok; [exact Hyt|exact Hk]. }
  assert (Hwon : ∀ st', runs (print OutDownloaded;; ret true) st' (Ok true)
                          ([EvPrint OutDownloaded] ++ []) (fs st')).
  { intros st'.
    eapply runs_bind_ok; [by apply runs_print|by apply runs_ret]. }
  destruct (fst res =? 0)%Z eqn:Hres.
  { (* yt-dlp succeeded *)
    eexists true, _, _. split; [|split].
    - apply Hhead. simpl. apply Hwon.
    - rewrite !calls_app, Hc1. simpl. constructor. by apply Z.eqb_eq.
    - rewrite !forallb_app, Hs1. reflexivity. }
  apply Z.eqb_neq in Hres as Hne.
  destruct (wants_direct url) eqn:Hwants.
  2:{ (* no direct attempt for this URL *)
    destruct (IH st2) as (b & evs & fs' & Hrest & Hlc & Hs).
    eexists b, _, _. split; [|split].
    - apply Hhead. simpl. exact Hrest.
    - rewrite !calls_app, Hc1. simpl. by constructor.
    - rewrite !forallb_app, Hs1, Hs. reflexivity. }
  destruct (download_direct_run url output_dir st2)
    as (evs2 & fs2 & Hdirect & Hc2 & Hs2 & _).
  set (reply := http_result _ url) in Hdirect, Hc2.
  destruct (direct_succeeds reply) eqn:Hok.
  { (* the direct download succeeded *)
    eexists true, _, _. split; [|split].
    - apply Hhead. simpl.
      eapply runs_bind_ok; [exact Hdirect|]. apply Hwon.
    - rewrite !calls_app, Hc1, Hc2. simpl. by constructor.
    - rewrite !forallb_app, Hs1, Hs2. reflexivity. }
  destruct (IH {| trace := trace st2 ++ evs2; fs := fs2 |})
    as (b & evs & fs' & Hrest & Hlc & Hs).
  eexists b, _, _. split; [|split].
  - apply Hhead. simpl.
    eapply runs_bind_ok; [exact Hdirect|]. exact Hrest.
  - rewrite !calls_app, Hc1, Hc2. simpl. by constructor.
  - rewrite !forallb_app, Hs1, Hs2, Hs. reflexivity.
Qed.

(** A success is final: what follows in the list plays no part. *)
Lemma try_candidates_prefix output_dir first rest : ∀ st st',
  try_candidates output_dir first st = (Ok true, st') →
  try_candidates output_dir (first ++ rest) st = (Ok true, st').
Proof.
  induction first as [|[kind url] first IH]; intros st st'; simpl.
  { unfold ret. discriminate. }
  unfold bind, print, emit. simpl.
  destruct (download_with_yt_dlp url output_dir false _) as [[[]|e] st2];
    [tauto| |tauto].
  destruct (_ || _); [|apply IH].
  destruct (download_direct url output_dir st2) as [[[]|e] st3];
    [tauto|apply IH|tauto].
Qed.

End Loop.

(** C4: the candidate loop always ends, with Success or by falling
    through.  Its calls follow [loop_calls]: for each candidate yt-dlp is
    called first, the direct download is called only after yt-dlp failed on
    a URL that has [.mp4] or [.webm] in it, and the first success ends the
    loop with Success.  No later candidate is attempted: the run on a list
    whose front part already succeeds is the run on that front part, and
    when yt-dlp succeeds on the first candidate that call is the only one. *)
Theorem candidate_loop_short_circuits `{RT : Runtime} `{W : World}
    (output_dir : string) (video_urls : list candidate) (st : state) :
  ∃ b evs fs',
    runs (try_candidates output_dir video_urls) st (Ok b) evs fs'
    ∧ loop_calls output_dir video_urls (calls evs) b
    ∧ (∀ first rest st',
         video_urls = first ++ rest →
         try_candidates output_dir first st = (Ok true, st') →
         b = true ∧ st' = {| trace := trace st ++ evs; fs := fs' |})
    ∧ (∀ kind url rest,
         video_urls = (kind, url) :: rest →
         ∃ res later,
           calls evs = EvRun (yt_cmd url output_dir false) res :: later
           ∧ (fst res = 0%Z → later = [] ∧ b = true)).
Proof.
  destruct (try_candidates_run output_dir video_urls st)
    as (b & evs & fs' & Hrun & Hloop & _).
  exists b, evs, fs'. split_and!; [done|done| |].
  - intros first rest st' -> Hfirst.
    apply (try_candidates_prefix _ _ rest) in Hfirst.
    unfold runs in Hrun. rewrite Hfirst in Hrun. by injection Hrun as <- ->.
  - intros kind url rest ->.
    inversion Hloop as [|? ? ? res Hres|? ? ? res later ? Hres
                        |? ? ? res reply Hres|? ? ? res reply later ? Hres];
      subst; eexists res, _; (split; [reflexivity|]); intros Hzero;
      done.
Qed.

Example candidate_loop_stops_at_first_success :
  let W := world_yt_knows "https://b.example/v" (fun _ => ConnError "down") in
  let st := (try_candidates (RT := runtime_forward) (W := W) "./downloads"
               [(iframe_embed, "https://a.example/v");
                (vimeo, "https://b.example/v");
                (youtube, "https://c.example/v")] initial_state).2 in
  calls (trace st)
  = [EvRun (yt_cmd "https://a.example/v" "./downloads" false) (1%Z, "");
     EvRun (yt_cmd "https://b.example/v" "./downloads" false)
       (0%Z, "[download] Destination: video.mp4")].
Proof. vm_compute. reflexivity. Qed.

Example candidate_loop_direct_after_yt_failure :
  let W := world_serving broken_stream in
  let st := (try_candidates (RT := runtime_forward) (W := W) "./downloads"
               [(direct_file, "https://cdn.example.com/v/clip.mp4");
                (youtube, "https://c.example/v")] initial_state).2 in
  calls (trace st)
  = [EvRun (yt_cmd "https://cdn.example.com/v/clip.mp4" "./downloads" false)
       (1%Z, "");
     EvGet "https://cdn.example.com/v/clip.mp4" direct_headers true 60
       (Reply broken_stream);
     EvRun (yt_cmd "https://c.example/v" "./downloads" false) (1%Z, "")].
Proof. vm_compute. reflexivity. Qed.

(** ** The orchestrator *)

Lemma fetch_page_runs `{W : World} (url : string) (st : state) :
  let reply := http_result (trace st) url in
  runs (fetch_page url) st
       (if fetch_fails reply then Raise (fetch_error reply)
        else Ok (match reply with Reply r => text r | ConnError _ => "" end))
       [EvGet url fetch_headers false 30 reply] (fs st).
Proof.
  intros reply. unfold fetch_page.
  pose proof (requests_get_runs url fetch_headers false 30 st) as Hget.
  fold reply in Hget. destruct reply as [e|r]; simpl.
  - by apply runs_bind_raise.
  - rewrite <- (app_nil_r [EvGet _ _ _ _ _]).
    eapply runs_bind_ok; [exact Hget|].
    pose proof (raise_for_status_runs r
                  {| trace := trace st ++ [EvGet url fetch_headers false 30
                                             (Reply r)];
                     fs := fs st |}) as Hstatus.
    destruct (status_passes r); simpl in *.
    + eapply runs_bind_silent; [exact Hstatus|]. by apply runs_ret.
    + by apply runs_bind_raise.
Qed.

Section Orchestrator.
Context {W : World}.

(** The direct-video-URL branch. *)
Lemma download_video_direct_run `{RT : Runtime} url output_dir st :
  is_direct_video_url url = true →
  ∃ b evsS fs',
    runs (download_video url output_dir) st (Ok b)
         (opening url output_dir ++ [EvPrint OutDirectDetected] ++ evsS
          ++ (if b then [] else [EvPrint OutFailedToDownload])) fs'
    ∧ forallb strategy_event evsS = true.
Proof.
  intros Hdirect. unfold download_video. rewrite Hdirect.
  set (st1 := {| trace := ((trace st ++ [EvEnsureDependencies])
                           ++ [EvPrint (OutBanner (Str.take 70 url)
                                          output_dir)])
                          ++ [EvPrint OutDirectDetected];
                 fs := fs st |}).
  assert (Hhead : ∀ (k : M bool) b evs fs',
            runs k st1 (Ok b) evs fs' →
            runs (ensure_dependencies;;
                  print (OutBanner (Str.take 70 url) output_dir);;
                  print OutDirectDetected;; k) st (Ok b)
                 (opening url output_dir ++ [EvPrint OutDirectDetected]
                  ++ evs) fs').
  { intros k b evs fs' Hk. unfold opening, ensure_dependencies.
    change ([EvEnsureDependencies; ?x] ++ ?l)
      with ([EvEnsureDependencies] ++ [x] ++ l).
    eapply runs_bind_ok; [by apply runs_emit|].
    eapply runs_bind_ok; [by apply runs_print|].
    eapply runs_bind_ok; [by apply runs_print|]. exact Hk. }
  destruct (download_with_yt_dlp_run url output_dir true st1)
    as (res & evs1 & Hyt & _ & Hs1).
  set (st2 := {| trace := trace st1 ++ evs1; fs := fs st |}).
  destruct (fst res =? 0)%Z.
  { exists true, evs1, (fs st). split; [|done]. rewrite app_nil_r.
    apply Hhead. rewrite <- (app_nil_r evs1).
    eapply runs_bind_ok; [exact Hyt|]. by apply runs_ret. }
  assert (Hsecond : ∃ ok evs2 fs2,
            runs (if Str.any_in [".mp4"; ".webm"; ".mov"] (Str.lower url)
                  then download_direct url output_dir else ret false)
                 st2 (Ok ok) evs2 fs2
            ∧ forallb strategy_event evs2 = true).
  { destruct (Str.any_in _ _).
    - destruct (download_direct_run url output_dir st2)
        as (evs2 & fs2 & Hd & _ & Hs2 & _). eauto 6.
    - exists false, [], (fs st). split; [by apply runs_ret|done]. }
  destruct Hsecond as (ok & evs2 & fs2 & Hd & Hs2).
  exists ok, (evs1 ++ evs2), fs2. split; [|by rewrite forallb_app, Hs1, Hs2].
  rewrite <- (app_assoc evs1). apply Hhead.
  eapply runs_bind_ok; [exact Hyt|].
  eapply runs_bind_ok; [exact Hd|].
  destruct ok.
  - by apply runs_ret.
  - rewrite <- (app_nil_r [EvPrint _]).
    eapply runs_bind_ok; [by apply runs_print|by apply runs_ret].
Qed.

(** The page branch. *)
Lemma download_video_page_run `{RT : Runtime} url output_dir st :
  is_direct_video_url url = false →
  ∃ b evs fs',
    runs (download_video url output_dir) st (Ok b) evs fs'
    ∧ video_run_shape url output_dir st b evs fs'.
Proof.
  intros Hdirect. unfold video_run_shape. rewrite Hdirect.
  set (st1 := {| trace := ((trace st ++ [EvEnsureDependencies])
                           ++ [EvPrint (OutBanner (Str.take 70 url)
                                          output_dir)])
                          ++ [EvPrint OutStep1];
                 fs := fs st |}).
  destruct (download_with_yt_dlp_run url output_dir false st1)
    as (res & evsY & Hyt & _ & HsY).
  set (st2 := {| trace := trace st1 ++ evsY; fs := fs st |}).
  assert (Hhead : ∀ (k : bool → M bool) b evs fs',
            runs (k (fst res =? 0)%Z) st2 (Ok b) evs fs' →
            runs (ensure_dependencies;;
                  print (OutBanner (Str.take 70 url) output_dir);;
                  print OutStep1;;
                  let* ok := download_with_yt_dlp url output_dir false in
                  k ok) st (Ok b)
                 (opening url output_dir ++ [EvPrint OutStep1] ++ evsY ++ evs)
                 fs').
  { intros k b evs fs' Hk. unfold opening, ensure_dependencies.
    change ([EvEnsureDependencies; ?x] ++ ?l)
      with ([EvEnsureDependencies] ++ [x] ++ l).
    eapply runs_bind_ok; [by apply runs_emit|].
    eapply runs_bind_ok; [by apply runs_print|].
    eapply runs_bind_ok; [by apply runs_print|].
    eapply runs_bind_ok; [exact Hyt|exact Hk]. }
  destruct (fst res =? 0)%Z.
  { (* yt-dlp extracted the video from the page *)
    exists true, (opening url output_dir ++ [EvPrint OutStep1] ++ evsY),
      (fs st).
    split.
    - unfold download_video. rewrite Hdirect.
      rewrite <- (app_nil_r evsY). apply Hhead. by apply runs_ret.
    - exists evsY. split; [done|]. by left. }
  set (st3 := {| trace := (trace st2 ++ [EvPrint OutYtCouldNot])
                          ++ [EvPrint OutStep2];
                 fs := fs st |}).
  set (reply := http_result (trace st3) url).
  pose proof (fetch_page_runs url st3) as Hfetch.
  cbv zeta in Hfetch. fold reply in Hfetch.
  assert (Hmid : ∀ (k : M (option string)) (k' : option string → M bool)
                   fetched evs1 b evs fs',
            runs k st3 (Ok fetched) evs1 (fs st) →
            runs (k' fetched)
                 {| trace := trace st3 ++ evs1; fs := fs st |}
                 (Ok b) evs fs' →
            runs (print OutYtCouldNot;; print OutStep2;;
                  let* fetched := k in k' fetched) st2 (Ok b)
                 ([EvPrint OutYtCouldNot] ++ [EvPrint OutStep2] ++ evs1 ++ evs)
                 fs').
  { intros k k' fetched evs1 b evs fs' Hk Hk'.
    eapply runs_bind_ok; [by apply runs_print|].
    eapply runs_bind_ok; [by apply runs_print|].
    eapply runs_bind_ok; [exact Hk|exact Hk']. }
  destruct (fetch_fails reply) eqn:Hfails.
  { (* the page fetch failed *)
    set (evs := opening url output_dir ++ [EvPrint OutStep1] ++ evsY
                ++ fetching url reply
                ++ [EvPrint (OutFetchError (fetch_error reply));
                    EvPrint (OutManual (Str.take 80 url))]).
    assert (Hany : ∀ RT' : Runtime,
              runs (@download_video RT' W url output_dir) st (Ok false)
                   evs (fs st)).
    { intros RT'. unfold download_video. rewrite Hdirect. subst evs.
      apply Hhead. cbv beta iota. eapply runs_events_eq.
      - eapply Hmid.
        + eapply runs_try_raise.
          * eapply runs_bind_raise. exact Hfetch.
          * unfold print_manual_instructions.
            eapply runs_bind_ok; [by apply runs_print|].
            eapply runs_bind_ok; [by apply runs_print|by apply runs_ret].
        + by apply runs_ret.
      - reflexivity. }
    exists false, evs, (fs st). split; [apply Hany|].
    exists evsY. split; [done|]. right. exists reply. left. by split_and!. }
  (* the page was fetched *)
  set (html := match reply with Reply r => text r | ConnError _ => "" end)
    in Hfetch.
  set (st5 := {| trace := trace st3
                          ++ [EvGet url fetch_headers false 30 reply]
                          ++ [EvPrint (OutFetched (String.length html))] ++ [];
                 fs := fs st |}).
  assert (Hspa : ∃ evs_spa,
            runs (if (String.length html <? 5000)%nat
                     && Str.contains "<script" html
                  then print OutSpa else ret tt) st5 (Ok tt) evs_spa (fs st)
            ∧ forallb strategy_event evs_spa = true).
  { destruct (_ && _); eexists;
      (split; [by (apply runs_print || apply runs_ret)|done]). }
  destruct Hspa as (evs_spa & Hspa & Hs_spa).
  set (st6 := {| trace := (trace st5 ++ evs_spa) ++ [EvPrint OutStep3];
                 fs := fs st |}).
  set (video_urls := extract_video_urls html url).
  assert (Hloop : ∃ done evsL fs',
            runs (match video_urls with
                  | [] => ret false
                  | _ => print (OutFound (List.length video_urls));;
                         try_candidates output_dir video_urls
                  end) st6 (Ok done) evsL fs'
            ∧ forallb strategy_event evsL = true).
  { destruct video_urls as [|c l] eqn:Hurls.
    - exists false, [], (fs st). split; [by apply runs_ret|done].
    - destruct (try_candidates_run output_dir (c :: l)
                  {| trace := trace st6
                              ++ [EvPrint (OutFound (List.length (c :: l)))];
                     fs := fs st |}) as (done & evsL & fs' & Hl & _ & HsL).
      exists done, ([EvPrint (OutFound (List.length (c :: l)))] ++ evsL), fs'.
      split; [|by rewrite forallb_app, HsL].
      eapply runs_bind_ok; [by apply runs_print|exact Hl]. }
  destruct Hloop as (done & evsL & fs' & Hloop & HsL).
  assert (Htail : ∀ st',
            runs (if done then ret true
                  else print_manual_instructions url;; ret false) st'
                 (Ok done)
                 (if done then []
                  else [EvPrint (OutManual (Str.take 80 url))] ++ [])
                 (fs st')).
  { intros st'. destruct done; [by apply runs_ret|].
    unfold print_manual_instructions.
    eapply runs_bind_ok; [by apply runs_print|by apply runs_ret]. }
  set (quiet := [EvPrint (OutFetched (String.length html))] ++ evs_spa
                ++ [EvPrint OutStep3] ++ evsL).
  exists done,
    (opening url output_dir ++ [EvPrint OutStep1] ++ evsY
     ++ fetching url reply ++ quiet
     ++ (if done then [] else [EvPrint (OutManual (Str.take 80 url))])),
    fs'.
  split.
  - unfold download_video. rewrite Hdirect. apply Hhead. cbv beta iota.
    eapply runs_events_eq.
    + eapply Hmid.
      * eapply runs_try_ok.
        eapply runs_bind_ok; [exact Hfetch|].
        eapply runs_bind_ok; [by apply runs_print|by apply runs_ret].
      * cbv beta iota.
        eapply runs_bind_ok; [exact Hspa|].
        eapply runs_bind_ok; [by apply runs_print|].
        eapply runs_bind_ok; [exact Hloop|]. apply Htail.
    + subst quiet. unfold fetching. destruct done; simpl;
        by rewrite <- ?app_assoc, ?app_nil_r.
  - exists evsY. split; [done|]. right. exists reply. right.
    split; [done|]. exists quiet. split; [|done].
    subst quiet. by rewrite !forallb_app, Hs_spa, HsL.
Qed.

Lemma download_video_run `{RT : Runtime} url output_dir st :
  ∃ b evs fs',
    runs (download_video url output_dir) st (Ok b) evs fs'
    ∧ video_run_shape url output_dir st b evs fs'.
Proof.
  destruct (is_direct_video_url url) eqn:Hdirect.
  - destruct (download_video_direct_run url output_dir st Hdirect)
      as (b & evsS & fs' & Hrun & HsS).
    eexists b, _, fs'. split; [exact Hrun|].
    unfold video_run_shape. rewrite Hdirect. by exists evsS.
  - by apply download_video_page_run.
Qed.

End Orchestrator.

(** *** Locating the page fetch in a trace *)

Lemma strategy_event_not_page_fetch e :
  strategy_event e = true → is_page_fetch e = false.
Proof.
  unfold strategy_event. destruct (is_page_fetch e); [done|done].
Qed.

Lemma strategy_event_not_manual e :
  strategy_event e = true → is_manual e = false.
Proof.
  unfold strategy_event.
  destruct (is_page_fetch e), (is_manual e); done.
Qed.

Lemma strategy_events_no (P : event → bool) evs :
  (∀ e, strategy_event e = true → P e = false) →
  forallb strategy_event evs = true →
  forallb (λ e, negb (P e)) evs = true.
Proof.
  intros HP. rewrite !forallb_forall. intros H e He.
  by rewrite (HP e (H e He)).
Qed.

Lemma absent_in_middle (P : event → bool) pre x post :
  forallb (λ e, negb (P e)) (pre ++ x :: post) = true → P x = false.
Proof.
  rewrite forallb_app. simpl. rewrite !andb_true_iff.
  intros (_ & Hx & _). by destruct (P x).
Qed.

Lemma unique_split (P : event → bool) l1 : ∀ l1' x x' l2 l2',
  forallb (λ e, negb (P e)) l1 = true →
  forallb (λ e, negb (P e)) l2 = true →
  P x = true → P x' = true →
  l1 ++ x :: l2 = l1' ++ x' :: l2' →
  l1 = l1' ∧ x = x' ∧ l2 = l2'.
Proof.
  induction l1 as [|a l1 IH]; intros l1' x x' l2 l2' H1 H2 Hx Hx' Heq.
  - destruct l1' as [|a' l1']; simpl in Heq.
    + by injection Heq as -> ->.
    + injection Heq as -> ->.
      apply absent_in_middle in H2. congruence.
  - destruct l1' as [|a' l1']; simpl in Heq, H1.
    + injection Heq as Ha _. subst a. rewrite Hx' in H1. done.
    + injection Heq as -> Heq. apply andb_true_iff in H1 as [_ H1].
      destruct (IH _ _ _ _ _ H1 H2 Hx Hx' Heq) as (-> & -> & ->). done.
Qed.

(** C5: a run whose page fetch failed returns Failure, and after the fetch
    it only prints the error and the manual instructions: no download
    strategy is called any more.  Nothing of the extractor is consulted
    either: with any other parser, [urljoin] and set walk the run is the
    same. *)
Theorem fetch_failure_is_terminal `{RT : Runtime} `{W : World}
    (url output_dir : string) (st : state) (r : result bool)
    (evs : list event) (fs' : gmap string string)
    (pre post : list event) (get_url : string)
    (headers : list (string * string)) (timeout : nat) (reply : http_reply) :
  runs (download_video url output_dir) st r evs fs' →
  evs = pre ++ EvGet get_url headers false timeout reply :: post →
  fetch_fails reply = true →
  r = Ok false
  ∧ post = [EvPrint (OutFetchError (fetch_error reply));
            EvPrint (OutManual (Str.take 80 url))]
  ∧ calls post = []
  ∧ (get_url = url ∧ headers = fetch_headers ∧ timeout = 30)
  ∧ ∀ RT' : Runtime,
      runs (@download_video RT' W url output_dir) st (Ok false) evs fs'.
Proof.
  intros Hrun -> Hfails.
  destruct (download_video_run url output_dir st)
    as (b & evs0 & fs0 & Hrun0 & Hshape).
  destruct (runs_det _ _ _ _ _ _ _ _ Hrun Hrun0) as (-> & Hevs & ->).
  pose proof (strategy_events_no is_page_fetch) as Hno.
  specialize (Hno) with (1 := strategy_event_not_page_fetch).
  unfold video_run_shape in Hshape.
  destruct (is_direct_video_url url).
  { destruct Hshape as (evsS & HsS & Heq). exfalso.
    assert (Hnone : forallb (λ e, negb (is_page_fetch e)) evs0 = true).
    { rewrite Heq, !forallb_app, (Hno evsS HsS). by destruct b. }
    rewrite <- Hevs in Hnone. by apply absent_in_middle in Hnone. }
  destruct Hshape as (evsY & HsY & [[-> Heq]|(reply0 & Hcase)]).
  { exfalso.
    assert (Hnone : forallb (λ e, negb (is_page_fetch e)) evs0 = true).
    { by rewrite Heq, !forallb_app, (Hno evsY HsY). }
    rewrite <- Hevs in Hnone. by apply absent_in_middle in Hnone. }
  set (before := opening url output_dir ++ [EvPrint OutStep1] ++ evsY
                 ++ [EvPrint OutYtCouldNot; EvPrint OutStep2]).
  assert (Hbefore : forallb (λ e, negb (is_page_fetch e)) before = true).
  { subst before. by rewrite !forallb_app, (Hno evsY HsY). }
  destruct Hcase as [(Hf & -> & Heq & Hany)|(Hf & evsL & HsL & Heq)].
  - assert (Heq' : evs0 = before
                   ++ EvGet url fetch_headers false 30 reply0
                   :: [EvPrint (OutFetchError (fetch_error reply0));
                       EvPrint (OutManual (Str.take 80 url))]).
    { rewrite Heq. subst before. unfold fetching.
      by rewrite <- !app_assoc. }
    rewrite Heq' in Hevs. symmetry in Hevs.
    apply (unique_split is_page_fetch) in Hevs as (Hpre & Hget & <-);
      [|done..].
    injection Hget as <- <- <- <-.
    split_and!; [done..|]. intros RT'. rewrite <- Hpre.
    rewrite Heq' in Hany. apply Hany.
  - exfalso.
    assert (Heq' : evs0 = before
                   ++ EvGet url fetch_headers false 30 reply0
                   :: (evsL ++ (if b then []
                                else [EvPrint (OutManual (Str.take 80 url))]))).
    { rewrite Heq. subst before. unfold fetching.
      by rewrite <- !app_assoc. }
    rewrite Heq' in Hevs. symmetry in Hevs.
    apply (unique_split is_page_fetch) in Hevs as (_ & Hget & _);
      [|try done..].
    + injection Hget as _ _ _ <-. congruence.
    + rewrite forallb_app, (Hno evsL HsL). by destruct b.
Qed.

Lemma fetch_failure_is_terminal_witness :
  let url := "https://example.com/page" in
  let reply := ConnError "ConnectionError" in
  ∃ st',
    download_video (RT := runtime_forward) (W := world_offline)
      url "./downloads" initial_state = (Ok false, st')
    ∧ ∃ pre, trace st'
        = pre ++ EvGet url fetch_headers false 30 reply
          :: [EvPrint (OutFetchError (fetch_error reply));
              EvPrint (OutManual (Str.take 80 url))].
Proof.
  intros url reply.
  set (run := download_video (RT := runtime_forward) (W := world_offline)
                url "./downloads" initial_state).
  set (pre := [EvEnsureDependencies;
               EvPrint (OutBanner url "./downloads");
               EvPrint OutStep1;
               EvMakedirs "./downloads";
               EvPrint (OutAttempting url);
               EvRun (yt_cmd url "./downloads" false) (1%Z, "");
               EvPrint OutYtCouldNot; EvPrint OutStep2]).
  set (post := skipn 9 (trace run.2)).
  assert (Hrun : runs (download_video (RT := runtime_forward)
                         (W := world_offline) url "./downloads")
                   initial_state run.1 (trace run.2) (fs run.2)).
  { vm_compute. reflexivity. }
  assert (Hsplit : trace run.2
                   = pre ++ EvGet url fetch_headers false 30 reply :: post).
  { vm_compute. reflexivity. }
  destruct (fetch_failure_is_terminal (RT := runtime_forward)
              (W := world_offline) url "./downloads" initial_state
              run.1 (trace run.2) (fs run.2) pre post url fetch_headers 30
              reply Hrun Hsplit eq_refl) as (Hr & Hpost & _).
  exists run.2. split.
  - rewrite <- Hr. by destruct run.
  - exists pre. by rewrite <- Hpost.
Defined.

(** ** Reporting a failure *)

(** The claim of C7 fails on the direct-video-URL branch: a failed run on a
    direct video URL ends with status 1 without ever printing the manual
    instructions. *)
Lemma direct_url_failure_prints_no_manual :
  let st := (main (RT := runtime_forward) (W := world_offline)
               ["download_video.py"; "https://example.com/clip.mp4"]
               initial_state).2 in
  exit_code st = Some 1%Z
  ∧ existsb is_manual (trace st) = false
  ∧ trace st
    = [EvEnsureDependencies;
       EvPrint (OutBanner "https://example.com/clip.mp4" "./downloads");
       EvPrint OutDirectDetected;
       EvMakedirs "./downloads";
       EvPrint (OutAttempting "https://example.com/clip.mp4");
       EvRun (yt_cmd "https://example.com/clip.mp4" "./downloads" true)
         (1%Z, "");
       EvMakedirs "./downloads";
       EvPrint (OutDirectTo "./downloads/clip.mp4");
       EvGet "https://example.com/clip.mp4" direct_headers true 60
         (ConnError "ConnectionError");
       EvPrint (OutDirectFailed "ConnectionError");
       EvPrint OutFailedToDownload;
       EvExit 1].
Proof. vm_compute. done. Qed.

(** C7, amended: every run ends, with status 0 on Success and 1 on
    Failure.  A failed run on a page URL prints the manual instructions
    last, once, after the message that yt-dlp could not extract the video; a
    failed run on a direct video URL prints [Failed to download video.] last
    and never the manual instructions. *)
Theorem failure_reporting `{RT : Runtime} `{W : World}
    (argv : list string) (st : state) :
  let url := if (1 <? List.length argv)%nat then default "" (argv !! 1)
             else DEFAULT_URL in
  ∃ b evs fs',
    runs (download_video url "./downloads") st (Ok b) evs fs'
    ∧ runs (main argv) st (Ok tt)
           (evs ++ [EvExit (if b then 0 else 1)%Z]) fs'
    ∧ (b = false →
       if is_direct_video_url url
       then last evs = Some (EvPrint OutFailedToDownload)
            ∧ forallb (λ e, negb (is_manual e)) evs = true
       else ∃ before,
              evs = before ++ [EvPrint (OutManual (Str.take 80 url))]
              ∧ EvPrint OutYtCouldNot ∈ before
              ∧ forallb (λ e, negb (is_manual e)) before = true).
Proof.
  intros url.
  destruct (download_video_run url "./downloads" st)
    as (b & evs & fs' & Hrun & Hshape).
  exists b, evs, fs'. split; [done|]. split.
  { unfold main. fold url. apply runs_try_ok.
    eapply runs_bind_ok; [exact Hrun|]. by apply runs_emit. }
  intros ->.
  pose proof (strategy_events_no is_manual) as Hno.
  specialize (Hno) with (1 := strategy_event_not_manual).
  unfold video_run_shape in Hshape.
  destruct (is_direct_video_url url).
  { destruct Hshape as (evsS & HsS & ->). split.
    - rewrite !app_assoc. apply last_snoc.
    - by rewrite !forallb_app, (Hno evsS HsS). }
  destruct Hshape as (evsY & HsY & [[? _]|(reply & Hcase)]); [done|].
  destruct Hcase as [(_ & _ & -> & _)|(Hf & evsL & HsL & ->)].
  - exists (opening url "./downloads" ++ [EvPrint OutStep1] ++ evsY
            ++ fetching url reply
            ++ [EvPrint (OutFetchError (fetch_error reply))]).
    split_and!.
    + by rewrite <- !app_assoc.
    + rewrite !elem_of_app. do 3 right. left. unfold fetching. left.
    + by rewrite !forallb_app, (Hno evsY HsY).
  - exists (opening url "./downloads" ++ [EvPrint OutStep1] ++ evsY
            ++ fetching url reply ++ evsL).
    split_and!.
    + by rewrite <- !app_assoc.
    + rewrite !elem_of_app. do 3 right. left. unfold fetching. left.
    + by rewrite !forallb_app, (Hno evsY HsY), (Hno evsL HsL).
Qed.

Example default_page_offline :
  let st := (main (RT := runtime_forward) (W := world_offline)
               ["download_video.py"] initial_state).2 in
  exit_code st = Some 1%Z
  ∧ last (trace st) = Some (EvExit 1)
  ∧ List.filter is_manual (trace st)
    = [EvPrint (OutManual (Str.take 80 DEFAULT_URL))].
Proof. vm_compute. done. Qed.

Example page_url_yt_dlp_succeeds :
  let url := "https://example.com/page" in
  let st := (main (RT := runtime_forward)
               (W := world_yt_knows url (fun _ => ConnError "down"))
               ["download_video.py"; url] initial_state).2 in
  exit_code st = Some 0%Z ∧ existsb is_manual (trace st) = false.
Proof. vm_compute. done. Qed.

(* ================================================================= *)
(** * Further properties of the code *)

(** ** The classifier on longer strings *)

Lemma lower_app (a b : string) :
  Str.lower (a ++ b)%string = (Str.lower a ++ Str.lower b)%string.
Proof.
  induction a as [|c a IH]; [done|].
  change (String (Str.lower_char c) (Str.lower (a ++ b)%string)
          = String (Str.lower_char c) (Str.lower a ++ Str.lower b)%string).
  by rewrite IH.
Qed.

Lemma any_in_grows needles hay a b :
  Str.any_in needles hay = true →
  Str.any_in needles (a ++ hay ++ b)%string = true.
Proof.
  rewrite !any_in_spec. intros (x & Hx & pre & post & ->).
  exists x. split; [done|]. exists (a ++ pre)%string, (post ++ b)%string.
  by rewrite !str_app_assoc.
Qed.

(** X1: a string that contains a direct video URL is itself classified as
    a direct video URL: text before or after (a query string, a prefix)
    never turns the answer of [is_direct_video_url] from true to false. *)
Theorem classifier_substring_closed (url pre post : string) :
  is_direct_video_url url = true →
  is_direct_video_url (pre ++ url ++ post)%string = true.
Proof.
  unfold is_direct_video_url. cbv zeta. rewrite !lower_app.
  destruct (Str.any_in video_extensions (Str.lower url)) eqn:Hext.
  - intros _. by rewrite (any_in_grows _ _ (Str.lower pre) (Str.lower post) Hext).
  - destruct (Str.any_in video_services (Str.lower url)) eqn:Hsvc; [|done].
    intros _.
    rewrite (any_in_grows _ _ (Str.lower pre) (Str.lower post) Hsvc).
    by destruct (Str.any_in video_extensions
                   (Str.lower pre ++ Str.lower url ++ Str.lower post)%string).
Qed.

Lemma classifier_substring_closed_witness :
  is_direct_video_url "clip.MP4" = true
  ∧ is_direct_video_url ("https://cdn.example.com/" ++ "clip.MP4" ++ "?t=1")
    = true.
Proof.
  split; [reflexivity|].
  apply (classifier_substring_closed "clip.MP4" "https://cdn.example.com/"
           "?t=1"). reflexivity.
Defined.

Lemma any_in_subset (small big : list string) hay :
  small ⊆ big → Str.any_in small hay = true → Str.any_in big hay = true.
Proof.
  intros Hsub. rewrite !any_in_spec. intros (x & Hx & H). exists x.
  split; [by apply Hsub|done].
Qed.

(** X2: every URL for which the orchestrator would try the direct
    streamed download (the [.mp4]/[.webm]/[.mov] test of the direct branch,
    the [.mp4]/[.webm] test of the candidate loop) is a URL that
    [is_direct_video_url] accepts. *)
Theorem streamed_urls_are_direct_video_urls (url : string) :
  Str.any_in [".mp4"; ".webm"; ".mov"] (Str.lower url) = true
  ∨ wants_direct url = true →
  is_direct_video_url url = true.
Proof.
  intros H.
  assert (Hext : Str.any_in video_extensions (Str.lower url) = true).
  { destruct H as [H|H].
    - apply (any_in_subset [".mp4"; ".webm"; ".mov"]); [|done].
      unfold video_extensions. set_solver.
    - apply (any_in_subset [".mp4"; ".webm"]);
        [unfold video_extensions; set_solver|].
      unfold wants_direct in H. unfold Str.any_in. simpl.
      by rewrite orb_false_r. }
  unfold is_direct_video_url. by rewrite Hext.
Qed.

Lemma streamed_urls_are_direct_video_urls_witness :
  wants_direct "https://cdn.example.com/v/Clip.WebM?sig=1" = true
  ∧ is_direct_video_url "https://cdn.example.com/v/Clip.WebM?sig=1" = true.
Proof.
  split; [reflexivity|].
  apply (streamed_urls_are_direct_video_urls
           "https://cdn.example.com/v/Clip.WebM?sig=1").
  right. reflexivity.
Defined.

(** ** Deduplication once more *)

Lemma keep_first_id l : ∀ earlier,
  NoDup l.*2 → (∀ u, u ∈ l.*2 → u ∉ earlier) → keep_first earlier l = l.
Proof.
  induction l as [|c l IH]; intros earlier Hnd Hfresh; simpl; [done|].
  rewrite fmap_cons in Hnd. apply NoDup_cons in Hnd as [Hc Hnd].
  rewrite decide_False by (apply Hfresh; rewrite fmap_cons; left).
  f_equal. apply IH; [done|]. intros u Hu.
  rewrite elem_of_app, list_elem_of_singleton. intros [He| ->].
  - apply (Hfresh u); [rewrite fmap_cons; by right|done].
  - done.
Qed.

(** X3: deduplicating twice is deduplicating once, a list without
    repeated URLs is returned unchanged, and the result is never longer than
    the input. *)
Theorem dedup_idempotent (l : list candidate) :
  dedup (dedup l) = dedup l
  ∧ (NoDup l.*2 → dedup l = l)
  ∧ (List.length (dedup l) ≤ List.length l)%nat.
Proof.
  assert (Hid : ∀ k : list candidate, NoDup k.*2 → dedup k = k).
  { intros k Hk. rewrite dedup_first_occurrences.
    apply keep_first_id; [done|]. intros u _. apply not_elem_of_nil. }
  split_and!.
  - apply Hid. rewrite dedup_first_occurrences. apply keep_first_NoDup.
  - apply Hid.
  - rewrite dedup_first_occurrences. apply sublist_length, keep_first_sublist.
Qed.

(** ** What the extractor returns, and what it does not *)

Lemma set_iter_nil `{RT : Runtime} : set_iter_ok RT → set_iter [] = [].
Proof.
  intros Hok. destruct (Hok []) as [_ Hmem].
  destruct (set_iter []) as [|x l]; [done|].
  exfalso. eapply not_elem_of_nil, Hmem. left.
Qed.

(** X4: on a page without [<video>] and [<iframe>] tags in which none of
    the nine patterns matches, the extractor returns the empty list. *)
Theorem extract_nothing_found `{RT : Runtime} (html base_url : string) :
  set_iter_ok RT →
  soup_find_all (html_parser html) "video" = [] →
  soup_find_all (html_parser html) "iframe" = [] →
  Forall (λ p, findall false p html = [])
         (wistia_patterns ++ vimeo_patterns ++ youtube_patterns) →
  findall true video_file_pattern html = [] →
  extract_video_urls html base_url = [].
Proof.
  intros Hok Hvideo Hiframe Hpat Hfile.
  assert (Hnone : ∀ kind mk ps,
            ps ⊆ wistia_patterns ++ vimeo_patterns ++ youtube_patterns →
            pattern_candidates kind mk ps html = []).
  { intros kind mk ps Hsub. unfold pattern_candidates.
    induction ps as [|p ps IH]; [done|]. simpl.
    rewrite Forall_forall in Hpat. rewrite (Hpat p), (set_iter_nil Hok).
    - simpl. apply IH. set_solver.
    - apply Hsub. left. }
  unfold extract_video_urls, collect, method1, method2, method3, method4,
    method5, method6.
  rewrite Hvideo, Hiframe, Hfile, (set_iter_nil Hok), !Hnone; [done|..];
    set_solver.
Qed.

Lemma extract_nothing_found_witness :
  extract_video_urls (RT := runtime_forward)
    "<p>Nothing to watch here.</p>" "https://example.com/page" = [].
Proof.
  apply (extract_nothing_found (RT := runtime_forward)
           "<p>Nothing to watch here.</p>" "https://example.com/page"
           walk_forward_ok).
  - reflexivity.
  - reflexivity.
  - repeat constructor.
  - reflexivity.
Defined.

Lemma truthy_inv (v : option string) :
  truthy v = true → ∃ s, v = Some s ∧ s ≠ "".
Proof.
  destruct v as [s|]; [|done]. simpl.
  destruct (String.eqb_spec s ""); [done|]. eauto.
Qed.

Section Provenance.
Context {RT : Runtime}.
Hypothesis walk_ok : set_iter_ok RT.

Lemma method1_found html base_url k u :
  (k, u) ∈ method1 (html_parser html) base_url → found_by html base_url k u.
Proof.
  unfold method1. rewrite elem_of_flat_map. intros (video & Hv & Hc).
  unfold video_candidates in Hc. apply elem_of_app in Hc as [Hc|Hc].
  - destruct (truthy (get video "src")) eqn:Ht;
      [|by apply elem_of_nil in Hc].
    apply truthy_inv in Ht as (src & Hsrc & Hne). rewrite Hsrc in Hc.
    apply list_elem_of_singleton in Hc. injection Hc as -> ->.
    by exists video, src.
  - apply elem_of_flat_map in Hc as (source & Hs & Hc).
    destruct (truthy (get source "src")) eqn:Ht;
      [|by apply elem_of_nil in Hc].
    apply truthy_inv in Ht as (src & Hsrc & Hne). rewrite Hsrc in Hc.
    apply list_elem_of_singleton in Hc. injection Hc as -> ->.
    by exists video, source, src.
Qed.

Lemma method2_found html base_url k u :
  (k, u) ∈ method2 (html_parser html) → found_by html base_url k u.
Proof.
  unfold method2. rewrite elem_of_flat_map. intros (iframe & Hi & Hc).
  unfold iframe_candidates in Hc.
  destruct (truthy (py_or _ _)) eqn:Ht; [|by apply elem_of_nil in Hc].
  apply truthy_inv in Ht as (src & Hsrc & Hne). rewrite Hsrc in Hc.
  change (default "" (Some src)) with src in Hc.
  destruct (Str.any_in video_hosts (Str.lower src)) eqn:Hhost;
    [|by apply elem_of_nil in Hc].
  apply list_elem_of_singleton in Hc. injection Hc as -> ->.
  exists iframe. split_and!; [done| |done|done].
  unfold py_or in Hsrc.
  destruct (truthy (get iframe "src")) eqn:Hts; [by left|by right].
Qed.

Lemma pattern_candidates_found kind mk ps html k u :
  (k, u) ∈ pattern_candidates kind mk ps html →
  k = kind ∧ ∃ p vid_id, p ∈ ps ∧ vid_id ∈ findall false p html
                          ∧ u = mk vid_id.
Proof.
  unfold pattern_candidates. rewrite elem_of_flat_map.
  intros (p & Hp & Hc). change (map ?f ?l) with (f <$> l) in Hc.
  apply list_elem_of_fmap in Hc as (vid_id & Heq & Hid).
  injection Heq as -> ->. split; [done|]. exists p, vid_id.
  split_and!; [done| |done]. by apply walk_ok.
Qed.

Lemma collect_found html base_url k u :
  (k, u) ∈ collect html base_url → found_by html base_url k u.
Proof.
  unfold collect. rewrite !elem_of_app.
  intros [H|[H|[H|[H|[H|H]]]]].
  - by apply method1_found.
  - by apply method2_found.
  - by apply pattern_candidates_found in H as [-> H].
  - by apply pattern_candidates_found in H as [-> H].
  - by apply pattern_candidates_found in H as [-> H].
  - unfold method6 in H. change (map ?f ?l) with (f <$> l) in H.
    apply list_elem_of_fmap in H as (m & Heq & Hm).
    injection Heq as -> ->. exists m. split; [|done]. by apply walk_ok.
Qed.

End Provenance.

(** X5: the extractor invents nothing: every returned candidate was found
    by the method its kind names, from a tag of the parsed page or from a
    match of one of that method's patterns in the page text. *)
Theorem extract_candidates_are_found `{RT : Runtime}
    (html base_url : string) (k : source_kind) (u : string) :
  set_iter_ok RT →
  (k, u) ∈ extract_video_urls html base_url →
  found_by html base_url k u.
Proof.
  intros Hok Hin. apply (collect_found Hok).
  unfold extract_video_urls in Hin. rewrite dedup_first_occurrences in Hin.
  eapply elem_of_sublist; [exact Hin|apply keep_first_sublist].
Qed.

Lemma extract_candidates_are_found_witness :
  ∃ p vid_id,
    p ∈ wistia_patterns ∧ vid_id ∈ findall false p page_two_wistia
    ∧ "https://fast.wistia.net/embed/iframe/def456" = wistia_url vid_id.
Proof.
  apply (extract_candidates_are_found (RT := runtime_forward)
           page_two_wistia "https://example.com/page" wistia
           "https://fast.wistia.net/embed/iframe/def456" walk_forward_ok).
  vm_compute. right. right. left.
Defined.

(** X8: a non-empty [src] shuts out [data-src]: an [<iframe>] whose [src]
    names no video host contributes no candidate, whatever its [data-src]
    holds. *)
Theorem iframe_src_shadows_data_src (iframe : node) (src : string) :
  get iframe "src" = Some src → src ≠ "" →
  Str.any_in video_hosts (Str.lower src) = false →
  iframe_candidates iframe = []
  ∧ ∀ soup, soup_find_all soup "iframe" = [iframe] → method2 soup = [].
Proof.
  intros Hsrc Hne Hhost.
  assert (Hnone : iframe_candidates iframe = []).
  { unfold iframe_candidates, py_or.
    rewrite Hsrc, (truthy_Some src Hne), (truthy_Some src Hne).
    change (default "" (Some src)) with src. by rewrite Hhost. }
  split; [done|]. intros soup Hsoup. unfold method2.
  rewrite Hsoup. simpl. by rewrite Hnone.
Qed.

Lemma iframe_src_shadows_data_src_witness :
  get iframe_placeholder "data-src"
  = Some "https://play.vidyard.com/embed/9"
  ∧ iframe_candidates iframe_placeholder = [].
Proof.
  split; [vm_compute; reflexivity|].
  apply (iframe_src_shadows_data_src iframe_placeholder "about:blank").
  - vm_compute. reflexivity.
  - discriminate.
  - reflexivity.
Defined.

(** ** Soundness of the matcher *)

Lemma run_sound {A} (ic : bool) (r : re) :
  ∀ s cap (k : string → option string → option A) x,
    run ic r s cap k = Some x →
    ∃ s' cap', consumes ic r s cap s' cap' ∧ k s' cap' = Some x.
Proof.
  induction r as [|c|p|a IHa b IHb|a IHa b IHb|a IHa|a IHa];
    intros s cap k x Hrun; simpl in Hrun.
  - exists s, cap. split; [constructor|done].
  - destruct s as [|d s]; [done|].
    destruct (lit_eq ic c d) eqn:Heq; [|done].
    exists s, cap. split; [by constructor|done].
  - destruct s as [|d s]; [done|].
    destruct (p d) eqn:Hp; [|done].
    exists s, cap. split; [by constructor|done].
  - apply IHa in Hrun as (s1 & cap1 & Ha & Hrun).
    apply IHb in Hrun as (s2 & cap2 & Hb & Hk).
    exists s2, cap2. split; [by econstructor|done].
  - destruct (run ic a s cap k) eqn:Ha.
    + injection Hrun as ->. apply IHa in Ha as (s' & cap' & Ha & Hk).
      exists s', cap'. split; [by apply consumes_alt_l|done].
    + apply IHb in Hrun as (s' & cap' & Hb & Hk).
      exists s', cap'. split; [by apply consumes_alt_r|done].
  - revert Hrun. generalize (String.length s). intros n. revert s cap.
    induction n as [|n IHn]; intros s cap Hrun.
    + exists s, cap. split; [constructor|done].
    + destruct (run ic a s cap _) eqn:Ha.
      * injection Hrun as ->. apply IHa in Ha as (s1 & cap1 & Ha & Hloop).
        destruct (String.length s1 <? String.length s)%nat; [|done].
        apply IHn in Hloop as (s2 & cap2 & Hstar & Hk).
        exists s2, cap2. split; [by econstructor|done].
      * exists s, cap. split; [constructor|done].
  - apply IHa in Hrun as (s' & cap' & Ha & Hk).
    eexists s', _. split; [by econstructor|done].
Qed.

Lemma take_app_length (m s' : string) :
  Str.take (String.length (m ++ s')%string - String.length s') (m ++ s')%string
  = m.
Proof.
  induction m as [|c m IH].
  - change ("" ++ s')%string with s'. rewrite Nat.sub_diag. by destruct s'.
  - change (String c m ++ s')%string with (String c (m ++ s')%string).
    simpl String.length.
    assert (Hlen : (String.length s' ≤ String.length (m ++ s')%string)%nat).
    { clear. induction m as [|d m IHm]; [done|].
      change (String d m ++ s')%string with (String d (m ++ s')%string).
      simpl. lia. }
    rewrite Nat.sub_succ_l by done. simpl. by rewrite IH.
Qed.

Lemma consumes_star_class ic p s cap s' cap' :
  consumes ic (Star (Class p)) s cap s' cap' →
  ∃ g, s = (g ++ s')%string ∧ all_chars p g = true ∧ cap' = cap.
Proof.
  remember (Star (Class p)) as r eqn:Hr. intros H.
  induction H as [| | | | | |a s cap|a s cap s1 cap1 s2 cap2 Ha _ Hstar IH|];
    try discriminate.
  - by exists "".
  - injection Hr as ->. destruct (IH eq_refl) as (g & -> & Hg & ->).
    inversion Ha as [| |? d ? ? Hd| | | | | |]; subst.
    exists (String d g). split_and!; [done| |done]. simpl. by rewrite Hd.
Qed.

Lemma consumes_plus_class ic p s cap s' cap' :
  consumes ic (Plus (Class p)) s cap s' cap' →
  ∃ g, s = (g ++ s')%string ∧ well_formed_id p g ∧ cap' = cap.
Proof.
  unfold Plus. intros H.
  inversion H as [| | |? ? ? ? s1 cap1 ? ? Ha Hb| | | | |]; subst.
  inversion Ha as [| |? d ? ? Hd| | | | | |]; subst.
  apply consumes_star_class in Hb as (g & -> & Hg & ->).
  exists (String d g). split_and!; [done| |done].
  split; [done|]. simpl. by rewrite Hd.
Qed.

Lemma consumes_keeps_capture ic p r s cap s' cap' :
  consumes ic r s cap s' cap' → groups_are p r →
  good_capture p cap → good_capture p cap'.
Proof.
  induction 1 as [| | |a b s cap s1 cap1 s2 cap2 _ IHa _ IHb
                  |a b s cap s' cap' _ IH|a b s cap s' cap' _ IH
                  |
                  |a s cap s1 cap1 s2 cap2 _ IHa _ IHs
                  |a s cap s' cap' Ha _]; simpl; intros Hg Hcap; try done.
  - destruct Hg. auto.
  - destruct Hg. auto.
  - destruct Hg. auto.
  - auto.
  - subst a. apply consumes_plus_class in Ha as (g & -> & Hwf & _).
    exists g. by rewrite take_app_length.
Qed.

Lemma consumes_sets_capture ic p r s cap s' cap' :
  consumes ic r s cap s' cap' → groups_are p r → must_capture r = true →
  good_capture p cap'.
Proof.
  induction 1 as [| | |a b s cap s1 cap1 s2 cap2 Ha IHa Hb IHb
                  |a b s cap s' cap' _ IH|a b s cap s' cap' _ IH
                  |
                  |a s cap s1 cap1 s2 cap2 _ IHa _ IHs
                  |a s cap s' cap' Ha _]; simpl; intros Hg Hmust; try done.
  - destruct Hg as [Hga Hgb].
    destruct (must_capture b) eqn:Hmb; [by apply IHb|].
    rewrite orb_false_r in Hmust.
    eapply consumes_keeps_capture; [exact Hb|done|by apply IHa].
  - destruct Hg. apply andb_true_iff in Hmust as [? ?]. auto.
  - destruct Hg. apply andb_true_iff in Hmust as [? ?]. auto.
  - subst a. apply consumes_plus_class in Ha as (g & -> & Hwf & _).
    exists g. by rewrite take_app_length.
Qed.

Lemma findall_fuel_sound ic r fuel : ∀ s g,
  g ∈ findall_fuel fuel ic r s → ∃ t s', match_here ic r t = Some (g, s').
Proof.
  induction fuel as [|fuel IH]; intros s g; simpl; [by rewrite elem_of_nil|].
  destruct (match_here ic r s) as [[g0 s']|] eqn:Hm.
  - rewrite elem_of_cons. intros [->|Hg]; [eauto|].
    destruct (String.length s' <? String.length s)%nat; [eauto|].
    destruct s; [by apply elem_of_nil in Hg|eauto].
  - destruct s; [by rewrite elem_of_nil|eauto].
Qed.

Lemma findall_ids_well_formed ic p r s g :
  groups_are p r → must_capture r = true →
  g ∈ findall ic r s → well_formed_id p g.
Proof.
  intros Hg Hmust Hin.
  apply findall_fuel_sound in Hin as (t & s' & Hm).
  unfold match_here in Hm.
  apply run_sound in Hm as (s1 & cap1 & Hc & Hk).
  destruct (consumes_sets_capture _ _ _ _ _ _ _ Hc Hg Hmust)
    as (g0 & -> & Hwf).
  simpl in Hk. by injection Hk as <- _.
Qed.

Lemma wistia_patterns_capture :
  Forall (λ r, groups_are alnum r ∧ must_capture r = true) wistia_patterns.
Proof. unfold wistia_patterns. repeat constructor; simpl; tauto. Qed.

Lemma vimeo_patterns_capture :
  Forall (λ r, groups_are digit r ∧ must_capture r = true) vimeo_patterns.
Proof. unfold vimeo_patterns. repeat constructor; simpl; tauto. Qed.

Lemma youtube_patterns_capture :
  Forall (λ r, groups_are alnum_us_dash r ∧ must_capture r = true)
         youtube_patterns.
Proof. unfold youtube_patterns. repeat constructor; simpl; tauto. Qed.

(** X6: the provider candidates are canonical: the URL of every returned
    [wistia], [vimeo] or [youtube] candidate is the fixed prefix of its
    provider followed by an identifier that is not empty and made of
    letters and digits only (Wistia), digits only (Vimeo), or letters,
    digits, [_] and [-] only (YouTube). *)
Theorem provider_ids_well_formed `{RT : Runtime}
    (html base_url : string) (k : source_kind) (u : string) :
  set_iter_ok RT →
  (k, u) ∈ extract_video_urls html base_url →
  (k = wistia → ∃ vid_id, u = wistia_url vid_id
                          ∧ well_formed_id alnum vid_id)
  ∧ (k = vimeo → ∃ vid_id, u = vimeo_url vid_id
                           ∧ well_formed_id digit vid_id)
  ∧ (k = youtube → ∃ vid_id, u = youtube_url vid_id
                             ∧ well_formed_id alnum_us_dash vid_id).
Proof.
  intros Hok Hin.
  assert (Hfound : found_by html base_url k u).
  { apply (collect_found Hok).
    unfold extract_video_urls in Hin. rewrite dedup_first_occurrences in Hin.
    eapply elem_of_sublist; [exact Hin|apply keep_first_sublist]. }
  split_and!; intros ->; destruct Hfound as (p & vid_id & Hp & Hid & ->);
    exists vid_id; (split; [done|]).
  - pose proof wistia_patterns_capture as Hcap.
    rewrite Forall_forall in Hcap. destruct (Hcap p Hp).
    by eapply findall_ids_well_formed.
  - pose proof vimeo_patterns_capture as Hcap.
    rewrite Forall_forall in Hcap. destruct (Hcap p Hp).
    by eapply findall_ids_well_formed.
  - pose proof youtube_patterns_capture as Hcap.
    rewrite Forall_forall in Hcap. destruct (Hcap p Hp).
    by eapply findall_ids_well_formed.
Qed.

Lemma provider_ids_well_formed_witness :
  ∃ vid_id, "https://fast.wistia.net/embed/iframe/abc123" = wistia_url vid_id
            ∧ well_formed_id alnum vid_id.
Proof.
  assert (Hin : (wistia, "https://fast.wistia.net/embed/iframe/abc123")
                ∈ extract_video_urls (RT := runtime_forward)
                    page_two_wistia "https://example.com/page").
  { vm_compute. right. left. }
  apply (provider_ids_well_formed (RT := runtime_forward)
           page_two_wistia "https://example.com/page" wistia
           "https://fast.wistia.net/embed/iframe/abc123"
           walk_forward_ok Hin).
  reflexivity.
Defined.

(** ** Completeness of the matcher on the marker patterns *)

Lemma run_lit {A} (prefix : string) :
  ∀ t cap (k : string → option string → option A),
    run false (lit prefix) (prefix ++ t)%string cap k = k t cap.
Proof.
  induction prefix as [|c prefix IH]; intros t cap k; [done|].
  change (String c prefix ++ t)%string with (String c (prefix ++ t)%string).
  destruct prefix as [|d prefix].
  - simpl. unfold lit_eq. by rewrite Ascii.eqb_refl.
  - change (lit (String c (String d prefix)))
      with (Seq (Lit c) (lit (String d prefix))).
    simpl run. unfold lit_eq. rewrite Ascii.eqb_refl. apply IH.
Qed.

Lemma run_star_total {A} ic a s cap (k : string → option string → option A) :
  (∀ s' cap', is_Some (k s' cap')) → is_Some (run ic (Star a) s cap k).
Proof.
  intros Hk. simpl. destruct (String.length s) as [|n]; [apply Hk|].
  destruct (run ic a s cap _); [eauto|apply Hk].
Qed.

Lemma run_seq {A} ic a b s cap (k : string → option string → option A) :
  run ic (Seq a b) s cap k
  = run ic a s cap (λ s' cap', run ic b s' cap' k).
Proof. reflexivity. Qed.

Lemma run_group {A} ic a s cap (k : string → option string → option A) :
  run ic (Group a) s cap k
  = run ic a s cap (λ s' _,
      k s' (Some (Str.take (String.length s - String.length s') s))).
Proof. reflexivity. Qed.

Lemma run_class_cons {A} ic p d s cap
      (k : string → option string → option A) :
  run ic (Class p) (String d s) cap k = if p d then k s cap else None.
Proof. reflexivity. Qed.

Lemma match_here_marker prefix class c rest :
  class c = true →
  is_Some (match_here false (Seq (lit prefix) (Group (Plus (Class class))))
             (prefix ++ String c rest)%string).
Proof.
  intros Hc. unfold match_here, Plus.
  rewrite run_seq, run_lit, run_group, run_seq, run_class_cons, Hc.
  apply run_star_total. eauto.
Qed.

Lemma findall_fuel_finds ic r t pre : ∀ fuel,
  (String.length pre < fuel)%nat → is_Some (match_here ic r t) →
  findall_fuel fuel ic r (pre ++ t)%string ≠ [].
Proof.
  induction pre as [|c pre IH]; intros fuel Hfuel [x Hm].
  - destruct fuel as [|fuel]; [simpl in Hfuel; lia|].
    change ("" ++ t)%string with t. simpl. rewrite Hm. by destruct x.
  - destruct fuel as [|fuel]; [simpl in Hfuel; lia|].
    change (String c pre ++ t)%string with (String c (pre ++ t)%string).
    simpl. destruct (match_here ic r (String c (pre ++ t)%string))
      as [[g s']|]; [done|].
    apply IH; [simpl in Hfuel; lia|eauto].
Qed.

Lemma str_length_app (a b : string) :
  String.length (a ++ b)%string = (String.length a + String.length b)%nat.
Proof.
  induction a as [|c a IH]; [done|].
  change (String c a ++ b)%string with (String c (a ++ b)%string).
  simpl. by rewrite IH.
Qed.

Lemma findall_finds ic r pre t :
  is_Some (match_here ic r t) → ∃ g, g ∈ findall ic r (pre ++ t)%string.
Proof.
  intros Hm. unfold findall.
  pose proof (findall_fuel_finds ic r t pre
                (S (String.length (pre ++ t)%string))) as Hne.
  destruct (findall_fuel _ ic r (pre ++ t)%string) as [|g l].
  - exfalso. apply Hne; [|done|done]. rewrite str_length_app. lia.
  - exists g. left.
Qed.

Lemma groups_are_lit p (s : string) : groups_are p (lit s).
Proof.
  induction s as [|c s IH]; [done|]. destruct s as [|d s]; [done|].
  change (lit (String c (String d s))) with (Seq (Lit c) (lit (String d s))).
  by split.
Qed.

Lemma marker_pattern_listed m :
  m ∈ simple_markers →
  match m with
  | Marker _ _ kind mk =>
      marker_pattern m
      ∈ match kind with
        | wistia => wistia_patterns
        | vimeo => vimeo_patterns
        | _ => youtube_patterns
        end
      ∧ (kind = wistia ∧ mk = wistia_url
         ∨ kind = vimeo ∧ mk = vimeo_url
         ∨ kind = youtube ∧ mk = youtube_url)
  end.
Proof.
  unfold simple_markers. rewrite !elem_of_cons, elem_of_nil.
  intros [->|[->|[->|[->|[->|[->|[]]]]]]]; simpl;
    (split; [unfold wistia_patterns, vimeo_patterns, youtube_patterns;
             set_solver|tauto]).
Qed.

(** X7: pattern coverage.  When the page text contains one of the six
    marker texts ([wistia_async_], [player.vimeo.com/video/], [vimeo.com/],
    [youtube.com/embed/], [youtube.com/watch?v=], [youtu.be/]) directly
    followed by a character of the identifier class, the returned list holds
    a URL of that provider. *)
Theorem marker_yields_candidate `{RT : Runtime} (html base_url : string)
    (prefix : string) (class : ascii → bool) (kind : source_kind)
    (mk_url : string → string) (pre rest : string) (c : ascii) :
  set_iter_ok RT →
  Marker prefix class kind mk_url ∈ simple_markers →
  html = (pre ++ prefix ++ String c rest)%string →
  class c = true →
  ∃ k vid_id, (k, mk_url vid_id) ∈ extract_video_urls html base_url
              ∧ well_formed_id class vid_id.
Proof.
  intros Hok Hm -> Hc.
  destruct (marker_pattern_listed _ Hm) as [Hp Hkind]. simpl in Hp.
  destruct (findall_finds false
              (Seq (lit prefix) (Group (Plus (Class class)))) pre
              (prefix ++ String c rest)%string
              (match_here_marker prefix class c rest Hc)) as (g & Hg).
  assert (Hwf : well_formed_id class g).
  { eapply findall_ids_well_formed; [| |exact Hg].
    - split; [apply groups_are_lit|done].
    - simpl. apply orb_true_r. }
  set (html := (pre ++ prefix ++ String c rest)%string) in *.
  assert (Hraw : mk_url g ∈ (collect html base_url).*2).
  { apply list_elem_of_fmap. exists (kind, mk_url g). split; [done|].
    unfold collect, method3, method4, method5. rewrite !elem_of_app.
    destruct Hkind as [[-> ->]|[[-> ->]|[-> ->]]].
    - right; right; left. by eapply pattern_match_collected.
    - right; right; right; left. by eapply pattern_match_collected.
    - right; right; right; right; left.
      by eapply pattern_match_collected. }
  destruct (extract_has_url _ _ _ Hraw) as (i & k & Hi).
  exists k, g. split; [by eapply list_elem_of_lookup_2|done].
Qed.

Lemma marker_yields_candidate_witness :
  ∃ k vid_id,
    (k, youtube_url vid_id)
    ∈ extract_video_urls (RT := runtime_forward)
        ("see https://" ++ "youtu.be/" ++ "XYZ-789 now")
        "https://example.com/page"
    ∧ well_formed_id alnum_us_dash vid_id.
Proof.
  apply (marker_yields_candidate (RT := runtime_forward)
           ("see https://" ++ "youtu.be/" ++ "XYZ-789 now")
           "https://example.com/page"
           "youtu.be/" alnum_us_dash youtube youtube_url
           "see https://" "YZ-789 now" "X" walk_forward_ok).
  - unfold simple_markers. set_solver.
  - reflexivity.
  - reflexivity.
Defined.

(** ** Normalising the escaped slashes *)

Lemma replace_fuel_absent (c0 : ascii) (old' new : string) : ∀ fuel s,
  free_of c0 s = true → Str.replace_fuel fuel (String c0 old') new s = s.
Proof.
  induction fuel as [|fuel IH]; intros s Hfree; [done|].
  destruct s as [|c s]; [done|]. simpl in Hfree.
  apply andb_true_iff in Hfree as [Hc Hs]. simpl.
  rewrite (Ascii.eqb_sym c0 c).
  destruct (Ascii.eqb c c0); [done|]. simpl. by rewrite IH.
Qed.

(** X17: a [direct_file] candidate is the matched text with its escaped
    slashes turned back; when the matched text has no backslash, the
    candidate is that text, character for character. *)
Theorem direct_file_candidates_verbatim `{RT : Runtime}
    (html base_url u : string) :
  set_iter_ok RT →
  (direct_file, u) ∈ extract_video_urls html base_url →
  ∃ m, m ∈ findall true video_file_pattern html
       ∧ u = unescape_slashes m
       ∧ (free_of (ascii_of_nat 92) m = true → u = m).
Proof.
  intros Hok Hin.
  assert (Hfound : found_by html base_url direct_file u).
  { apply (collect_found Hok).
    unfold extract_video_urls in Hin. rewrite dedup_first_occurrences in Hin.
    eapply elem_of_sublist; [exact Hin|apply keep_first_sublist]. }
  destruct Hfound as (m & Hm & ->). exists m. split_and!; [done..|].
  intros Hfree. unfold unescape_slashes, Str.replace, backslash.
  change (String (ascii_of_nat 92) "" ++ "u002F")%string
    with (String (ascii_of_nat 92) "u002F").
  change (String (ascii_of_nat 92) "" ++ "/")%string
    with (String (ascii_of_nat 92) "/").
  rewrite (replace_fuel_absent _ _ _ _ m Hfree).
  by rewrite (replace_fuel_absent _ _ _ _ m Hfree).
Qed.

Lemma direct_file_candidates_verbatim_witness :
  let html := "var src = 'https://cdn.example.com/v/clip.mp4?token=1';" in
  ∃ m, m ∈ findall true video_file_pattern html
       ∧ "https://cdn.example.com/v/clip.mp4?token=1" = unescape_slashes m
       ∧ (free_of (ascii_of_nat 92) m = true
          → "https://cdn.example.com/v/clip.mp4?token=1" = m).
Proof.
  intros html.
  apply (direct_file_candidates_verbatim (RT := runtime_forward)
           html "https://example.com/page"
           "https://cdn.example.com/v/clip.mp4?token=1" walk_forward_ok).
  vm_compute. left.
Defined.

(** ** What yt-dlp's output shows *)



Example download_with_yt_dlp_echo :
  let W := fixed_world
             (fun _ => (0%Z, ("[youtube] abc: Downloading webpage" ++
                              String Str.newline
                                "  [download] Destination: Talk.mp4 " ++
                              String Str.newline "[download] 100%")%string))
             (fun _ => ConnError "down") in
  List.filter (λ e, negb (is_call e))
    (trace (download_with_yt_dlp (W := W) "https://example.com/page"
              "./downloads" false initial_state).2)
  = [EvMakedirs "./downloads";
     EvPrint (OutAttempting "https://example.com/page");
     EvPrint OutYtSuccess;
     EvPrint (OutYtLine "[download] Destination: Talk.mp4")].
Proof. vm_compute. reflexivity. Qed.

(** ** Where the direct download writes *)

Lemma free_of_app c0 (a b : string) :
  free_of c0 (a ++ b)%string = free_of c0 a && free_of c0 b.
Proof.
  induction a as [|c a IH]; [done|].
  change (String c a ++ b)%string with (String c (a ++ b)%string).
  unfold free_of in *. simpl. by rewrite IH, andb_assoc.
Qed.

Lemma basename_acc_no_slash (s : string) : ∀ cur,
  free_of "/" cur = true → free_of "/" (Str.basename_acc cur s) = true.
Proof.
  induction s as [|c s IH]; intros cur Hcur; simpl; [done|].
  destruct (Ascii.eqb c "/") eqn:Hc; [by apply IH|].
  apply IH. rewrite free_of_app, Hcur. unfold free_of. simpl.
  by rewrite Hc.
Qed.

Lemma free_of_no_prefix (name : string) :
  free_of "/" name = true → Str.starts_with "/" name = false.
Proof.
  destruct name as [|c name]; [done|]. unfold free_of. intros Hfree.
  change (all_chars _ (String c name))
    with (negb (Ascii.eqb c "/")
          && all_chars (λ c, negb (Ascii.eqb c "/")) name) in Hfree.
  change (Str.starts_with "/" (String c name))
    with (Ascii.eqb "/" c && Str.starts_with "" name).
  rewrite (Ascii.eqb_sym "/" c). by destruct (Ascii.eqb c "/").
Qed.

(** X10: the file of a direct download lies directly in the output
    directory.  The file name [download_direct] settles on is never empty,
    has a dot and no slash (it is the last segment of the URL path, or
    [video.mp4] when that segment is empty or has no dot), and the output
    path is the directory, a slash unless the directory is empty or ends
    with one, and that name. *)
Theorem direct_output_stays_in_directory `{RT : Runtime}
    (video_url output_dir : string) :
  let name := direct_filename video_url in
  name ≠ ""
  ∧ Str.contains "." name = true
  ∧ free_of "/" name = true
  ∧ direct_output_path video_url output_dir
    = (if String.eqb output_dir "" || Str.ends_with_slash output_dir
       then output_dir ++ name else output_dir ++ "/" ++ name)%string.
Proof.
  intros name.
  assert (Hbase : free_of "/" (Str.basename (url_path video_url)) = true).
  { by apply basename_acc_no_slash. }
  assert (Hname : name ≠ "" ∧ Str.contains "." name = true
                  ∧ free_of "/" name = true).
  { subst name. unfold direct_filename.
    destruct (String.eqb_spec (Str.basename (url_path video_url)) "")
      as [Heq|Hne]; simpl; [done|].
    destruct (Str.contains "." (Str.basename (url_path video_url))) eqn:Hdot;
      simpl; done. }
  destruct Hname as (Hne & Hdot & Hfree). split_and!; [done..|].
  unfold direct_output_path. fold (direct_filename video_url). fold name.
  unfold Str.path_join. by rewrite (free_of_no_prefix name Hfree).
Qed.

Example direct_output_paths :
  direct_output_path (RT := runtime_forward)
    "https://cdn.example.com/v/clip.mp4?sig=1" "./downloads"
  = "./downloads/clip.mp4"
  ∧ direct_output_path (RT := runtime_forward)
      "https://video.example.com/watch" "out/"
    = "out/video.mp4"
  ∧ direct_output_path (RT := runtime_forward)
      "https://cdn.example.com/media/" "" = "video.mp4".
Proof. vm_compute. done. Qed.

(** ** The direct download, from the reply *)

(** X11: when the server answers with a passing status, a usable
    [Content-Length] (or none) and the stream ends without an error,
    [download_direct] returns [True]; the output file then holds exactly
    the chunks received, in order, and no other file has changed. *)
Theorem download_direct_complete `{RT : Runtime} `{W : World}
    (video_url output_dir : string) (st : state) (r : response) :
  let path := direct_output_path video_url output_dir in
  http_result (trace st ++ [EvMakedirs output_dir;
                            EvPrint (OutDirectTo path)]) video_url
  = Reply r →
  status_passes r = true → length_parses r = true →
  stream_error r = None →
  ∃ evs fs',
    runs (download_direct video_url output_dir) st (Ok true) evs fs'
    ∧ fs' !! path = Some (join_chunks (chunks r))
    ∧ (∀ other, other ≠ path → fs' !! other = fs st !! other)
    ∧ calls evs = [EvGet video_url direct_headers true 60 (Reply r)].
Proof.
  intros path Hreply Hpass Hlen Herr.
  destruct (download_direct_run video_url output_dir st)
    as (evs & fs' & Hrun & Hcalls & _ & Hfs).
  fold path in Hrun, Hcalls, Hfs. rewrite Hreply in Hrun, Hcalls, Hfs.
  simpl in Hrun, Hfs. rewrite Hpass, Hlen, Herr in Hrun.
  rewrite Hpass, Hlen in Hfs. simpl in Hrun, Hfs.
  exists evs, fs'. split_and!; [done| | |done].
  - rewrite Hfs. apply lookup_insert_eq.
  - intros other Hne. rewrite Hfs. by apply lookup_insert_ne.
Qed.

Lemma download_direct_complete_witness :
  ∃ evs fs',
    runs (download_direct (RT := runtime_forward)
            (W := world_serving whole_stream)
            "https://cdn.example.com/v/clip.mp4" "./downloads")
         initial_state (Ok true) evs fs'
    ∧ fs' !! "./downloads/clip.mp4" = Some "abcdefg"
    ∧ (∀ other, other ≠ "./downloads/clip.mp4" →
         fs' !! other = (∅ : gmap string string) !! other)
    ∧ calls evs = [EvGet "https://cdn.example.com/v/clip.mp4" direct_headers
                     true 60 (Reply whole_stream)].
Proof.
  apply (download_direct_complete (RT := runtime_forward)
           (W := world_serving whole_stream)
           "https://cdn.example.com/v/clip.mp4" "./downloads"
           initial_state whole_stream); reflexivity.
Defined.

(** X12: when the request fails before anything is written (no answer, a
    status from 400 to 599, or a [Content-Length] that is not a number),
    [download_direct] catches the error and returns [False], and the file
    system is as it was: no file is created, none is truncated. *)
Theorem download_direct_early_failure `{RT : Runtime} `{W : World}
    (video_url output_dir : string) (st : state) :
  let path := direct_output_path video_url output_dir in
  let reply :=
    http_result (trace st ++ [EvMakedirs output_dir;
                              EvPrint (OutDirectTo path)]) video_url in
  file_opened reply = false →
  ∃ evs,
    runs (download_direct video_url output_dir) st (Ok false) evs (fs st)
    ∧ calls evs = [EvGet video_url direct_headers true 60 reply].
Proof.
  intros path reply Hclosed.
  destruct (download_direct_run video_url output_dir st)
    as (evs & fs' & Hrun & Hcalls & Hs & Hfs).
  fold path in Hrun, Hcalls, Hfs. fold reply in Hrun, Hcalls, Hfs.
  rewrite Hclosed in Hfs. subst fs'.
  assert (Hfalse : direct_succeeds reply = false).
  { unfold file_opened in Hclosed. unfold direct_succeeds.
    destruct reply as [e|r]; [done|]. by rewrite Hclosed. }
  rewrite Hfalse in Hrun. by exists evs.
Qed.

Lemma download_direct_early_failure_witness :
  ∃ evs,
    runs (download_direct (RT := runtime_forward)
            (W := world_serving not_found)
            "https://cdn.example.com/v/clip.mp4" "./downloads")
         {| trace := []; fs := {["./downloads/clip.mp4" := "old bytes"]} |}
         (Ok false) evs {["./downloads/clip.mp4" := "old bytes"]}
    ∧ calls evs = [EvGet "https://cdn.example.com/v/clip.mp4" direct_headers
                     true 60 (Reply not_found)].
Proof.
  exact (download_direct_early_failure (RT := runtime_forward)
           (W := world_serving not_found)
           "https://cdn.example.com/v/clip.mp4" "./downloads"
           {| trace := [];
              fs := {["./downloads/clip.mp4" := "old bytes"]} |}
           eq_refl).
Defined.

(** ** Writing the chunks *)

Lemma write_chunks_events path total cs :
  ∀ downloaded st content,
    fs st !! path = Some content →
    ∃ evs,
      runs (write_chunks path total downloaded cs) st (Ok tt) evs
           (<[path := (content ++ join_chunks cs)%string]> (fs st))
      ∧ List.filter is_write evs = map (EvWrite path) cs
      ∧ (total = 0%Z → evs = map (EvWrite path) cs)
      ∧ (total ≠ 0%Z → cs ≠ [] →
         last evs
         = Some (EvPrint
                   (OutProgress
                      (downloaded + String.length (join_chunks cs)) total)))
      ∧ (cs = [] → evs = []).
Proof.
  induction cs as [|chunk cs IH]; intros downloaded st content Hfile.
  { exists []. split_and!; [|done..]. apply runs_ret. simpl.
    rewrite str_app_nil_r. by apply insert_id. }
  set (st1 := {| trace := trace st ++ [EvWrite path chunk];
                 fs := <[path := (content ++ chunk)%string]> (fs st) |}).
  assert (Hw : runs (file_write path chunk) st (Ok tt)
                 [EvWrite path chunk] (fs st1)).
  { unfold runs, file_write. by rewrite Hfile. }
  set (n := downloaded + String.length chunk).
  set (report := if (total =? 0)%Z then []
                 else [EvPrint (OutProgress n total)]).
  assert (Hp : runs (if (total =? 0)%Z then ret tt
                     else print (OutProgress n total)) st1 (Ok tt)
                 report (fs st1)).
  { subst report. destruct (total =? 0)%Z;
      by (apply runs_ret || apply runs_print). }
  destruct (IH n {| trace := trace st1 ++ report; fs := fs st1 |}
              (content ++ chunk)%string) as (evs & Hrun & Hwrites & Hzero & Hlast & Hnil).
  { simpl. apply lookup_insert_eq. }
  exists ([EvWrite path chunk] ++ report ++ evs). split_and!.
  - simpl write_chunks. fold n.
    eapply runs_bind_ok; [exact Hw|].
    eapply runs_bind_ok; [exact Hp|].
    cbn [fs trace] in Hrun. subst st1. cbn [fs trace] in Hrun.
    rewrite insert_insert_eq, str_app_assoc in Hrun. exact Hrun.
  - rewrite !List.filter_app, Hwrites. subst report.
    by destruct (total =? 0)%Z.
  - intros ->. subst report. simpl. by rewrite Hzero.
  - intros Hne _. subst report.
    destruct (total =? 0)%Z eqn:Hz; [by apply Z.eqb_eq in Hz|].
    destruct cs as [|c2 cs].
    + rewrite (Hnil eq_refl). simpl. subst n. by rewrite str_app_nil_r.
    + rewrite !app_assoc, last_app, (Hlast Hne) by done. simpl.
      subst n. do 3 f_equal.
      rewrite !str_length_app. lia.
  - done.
Qed.

(** X16: the loop over the chunks writes every chunk once, in the order
    received, and nothing else, so that the file ends as its former bytes
    followed by the chunks.  Progress is reported only for a non-zero total;
    the last report then shows the number of bytes written. *)
Theorem write_chunks_writes_each_chunk_once
    (path : string) (total : Z) (cs : list string) (st : state)
    (content : string) :
  fs st !! path = Some content →
  ∃ evs fs',
    runs (write_chunks path total 0 cs) st (Ok tt) evs fs'
    ∧ fs' !! path = Some (content ++ join_chunks cs)%string
    ∧ List.filter is_write evs = map (EvWrite path) cs
    ∧ (total = 0%Z → evs = map (EvWrite path) cs)
    ∧ (total ≠ 0%Z → cs ≠ [] →
       last evs
       = Some (EvPrint (OutProgress (String.length (join_chunks cs)) total))).
Proof.
  intros Hfile.
  destruct (write_chunks_events path total cs 0 st content Hfile)
    as (evs & Hrun & Hwrites & Hzero & Hlast & _).
  exists evs, (<[path := (content ++ join_chunks cs)%string]> (fs st)).
  split_and!; [done| |done|done|done].
  apply lookup_insert_eq.
Qed.

Lemma write_chunks_writes_each_chunk_once_witness :
  ∃ evs fs',
    runs (write_chunks "out/clip.mp4" 7 0 ["abc"; "defg"])
         {| trace := []; fs := {["out/clip.mp4" := ""]} |} (Ok tt) evs fs'
    ∧ fs' !! "out/clip.mp4" = Some "abcdefg"
    ∧ List.filter is_write evs
      = [EvWrite "out/clip.mp4" "abc"; EvWrite "out/clip.mp4" "defg"]
    ∧ last evs = Some (EvPrint (OutProgress 7 7)).
Proof.
  assert (Hfile : fs {| trace := []; fs := {["out/clip.mp4" := ""]} |}
                  !! "out/clip.mp4" = Some "").
  { vm_compute. reflexivity. }
  destruct (write_chunks_writes_each_chunk_once
              "out/clip.mp4" 7 ["abc"; "defg"]
              {| trace := []; fs := {["out/clip.mp4" := ""]} |} ""
              Hfile) as (evs & fs' & Hrun & Hfs & Hw & _ & Hlast).
  exists evs, fs'. split_and!; [done|done|done|].
  apply Hlast; done.
Defined.

(** ** The calls of a whole run *)

Lemma yt_target_cmd url output_dir verbose res :
  yt_target (EvRun (yt_cmd url output_dir verbose) res) = Some url.
Proof. by destruct verbose. Qed.

Lemma page_fetch_calls evs :
  List.filter is_page_fetch evs = List.filter is_page_fetch (calls evs).
Proof.
  induction evs as [|e evs IH]; [done|].
  destruct e as [| | | |u h [] t reply| | |];
    cbn [calls List.filter is_call is_page_fetch]; fold (calls evs);
    by rewrite ?IH.
Qed.

Lemma succeeded_calls evs :
  existsb succeeded evs = existsb succeeded (calls evs).
Proof.
  induction evs as [|e evs IH]; [done|].
  destruct e; cbn [calls List.filter is_call existsb succeeded];
    fold (calls evs); by rewrite ?IH.
Qed.

Lemma loop_calls_succeeded output_dir l cs b :
  loop_calls output_dir l cs b →
  existsb succeeded cs = b
  ∧ (b = true → ∃ pre e, cs = pre ++ [e] ∧ succeeded e = true
                         ∧ existsb succeeded pre = false).
Proof.
  induction 1 as [|kind url rest res Hres
                  |kind url rest res later b Hres Hw Hl [IH1 IH2]
                  |kind url rest res reply Hres Hw Hok
                  |kind url rest res reply later b Hres Hw Hok Hl [IH1 IH2]].
  - by split.
  - cbn [existsb succeeded]. rewrite Hres. split; [done|]. intros _.
    exists [], (EvRun (yt_cmd url output_dir false) res).
    cbn [succeeded]. by rewrite Hres.
  - apply Z.eqb_neq in Hres. cbn [existsb succeeded]. rewrite Hres.
    split; [done|]. intros Hb.
    destruct (IH2 Hb) as (pre & e & -> & He & Hpre).
    exists (EvRun (yt_cmd url output_dir false) res :: pre), e.
    cbn [existsb succeeded]. by rewrite Hres.
  - apply Z.eqb_neq in Hres. cbn [existsb succeeded]. rewrite Hres, Hok.
    split; [done|]. intros _.
    exists [EvRun (yt_cmd url output_dir false) res],
      (EvGet url direct_headers true 60 reply).
    cbn [existsb succeeded]. by rewrite Hres.
  - apply Z.eqb_neq in Hres. cbn [existsb succeeded]. rewrite Hres, Hok.
    split; [done|]. intros Hb.
    destruct (IH2 Hb) as (pre & e & -> & He & Hpre).
    exists (EvRun (yt_cmd url output_dir false) res
            :: EvGet url direct_headers true 60 reply :: pre), e.
    cbn [existsb succeeded]. by rewrite Hres, Hok.
Qed.

Lemma loop_calls_targets output_dir l cs b :
  loop_calls output_dir l cs b →
  omap yt_target cs `prefix_of` l.*2
  ∧ (b = false → omap yt_target cs = l.*2).
Proof.
  induction 1 as [|kind url rest res Hres
                  |kind url rest res later b Hres Hw Hl [IH1 IH2]
                  |kind url rest res reply Hres Hw Hok
                  |kind url rest res reply later b Hres Hw Hok Hl [IH1 IH2]];
    cbn [omap list_omap fmap list_fmap snd];
    rewrite ?yt_target_cmd; cbn [yt_target].
  - done.
  - split; [|done]. apply prefix_cons, prefix_nil.
  - split; [by apply prefix_cons|]. intros Hb. by rewrite (IH2 Hb).
  - split; [|done]. apply prefix_cons, prefix_nil.
  - split; [by apply prefix_cons|]. intros Hb. by rewrite (IH2 Hb).
Qed.

Lemma loop_calls_streamed output_dir l cs b :
  loop_calls output_dir l cs b →
  List.filter is_page_fetch cs = [].
Proof. induction 1; done. Qed.

Section WholeRun.
Context {RT : Runtime} {W : World}.

Lemma download_video_direct_calls url output_dir st :
  is_direct_video_url url = true →
  ∃ b evs fs',
    runs (download_video url output_dir) st (Ok b) evs fs'
    ∧ video_calls url output_dir (calls evs) b.
Proof.
  intros Hdirect. unfold download_video. rewrite Hdirect.
  set (st1 := {| trace := ((trace st ++ [EvEnsureDependencies])
                           ++ [EvPrint (OutBanner (Str.take 70 url)
                                          output_dir)])
                          ++ [EvPrint OutDirectDetected];
                 fs := fs st |}).
  assert (Hhead : ∀ (k : M bool) b evs fs',
            runs k st1 (Ok b) evs fs' →
            runs (ensure_dependencies;;
                  print (OutBanner (Str.take 70 url) output_dir);;
                  print OutDirectDetected;; k) st (Ok b)
                 (opening url output_dir ++ [EvPrint OutDirectDetected]
                  ++ evs) fs').
  { intros k b evs fs' Hk. unfold opening, ensure_dependencies.
    change ([EvEnsureDependencies; ?x] ++ ?l)
      with ([EvEnsureDependencies] ++ [x] ++ l).
    eapply runs_bind_ok; [by apply runs_emit|].
    eapply runs_bind_ok; [by apply runs_print|].
    eapply runs_bind_ok; [by apply runs_print|]. exact Hk. }
  destruct (download_with_yt_dlp_run url output_dir true st1)
    as (res & evs1 & Hyt & Hc1 & _).
  assert (Hcalls : ∀ evs,
            calls (opening url output_dir ++ [EvPrint OutDirectDetected]
                   ++ evs1 ++ evs)
            = EvRun (yt_cmd url output_dir true) res :: calls evs).
  { intros evs. by rewrite !calls_app, Hc1. }
  set (st2 := {| trace := trace st1 ++ evs1; fs := fs st |}).
  destruct (fst res =? 0)%Z eqn:Hres.
  { exists true,
      (opening url output_dir ++ [EvPrint OutDirectDetected] ++ evs1 ++ []),
      (fs st).
    split.
    - apply Hhead. eapply runs_bind_ok; [exact Hyt|]. by apply runs_ret.
    - rewrite Hcalls. apply direct_yt_ok; [done|by apply Z.eqb_eq]. }
  apply Z.eqb_neq in Hres as Hne.
  assert (Hlast : ∀ (ok : bool) (st' : state),
            runs (if ok then ret true
                  else print OutFailedToDownload;; ret false) st' (Ok ok)
                 (if ok then [] else [EvPrint OutFailedToDownload] ++ [])
                 (fs st')).
  { intros [] st'; [by apply runs_ret|].
    eapply runs_bind_ok; [by apply runs_print|by apply runs_ret]. }
  assert (Hquiet : ∀ ok : bool,
            calls (if ok then [] else [EvPrint OutFailedToDownload] ++ [])
            = []).
  { by intros []. }
  destruct (Str.any_in [".mp4"; ".webm"; ".mov"] (Str.lower url)) eqn:Hany.
  - destruct (download_direct_run url output_dir st2)
      as (evs2 & fs2 & Hd & Hc2 & _ & _).
    set (reply := http_result _ url) in Hd, Hc2.
    eexists (direct_succeeds reply), _, fs2. split.
    + apply Hhead. eapply runs_bind_ok; [exact Hyt|].
      eapply runs_bind_ok; [exact Hd|]. apply Hlast.
    + rewrite Hcalls, calls_app, Hc2, Hquiet.
      by apply direct_streamed.
  - eexists false, _, _. split.
    + apply Hhead. eapply runs_bind_ok; [exact Hyt|].
      eapply runs_bind_silent; [by apply runs_ret|]. apply Hlast.
    + rewrite Hcalls. by apply direct_yt_only.
Qed.

Lemma download_video_page_calls url output_dir st :
  is_direct_video_url url = false →
  ∃ b evs fs',
    runs (download_video url output_dir) st (Ok b) evs fs'
    ∧ video_calls url output_dir (calls evs) b.
Proof.
  intros Hdirect.
  set (st1 := {| trace := ((trace st ++ [EvEnsureDependencies])
                           ++ [EvPrint (OutBanner (Str.take 70 url)
                                          output_dir)])
                          ++ [EvPrint OutStep1];
                 fs := fs st |}).
  destruct (download_with_yt_dlp_run url output_dir false st1)
    as (res & evsY & Hyt & HcY & _).
  set (st2 := {| trace := trace st1 ++ evsY; fs := fs st |}).
  assert (Hhead : ∀ (k : bool → M bool) b evs fs',
            runs (k (fst res =? 0)%Z) st2 (Ok b) evs fs' →
            runs (ensure_dependencies;;
                  print (OutBanner (Str.take 70 url) output_dir);;
                  print OutStep1;;
                  let* ok := download_with_yt_dlp url output_dir false in
                  k ok) st (Ok b)
                 (opening url output_dir ++ [EvPrint OutStep1] ++ evsY ++ evs)
                 fs').
  { intros k b evs fs' Hk. unfold opening, ensure_dependencies.
    change ([EvEnsureDependencies; ?x] ++ ?l)
      with ([EvEnsureDependencies] ++ [x] ++ l).
    eapply runs_bind_ok; [by apply runs_emit|].
    eapply runs_bind_ok; [by apply runs_print|].
    eapply runs_bind_ok; [by apply runs_print|].
    eapply runs_bind_ok; [exact Hyt|exact Hk]. }
  assert (Hcalls : ∀ evs,
            calls (opening url output_dir ++ [EvPrint OutStep1]
                   ++ evsY ++ evs)
            = EvRun (yt_cmd url output_dir false) res :: calls evs).
  { intros evs. by rewrite !calls_app, HcY. }
  destruct (fst res =? 0)%Z eqn:Hres.
  { exists true, (opening url output_dir ++ [EvPrint OutStep1] ++ evsY ++ []),
      (fs st).
    split.
    - unfold download_video. rewrite Hdirect. apply Hhead. by apply runs_ret.
    - rewrite Hcalls. apply page_yt_ok; [done|by apply Z.eqb_eq]. }
  apply Z.eqb_neq in Hres as Hne.
  set (st3 := {| trace := (trace st2 ++ [EvPrint OutYtCouldNot])
                          ++ [EvPrint OutStep2];
                 fs := fs st |}).
  pose proof (fetch_page_runs url st3) as Hfetch. cbv zeta in Hfetch.
  remember (http_result (trace st3) url) as reply eqn:Hreply.
  assert (Hmid : ∀ (k : M (option string)) (k' : option string → M bool)
                   fetched evs1 b evs fs',
            runs k st3 (Ok fetched) evs1 (fs st) →
            runs (k' fetched)
                 {| trace := trace st3 ++ evs1; fs := fs st |}
                 (Ok b) evs fs' →
            runs (print OutYtCouldNot;; print OutStep2;;
                  let* fetched := k in k' fetched) st2 (Ok b)
                 ([EvPrint OutYtCouldNot] ++ [EvPrint OutStep2] ++ evs1 ++ evs)
                 fs').
  { intros k k' fetched evs1 b evs fs' Hk Hk'.
    eapply runs_bind_ok; [by apply runs_print|].
    eapply runs_bind_ok; [by apply runs_print|].
    eapply runs_bind_ok; [exact Hk|exact Hk']. }
  destruct (fetch_fails reply) eqn:Hfails.
  { (* the page fetch failed *)
    eexists false, _, (fs st). split.
    - unfold download_video. rewrite Hdirect. apply Hhead. cbv beta iota.
      eapply Hmid.
      + eapply runs_try_raise.
        * eapply runs_bind_raise. exact Hfetch.
        * unfold print_manual_instructions.
          eapply runs_bind_ok; [by apply runs_print|].
          eapply runs_bind_ok; [by apply runs_print|by apply runs_ret].
      + by apply runs_ret.
    - rewrite Hcalls, !calls_app.
      cbn [calls List.filter is_call app].
      by apply page_fetch_failed. }
  (* the page was fetched *)
  destruct reply as [e|r]; [done|].
  cbn [fetch_fails] in Hfails. apply negb_false_iff in Hfails.
  set (html := text r) in *.
  set (st5 := {| trace := trace st3
                          ++ [EvGet url fetch_headers false 30 (Reply r)]
                          ++ [EvPrint (OutFetched (String.length html))] ++ [];
                 fs := fs st |}).
  assert (Hspa : ∃ evs_spa,
            runs (if (String.length html <? 5000)%nat
                     && Str.contains "<script" html
                  then print OutSpa else ret tt) st5 (Ok tt) evs_spa (fs st)
            ∧ calls evs_spa = []).
  { destruct (_ && _); eexists;
      (split; [by (apply runs_print || apply runs_ret)|done]). }
  destruct Hspa as (evs_spa & Hspa & Hc_spa).
  set (st6 := {| trace := (trace st5 ++ evs_spa) ++ [EvPrint OutStep3];
                 fs := fs st |}).
  set (video_urls := extract_video_urls html url).
  assert (Hloop : ∃ done evsL fs',
            runs (match video_urls with
                  | [] => ret false
                  | _ => print (OutFound (List.length video_urls));;
                         try_candidates output_dir video_urls
                  end) st6 (Ok done) evsL fs'
            ∧ loop_calls output_dir video_urls (calls evsL) done).
  { destruct video_urls as [|c l] eqn:Hurls.
    - exists false, [], (fs st). split; [by apply runs_ret|constructor].
    - destruct (try_candidates_run output_dir (c :: l)
                  {| trace := trace st6
                              ++ [EvPrint (OutFound (List.length (c :: l)))];
                     fs := fs st |}) as (done & evsL & fs' & Hl & Hlc & _).
      exists done, ([EvPrint (OutFound (List.length (c :: l)))] ++ evsL), fs'.
      split; [|by rewrite calls_app].
      eapply runs_bind_ok; [by apply runs_print|exact Hl]. }
  destruct Hloop as (done & evsL & fs' & Hloop & Hlc).
  assert (Htail : ∀ st',
            runs (if done then ret true
                  else print_manual_instructions url;; ret false) st'
                 (Ok done)
                 (if done then []
                  else [EvPrint (OutManual (Str.take 80 url))] ++ [])
                 (fs st')).
  { intros st'. destruct done; [by apply runs_ret|].
    unfold print_manual_instructions.
    eapply runs_bind_ok; [by apply runs_print|by apply runs_ret]. }
  assert (Hquiet : calls (if done then []
                          else [EvPrint (OutManual (Str.take 80 url))] ++ [])
                   = []).
  { by destruct done. }
  eexists done, _, fs'. split.
  - unfold download_video. rewrite Hdirect. apply Hhead. cbv beta iota.
    eapply Hmid.
    + eapply runs_try_ok.
      eapply runs_bind_ok; [exact Hfetch|].
      eapply runs_bind_ok; [by apply runs_print|by apply runs_ret].
    + cbv beta iota.
      eapply runs_bind_ok; [exact Hspa|].
      eapply runs_bind_ok; [by apply runs_print|].
      eapply runs_bind_ok; [exact Hloop|]. apply Htail.
  - rewrite Hcalls, !calls_app, Hc_spa, Hquiet.
    cbn [calls List.filter is_call app]. rewrite app_nil_r.
    by apply page_candidates.
Qed.

Lemma download_video_calls url output_dir st :
  ∃ b evs fs',
    runs (download_video url output_dir) st (Ok b) evs fs'
    ∧ video_calls url output_dir (calls evs) b.
Proof.
  destruct (is_direct_video_url url) eqn:Hdirect.
  - by apply download_video_direct_calls.
  - by apply download_video_page_calls.
Qed.

End WholeRun.

(** X13: [download_video] returns [True] exactly when one of its download
    attempts went well: a yt-dlp call that returned 0 or a streamed
    download that ran to its end.  That attempt is the last call of the
    run, and every call before it failed. *)
Theorem download_video_true_iff_attempt_succeeded `{RT : Runtime} `{W : World}
    (url output_dir : string) (st : state) :
  ∃ b evs fs',
    runs (download_video url output_dir) st (Ok b) evs fs'
    ∧ b = existsb succeeded evs
    ∧ (b = true →
       ∃ pre e, calls evs = pre ++ [e] ∧ succeeded e = true
                ∧ existsb succeeded pre = false).
Proof.
  destruct (download_video_calls url output_dir st)
    as (b & evs & fs' & Hrun & Hcalls).
  exists b, evs, fs'. split; [done|]. rewrite succeeded_calls.
  destruct Hcalls as [res Hd Hres|res Hd Hres Hany|res reply Hd Hres Hany
                     |res Hd Hres|res reply Hd Hres Hf
                     |res r later b Hd Hres Hpass Hloop].
  - cbn [existsb succeeded]. rewrite Hres. split; [done|]. intros _.
    exists [], (EvRun (yt_cmd url output_dir true) res).
    cbn [succeeded]. by rewrite Hres.
  - apply Z.eqb_neq in Hres. cbn [existsb succeeded]. rewrite Hres.
    by split.
  - apply Z.eqb_neq in Hres. cbn [existsb succeeded]. rewrite Hres.
    split; [by destruct (direct_succeeds reply)|]. intros Hok.
    exists [EvRun (yt_cmd url output_dir true) res],
      (EvGet url direct_headers true 60 reply).
    cbn [existsb succeeded]. by rewrite Hres.
  - cbn [existsb succeeded]. rewrite Hres. split; [done|]. intros _.
    exists [], (EvRun (yt_cmd url output_dir false) res).
    cbn [succeeded]. by rewrite Hres.
  - apply Z.eqb_neq in Hres. cbn [existsb succeeded]. rewrite Hres.
    by split.
  - apply Z.eqb_neq in Hres.
    destruct (loop_calls_succeeded _ _ _ _ Hloop) as [Hb Hlast].
    cbn [existsb succeeded]. rewrite Hres, Hb. split; [done|]. intros Htrue.
    destruct (Hlast Htrue) as (pre & e & -> & He & Hpre).
    exists (EvRun (yt_cmd url output_dir false) res
            :: EvGet url fetch_headers false 30 (Reply r) :: pre), e.
    cbn [existsb succeeded]. by rewrite Hres.
Qed.

(** X14: whatever the URL, the first call of a run is yt-dlp on the URL
    itself, with [--verbose] exactly when the URL is classified as a direct
    video URL.  When that call returns 0 it is the only call and the run
    returns [True]. *)
Theorem first_call_is_yt_dlp_on_the_url `{RT : Runtime} `{W : World}
    (url output_dir : string) (st : state) :
  ∃ b evs fs',
    runs (download_video url output_dir) st (Ok b) evs fs'
    ∧ ∃ res rest,
        calls evs
        = EvRun (yt_cmd url output_dir (is_direct_video_url url)) res :: rest
        ∧ (fst res = 0%Z → rest = [] ∧ b = true).
Proof.
  destruct (download_video_calls url output_dir st)
    as (b & evs & fs' & Hrun & Hcalls).
  exists b, evs, fs'. split; [done|].
  destruct Hcalls as [res Hd Hres|res Hd Hres Hany|res reply Hd Hres Hany
                     |res Hd Hres|res reply Hd Hres Hf
                     |res r later b Hd Hres Hpass Hloop];
    rewrite Hd; eexists res, _; (split; [reflexivity|]); by intros.
Qed.

(** X15: a run fetches the page at most once.  It does so only for a URL
    that is not a direct video URL, as the call that follows the failed
    yt-dlp call on that URL. *)
Theorem page_fetched_at_most_once `{RT : Runtime} `{W : World}
    (url output_dir : string) (st : state) :
  ∃ b evs fs',
    runs (download_video url output_dir) st (Ok b) evs fs'
    ∧ (List.filter is_page_fetch evs = []
       ∨ ∃ res reply later,
           is_direct_video_url url = false ∧ fst res ≠ 0%Z
           ∧ calls evs = EvRun (yt_cmd url output_dir false) res
                         :: EvGet url fetch_headers false 30 reply :: later
           ∧ List.filter is_page_fetch evs
             = [EvGet url fetch_headers false 30 reply]).
Proof.
  destruct (download_video_calls url output_dir st)
    as (b & evs & fs' & Hrun & Hcalls).
  exists b, evs, fs'. split; [done|]. rewrite page_fetch_calls.
  destruct Hcalls as [res Hd Hres|res Hd Hres Hany|res reply Hd Hres Hany
                     |res Hd Hres|res reply Hd Hres Hf
                     |res r later b Hd Hres Hpass Hloop].
  1-4: by left.
  - right. by exists res, reply, [].
  - right. exists res, (Reply r), later. split_and!; [done..|].
    cbn [List.filter is_page_fetch].
    by rewrite (loop_calls_streamed _ _ _ _ Hloop).
Qed.

(** X18: after a page fetch that went through, yt-dlp is called on the
    page URL and then on the extracted candidates in the order of the
    list, none skipped.  A run that returns [False] has tried every
    candidate. *)
Theorem failed_run_tried_every_candidate `{RT : Runtime} `{W : World}
    (url output_dir : string) (st : state) :
  ∃ b evs fs',
    runs (download_video url output_dir) st (Ok b) evs fs'
    ∧ ∀ r, EvGet url fetch_headers false 30 (Reply r) ∈ evs →
           status_passes r = true →
           omap yt_target (calls evs)
             `prefix_of` url :: (extract_video_urls (text r) url).*2
           ∧ (b = false →
              omap yt_target (calls evs)
              = url :: (extract_video_urls (text r) url).*2).
Proof.
  destruct (download_video_calls url output_dir st)
    as (b & evs & fs' & Hrun & Hcalls).
  exists b, evs, fs'. split; [done|]. intros r Hin Hpass.
  assert (Hin' : EvGet url fetch_headers false 30 (Reply r) ∈ calls evs).
  { apply list_elem_of_In, List.filter_In. split; [|done].
    by apply list_elem_of_In. }
  clear Hin.
  destruct Hcalls as [res Hd Hres|res Hd Hres Hany|res reply Hd Hres Hany
                     |res Hd Hres|res reply Hd Hres Hf
                     |res r' later b Hd Hres Hpass' Hloop].
  - apply list_elem_of_singleton in Hin'. discriminate.
  - apply list_elem_of_singleton in Hin'. discriminate.
  - apply elem_of_cons in Hin' as [?|Hin']; [discriminate|].
    apply list_elem_of_singleton in Hin'. discriminate.
  - apply list_elem_of_singleton in Hin'. discriminate.
  - apply elem_of_cons in Hin' as [?|Hin']; [discriminate|].
    apply list_elem_of_singleton in Hin'. injection Hin' as <-.
    cbn [fetch_fails] in Hf. by rewrite Hpass in Hf.
  - apply elem_of_cons in Hin' as [?|Hin']; [discriminate|].
    apply elem_of_cons in Hin' as [Heq|Hin'].
    + injection Heq as <-.
      destruct (loop_calls_targets _ _ _ _ Hloop) as [Hpre Hall].
      cbn [omap list_omap]. rewrite yt_target_cmd. cbn [yt_target].
      split; [by apply prefix_cons|]. intros Hb. by rewrite (Hall Hb).
    + pose proof (loop_calls_streamed _ _ _ _ Hloop) as Hnone.
      assert (Hmem : In (EvGet url fetch_headers false 30 (Reply r))
                        (List.filter is_page_fetch later)).
      { apply List.filter_In. split; [by apply list_elem_of_In|done]. }
      rewrite Hnone in Hmem. destruct Hmem.
Qed.

Example failed_run_tries_all :
  let url := "https://example.com/page" in
  let st := (download_video (RT := runtime_forward)
               (W := world_serving page_then_reset)
               url "./downloads" initial_state).2 in
  omap yt_target (calls (trace st))
  = [url; "https://example.com/a.mp4";
     "https://fast.wistia.net/embed/iframe/abc123";
     "https://fast.wistia.net/embed/iframe/def456"]
  ∧ List.filter is_page_fetch (trace st)
    = [EvGet url fetch_headers false 30 (Reply page_then_reset)]
  ∧ existsb succeeded (trace st) = false
  ∧ last (trace st) = Some (EvPrint (OutManual url)).
Proof. vm_compute. done. Qed.
